(** * WorkoutPal: the workout planner and runner of [workout.jsx]

    A shallow embedding of the logic of the single React component file
    [src/workout.jsx]: the JavaScript numbers it computes with, the
    scheduler [buildSchedule], the round-count coercion of the rounds
    editor, the initialiser of [useLocalStorage], the hook [useCountdown],
    the component [BigTimer] and the state and handlers of [App].

    Conventions of the embedding.
    - A JavaScript [number] is [NaN], an infinity or a finite value; a
      finite value is an exact rational.  The rounding and the overflow
      of binary64 are not modelled: every constant of the source and
      every value of the examples below is exactly representable, the
      values of products are stated for whole numbers up to [2^53]
      only, where binary64 is exact, and [-0] is identified with [0]
      (the source never divides and never prints a zero).
    - Array indices ([bi], [ei], [idx], [currentIndex]) are [nat]; the
      round counter [r] of the scheduler is an integer.
    - The local array [steps] of [buildSchedule] is threaded as state;
      its [for] loop takes fuel, and running out of fuel stands for a
      call that has not returned.
    - React is modelled by its contract: state lives across renders, an
      effect runs after a render when one of its dependencies changed
      (clean-up first), children run their effects before their parents,
      and a changed [key] unmounts the old instance and mounts a new one.
    - Of [useLocalStorage] the initialiser and the effect that writes
      the state back to [localStorage] are modelled; the effect changes
      no state of the component and is not part of the page model.  The
      markup of the page is left out. *)

From Stdlib Require Import QArith Qround ZArith List String Ascii Bool Lia Lqa.
From stdpp Require Import base list option sorting.
From Stdlib Require Import DecimalString.

Local Open Scope Z_scope.

(* ================================================================== *)
(** * JavaScript numbers *)
(* ================================================================== *)

Inductive number : Type :=
  | NaN
  | PInf
  | NInf
  | Fin (q : Q).

Definition ofZ (z : Z) : number := Fin (inject_Z z).

Module Num.

(** [ToBoolean]: [NaN] and zero are falsy. *)
Definition truthy (x : number) : bool :=
  match x with
  | NaN => false
  | Fin q => negb (Qeq_bool q 0)
  | _ => true
  end.

(** [x || d] on numbers. *)
Definition or (x d : number) : number := if truthy x then x else d.

(** [x <= y] *)
Definition leb (x y : number) : bool :=
  match x, y with
  | NaN, _ | _, NaN => false
  | NInf, _ | _, PInf => true
  | _, NInf | PInf, _ => false
  | Fin a, Fin b => Qle_bool a b
  end.

(** [x < y] *)
Definition ltb (x y : number) : bool :=
  match x, y with
  | NaN, _ | _, NaN => false
  | PInf, _ | _, NInf => false
  | NInf, _ | _, PInf => true
  | Fin a, Fin b => negb (Qle_bool b a)
  end.

(** [x > y] *)
Definition gtb (x y : number) : bool := ltb y x.

(** [x === y] on numbers: [NaN] differs from itself. *)
Definition eqb (x y : number) : bool :=
  match x, y with
  | PInf, PInf | NInf, NInf => true
  | Fin a, Fin b => Qeq_bool a b
  | _, _ => false
  end.

(** [Object.is] on numbers, the comparison of effect dependencies:
    as [===] but [NaN] is itself. *)
Definition same (x y : number) : bool :=
  match x, y with
  | NaN, NaN => true
  | _, _ => eqb x y
  end.

(** [-x] *)
Definition neg (x : number) : number :=
  match x with
  | NaN => NaN
  | PInf => NInf
  | NInf => PInf
  | Fin q => Fin (Qred (- q))
  end.

(** [x - y] *)
Definition sub (x y : number) : number :=
  match x, y with
  | NaN, _ | _, NaN => NaN
  | PInf, PInf | NInf, NInf => NaN
  | PInf, _ | _, NInf => PInf
  | NInf, _ | _, PInf => NInf
  | Fin a, Fin b => Fin (Qred (a - b))
  end.

(** [x * y] *)
Definition mul (x y : number) : number :=
  let sign (q : Q) (pos : number) : number :=
    if Qeq_bool q 0 then NaN else if Qle_bool 0 q then pos else neg pos in
  match x, y with
  | NaN, _ | _, NaN => NaN
  | Fin a, Fin b => Fin (Qred (a * b))
  | Fin a, PInf | PInf, Fin a => sign a PInf
  | Fin a, NInf | NInf, Fin a => sign a NInf
  | PInf, PInf | NInf, NInf => PInf
  | PInf, NInf | NInf, PInf => NInf
  end.

(** [x / y] for a finite non-zero divisor, the only use of the source
    ([remaining/1000]). *)
Definition divq (x : number) (d : Q) : number := mul x (Fin (/ d)).

End Num.

Module Math.

(** [Math.max(x, y)]: [NaN] if an argument is. *)
Definition max (x y : number) : number :=
  match x, y with
  | NaN, _ | _, NaN => NaN
  | PInf, _ | _, PInf => PInf
  | NInf, z | z, NInf => z
  | Fin a, Fin b => if Qle_bool a b then y else x
  end.

(** [Math.round(x)]: the integer nearest to [x], halves upwards. *)
Definition round (x : number) : number :=
  match x with
  | Fin q => ofZ (Qfloor (q + (1 # 2)))
  | _ => x
  end.

(** [Math.ceil(x)] *)
Definition ceil (x : number) : number :=
  match x with
  | Fin q => ofZ (Qceiling q)
  | _ => x
  end.

End Math.

(** A number is a whole number. *)
Definition isInteger (x : number) : bool :=
  match x with
  | Fin q => Qeq_bool q (inject_Z (Qfloor q))
  | _ => false
  end.

(* ================================================================== *)
(** * Data: exercises, blocks, workouts, steps *)
(* ================================================================== *)

Inductive Unit : Type := seconds | reps.

Record Exercise : Type := {
  description : string;
  duration : number;
  unit : Unit;
  instructions : option string
}.

Record Block : Type := {
  name : string;
  rounds : number;
  exercises : list Exercise
}.

Record Workout : Type := {
  title : string;
  categories : list Block
}.

Record Step : Type := { bi : nat; ri : Z; ei : nat }.

(** The argument of the conversion function [Number(...)]: the source
    applies it to a number ([blk.rounds || 1]) and to a string
    ([e.target.value]). *)
Inductive value : Type :=
  | VNum (n : number)
  | VStr (s : string).

(* ================================================================== *)
(** * [Number(string)]: the numeric value of a string *)
(* ================================================================== *)

(** Strings are read as sequences of code units below 256. *)
Module StringToNumber.

(** White space and line terminators among the code units below 256:
    TAB, LF, VT, FF, CR, SP and NBSP. *)
Definition isWhite (c : ascii) : bool :=
  let n := nat_of_ascii c in
  ((9 <=? n)%nat && (n <=? 13)%nat) || (n =? 32)%nat || (n =? 160)%nat.

Fixpoint dropWhite (l : list ascii) : list ascii :=
  match l with
  | c :: l' => if isWhite c then dropWhite l' else l
  | [] => []
  end.

Definition trim (l : list ascii) : list ascii :=
  rev (dropWhite (rev (dropWhite l))).

(** The value of a digit in a base up to 16. *)
Definition digit (base : Z) (c : ascii) : option Z :=
  let n := Z.of_nat (nat_of_ascii c) in
  let d :=
    if (48 <=? n) && (n <=? 57) then Some (n - 48)
    else if (97 <=? n) && (n <=? 102) then Some (n - 87)
    else if (65 <=? n) && (n <=? 70) then Some (n - 55)
    else None in
  match d with
  | Some v => if v <? base then Some v else None
  | None => None
  end.

(** The longest prefix of digits: its value continuing [acc], how many
    digits it has, and what follows it. *)
Fixpoint digits (base : Z) (l : list ascii) (acc : Z) (count : nat)
  : Z * nat * list ascii :=
  match l with
  | c :: l' =>
      match digit base c with
      | Some d => digits base l' (base * acc + d) (S count)
      | None => (acc, count, l)
      end
  | [] => (acc, count, [])
  end.

(** [0x], [0o] and [0b] literals: digits only, and at least one. *)
Definition nonDecimal (base : Z) (l : list ascii) : number :=
  match digits base l 0 0%nat with
  | (v, S _, []) => ofZ v
  | _ => NaN
  end.

(** [q * 10^e] *)
Definition scale10 (q : Q) (e : Z) : Q :=
  if 0 <=? e then q * inject_Z (10 ^ e) else q / inject_Z (10 ^ (- e)).

(** The optional exponent part and the end of the literal. *)
Definition exponent (q : Q) (l : list ascii) : number :=
  match l with
  | [] => Fin (Qred q)
  | c :: l' =>
      if Ascii.eqb c "e"%char || Ascii.eqb c "E"%char then
        let '(neg, l'') :=
          match l' with
          | "+"%char :: r => (false, r)
          | "-"%char :: r => (true, r)
          | _ => (false, l')
          end in
        match digits 10 l'' 0 0%nat with
        | (e, S _, []) => Fin (Qred (scale10 q (if neg then - e else e)))
        | _ => NaN
        end
      else NaN
  end.

(** An unsigned decimal literal: [Infinity], or digits with an optional
    fraction and exponent, with a digit before or after the point. *)
Definition unsignedDecimal (l : list ascii) : number :=
  if List.list_eq_dec ascii_dec l (list_ascii_of_string "Infinity"%string) then PInf
  else
    let '(ip, ni, l1) := digits 10 l 0 0%nat in
    match l1 with
    | "."%char :: l2 =>
        let '(fp, nf, l3) := digits 10 l2 0 0%nat in
        match ni, nf with
        | O, O => NaN
        | _, _ =>
            exponent (inject_Z ip + inject_Z fp / inject_Z (10 ^ Z.of_nat nf)) l3
        end
    | _ =>
        match ni with
        | O => NaN
        | S _ => exponent (inject_Z ip) l1
        end
    end.

Definition numericLiteral (l : list ascii) : number :=
  match l with
  | [] => ofZ 0
  | "0"%char :: "x"%char :: r | "0"%char :: "X"%char :: r => nonDecimal 16 r
  | "0"%char :: "o"%char :: r | "0"%char :: "O"%char :: r => nonDecimal 8 r
  | "0"%char :: "b"%char :: r | "0"%char :: "B"%char :: r => nonDecimal 2 r
  | "+"%char :: r => unsignedDecimal r
  | "-"%char :: r => Num.neg (unsignedDecimal r)
  | _ => unsignedDecimal l
  end.

Definition parse (s : string) : number :=
  numericLiteral (trim (list_ascii_of_string s)).

End StringToNumber.

(** [Number(v)] *)
Definition Number (v : value) : number :=
  match v with
  | VNum n => n
  | VStr s => StringToNumber.parse s
  end.

(* ================================================================== *)
(** * The scheduler *)
(* ================================================================== *)

(** Computations of [buildSchedule]: they push to the local array
    [steps], and they may fail to return. *)
Module Sched.

(** The result of a statement. *)
Definition void : Type := Datatypes.unit.

Definition M (A : Type) : Type := list Step -> option (A * list Step).

Definition ret {A} (a : A) : M A := fun steps => Some (a, steps).

Definition bind {A B} (m : M A) (k : A -> M B) : M B :=
  fun steps =>
    match m steps with
    | Some (a, steps') => k a steps'
    | None => None
    end.

(** Out of fuel: the call has not returned. *)
Definition spin {A} : M A := fun _ => None.

(** [steps.push(s)] *)
Definition push (s : Step) : M void := fun steps => Some (tt, steps ++ [s]).

(** [xs.forEach((x, i) => f x i)], from index [i] on. *)
Fixpoint forEachFrom {A} (i : nat) (f : A -> nat -> M void) (xs : list A) : M void :=
  match xs with
  | [] => ret tt
  | x :: xs' => bind (f x i) (fun _ => forEachFrom (S i) f xs')
  end.

Definition forEach {A} (f : A -> nat -> M void) (xs : list A) : M void :=
  forEachFrom 0 f xs.

(** [for (; r <= bound; r++) body(r)] *)
Fixpoint forUpTo (fuel : nat) (r : Z) (bound : number) (body : Z -> M void) : M void :=
  match fuel with
  | O => spin
  | S fuel' =>
      if Num.leb (ofZ r) bound
      then bind (body r) (fun _ => forUpTo fuel' (r + 1) bound body)
      else ret tt
  end.

End Sched.

(** [Math.max(1, Number(blk.rounds || 1))] *)
Definition roundsOf (blk : Block) : number :=
  Math.max (ofZ 1) (Number (VNum (Num.or (rounds blk) (ofZ 1)))).

(** The body of [buildSchedule]. *)
Definition buildScheduleM (fuel : nat) (blocks : list Block) : Sched.M Sched.void :=
  Sched.forEach (fun blk bi =>
    let rounds := roundsOf blk in
    Sched.forUpTo fuel 1 rounds (fun r =>
      Sched.forEach (fun _ ei => Sched.push {| bi := bi; ri := r; ei := ei |})
                    (exercises blk)))
    blocks.

(** [buildSchedule(blocks)]: [None] when [fuel] iterations of a [for]
    loop were not enough for it to return. *)
Definition buildSchedule (fuel : nat) (blocks : list Block) : option (list Step) :=
  match buildScheduleM fuel blocks [] with
  | Some (_, steps) => Some steps
  | None => None
  end.

(** ** The schedule in the words of the specification *)

(** The integer round count of a block, defaulting to 1. *)
Definition intOrDefault (x : number) (d : Z) : Z :=
  match x with
  | Fin q => if Qle_bool 0 q then Qfloor q else Qceiling q
  | _ => d
  end.

(** [max(1, intOrDefault(b.rounds, 1))] *)
Definition roundCount (blk : Block) : Z := Z.max 1 (intOrDefault (rounds blk) 1).

(** The steps of round [r] of block [bi]: its exercises in list order. *)
Definition roundSteps (bi : nat) (blk : Block) (r : Z) : list Step :=
  imap (fun ei _ => {| bi := bi; ri := r; ei := ei |}) (exercises blk).

(** The rounds [1 .. n]. *)
Definition roundsUpTo (n : Z) : list Z := map Z.of_nat (seq 1 (Z.to_nat n)).

(** The steps of block [bi]: round after round. *)
Definition blockSteps (bi : nat) (blk : Block) : list Step :=
  flat_map (roundSteps bi blk) (roundsUpTo (roundCount blk)).

(** Block after block. *)
Definition scheduleSpec (blocks : list Block) : list Step :=
  concat (imap blockSteps blocks).

(** The length the specification gives for the schedule. *)
Definition scheduleLength (blocks : list Block) : Z :=
  fold_right (fun b acc => roundCount b * Z.of_nat (length (exercises b)) + acc) 0 blocks.

(** Steps in the order block, round, exercise. *)
Definition stepBefore (s t : Step) : Prop :=
  (bi s < bi t)%nat \/
  (bi s = bi t /\ (ri s < ri t \/ (ri s = ri t /\ (ei s < ei t)%nat))).

(** A step that points into [blocks]. *)
Definition stepInRange (blocks : list Block) (s : Step) : Prop :=
  exists blk ex,
    blocks !! bi s = Some blk /\
    exercises blk !! ei s = Some ex /\
    1 <= ri s /\
    Num.leb (ofZ (ri s)) (roundsOf blk) = true /\
    ri s <= roundCount blk.

(** The [for] loop of a block returns: its round count is not
    [Infinity]. *)
Definition finiteRounds (blk : Block) : Prop := rounds blk <> PInf.

(** The [for] loop of a block returns within [fuel] iterations. *)
Definition returnsWithin (fuel : nat) (blk : Block) : bool :=
  match rounds blk with
  | PInf => false
  | _ => (Z.to_nat (roundCount blk) <? fuel)%nat
  end.

(** The rounds from [r] on, [n] of them: the values the counter of the
    [for] loop takes. *)
Definition roundsFrom (r : Z) (n : nat) : list Z :=
  map (fun k => r + Z.of_nat k) (seq 0 n).

(** Fuel that lets every loop of [blocks] return, when one exists. *)
Definition enoughFuel (blocks : list Block) : nat :=
  S (fold_right (fun b acc => Nat.max (Z.to_nat (roundCount b)) acc) 0%nat blocks).

(* ================================================================== *)
(** * The seed data *)
(* ================================================================== *)

Section Seed.
Local Open Scope string_scope.

Definition exercise (d : string) (n : Z) (u : Unit) (i : string) : Exercise :=
  {| description := d; duration := ofZ n; unit := u; instructions := Some i |}.

Definition seedWorkout0 : Workout :=
  {| title := "Arm & Ab Workout"; categories := [
    {| name := "Warm-Up"; rounds := ofZ 1; exercises := [
         exercise "Arm Circles" 30 seconds
            "Small→large circles, forward & backward.";
         exercise "Cat-Cow" 6 reps
            "Breathe with movement; move through full spine.";
         exercise "Torso Twists" 20 reps
            "Rotate gently; keep hips facing forward." ] |};
    {| name := "Core (Mat)"; rounds := ofZ 3; exercises := [
         exercise "Plank Hold" 45 seconds
            "Elbows under shoulders; ribs down; glutes on; no sagging.";
         exercise "Bicycle Crunches" 20 reps
            "Slow & controlled; shoulder off mat; exhale on twist.";
         exercise "Russian Twists" 20 reps
            "Neutral spine; rotate from ribcage; tap floor each side." ] |};
    {| name := "Upper Body (Weights)"; rounds := ofZ 3; exercises := [
         exercise "Dumbbell Curl to Press" 12 reps
            "No swinging; rotate to neutral on press; lock ribs.";
         exercise "Bench Dips" 12 reps
            "Shoulders down/back; stop ~90° elbow; full lockout up.";
         exercise "Hammer Curls" 12 reps
            "Elbows tucked; neutral grip; control negative." ] |};
    {| name := "Cooldown"; rounds := ofZ 1; exercises := [
         exercise "Seated Forward Fold" 45 seconds
            "Hinge at hips; soft knees; relax neck/jaw.";
         exercise "Cross-Body Shoulder" 30 seconds
            "Gently pull arm across; keep shoulder down.";
         exercise "Child's Pose" 45 seconds
            "Sit back to heels; reach long; slow breaths." ] |} ] |}.

Definition seedWorkout1 : Workout :=
  {| title := "Leg & Glute Workout"; categories := [
    {| name := "Warm-Up"; rounds := ofZ 1; exercises := [
         exercise "Bodyweight Squats" 12 reps
            "Feet shoulder-width; sit back; chest tall.";
         exercise "Hip Circles" 30 seconds
            "Hands on hips; draw big circles; both directions.";
         exercise "Leg Swings" 10 reps
            "Front↔back; brace core; build range gradually." ] |};
    {| name := "Glute Activation (Mat)"; rounds := ofZ 3; exercises := [
         exercise "Glute Bridge" 15 reps
            "Heels close; drive through heels; pause/squeeze at top.";
         exercise "Clamshells" 15 reps
            "Band above knees; no hip roll; small controlled ROM.";
         exercise "Side Plank Hip Lifts" 12 reps
            "Elbow under shoulder; stack feet; lift straight up/down." ] |};
    {| name := "Leg Strength (Weights)"; rounds := ofZ 3; exercises := [
         exercise "Bulgarian Split Squat" 12 reps
            "Long stance; torso tall; knee tracks over mid-foot.";
         exercise "Step Ups" 12 reps
            "Full foot on bench; drive through heel; control down.";
         exercise "Romanian Deadlift" 12 reps
            "Hinge at hips; flat back; slight knee bend; stretch hams.";
         exercise "Squat Jumps" 15 reps
            "Soft landing; chest tall; power — good for skiing." ] |};
    {| name := "Cooldown"; rounds := ofZ 1; exercises := [
         exercise "Standing Quad" 30 seconds
            "Knees together; slight tuck; tall posture.";
         exercise "Figure-4" 30 seconds
            "Cross ankle over knee; sit back; keep spine long.";
         exercise "Seated Hamstring" 45 seconds
            "Extend leg; hinge forward; breathe into stretch." ] |} ] |}.

Definition INITIAL_LIBRARY : list Workout := [seedWorkout0; seedWorkout1].

End Seed.

(** The block Core (Mat) of the first seed routine, the input of the
    test of the source's test panel (3 rounds of 3 exercises). *)
Definition coreMat : list Block :=
  match categories seedWorkout0 with
  | _ :: core :: _ => [core]
  | _ => []
  end.

Definition coreMatSteps : list Step :=
  [ {| bi := 0; ri := 1; ei := 0 |}; {| bi := 0; ri := 1; ei := 1 |};
    {| bi := 0; ri := 1; ei := 2 |};
    {| bi := 0; ri := 2; ei := 0 |}; {| bi := 0; ri := 2; ei := 1 |};
    {| bi := 0; ri := 2; ei := 2 |};
    {| bi := 0; ri := 3; ei := 0 |}; {| bi := 0; ri := 3; ei := 1 |};
    {| bi := 0; ri := 3; ei := 2 |} ].

(** The scenario of the specification: one round of [e1], then two
    rounds of [e2, e3]. *)
Definition scenarioBlocks (e1 e2 e3 : Exercise) : list Block :=
  [ {| name := EmptyString; rounds := ofZ 1; exercises := [e1] |};
    {| name := EmptyString; rounds := ofZ 2; exercises := [e2; e3] |} ].

Definition scenarioSteps : list Step :=
  [ {| bi := 0; ri := 1; ei := 0 |};
    {| bi := 1; ri := 1; ei := 0 |}; {| bi := 1; ri := 1; ei := 1 |};
    {| bi := 1; ri := 2; ei := 0 |}; {| bi := 1; ri := 2; ei := 1 |} ].

(* ================================================================== *)
(** * Exceptions *)
(* ================================================================== *)

Inductive exn : Type := TypeError | SyntaxError | SecurityError.

(** The outcome of evaluating an expression that may throw. *)
Inductive result (A : Type) : Type :=
  | Ok (a : A)
  | Throw (e : exn).
Arguments Ok {A} a.
Arguments Throw {A} e.

Definition andThen {A B} (r : result A) (k : A -> result B) : result B :=
  match r with
  | Ok a => k a
  | Throw e => Throw e
  end.

(** [try { body } catch { handler }] *)
Definition tryCatch {A} (body : result A) (handler : result A) : result A :=
  match body with
  | Ok a => Ok a
  | Throw _ => handler
  end.

(* ================================================================== *)
(** * [useLocalStorage]: the initialiser of the state *)
(* ================================================================== *)

(** [window.localStorage]: [getItem] gives the stored string or [null],
    or throws. *)
Record Storage : Type := { getItem : string -> result (option string) }.

(** The global object: there is no [window] outside a browser; reading
    [window.localStorage] may throw, and may give [null]. *)
Inductive Global : Type :=
  | NoWindow
  | Window (localStorage : result (option Storage)).

Section UseLocalStorage.

(** The type of the stored value, and [JSON.parse] at that type: it
    throws a [SyntaxError] on text that is not JSON. *)
Variable T : Type.
Variable JSON_parse : string -> result T.

(** The initial state of [useLocalStorage(key, initialValue)]: the
    function passed to [useState] (lines 41-47), the [load] of the
    specification. *)
Definition useLocalStorage_initial (g : Global) (key : string) (initialValue : T) : result T :=
  tryCatch
    (match g with
     | NoWindow => Ok initialValue
     | Window localStorage =>
         andThen localStorage (fun storage =>
         match storage with
         | None => Throw TypeError
         | Some s =>
             andThen (getItem s key) (fun raw =>
             match raw with
             | Some text => JSON_parse text
             | None => Ok initialValue
             end)
         end)
     end)
    (Ok initialValue).

End UseLocalStorage.

(* ================================================================== *)
(** * The state of [App] *)
(* ================================================================== *)

Inductive Mode : Type := PLAN | RUN.

(** The state variables of [App] (lines 146-161). *)
Record AppState : Type := {
  library : list Workout;
  currentIndex : nat;
  mode : Mode;
  schedule : list Step;
  idx : nat;
  running : bool;
  timerDone : bool;
  seed : nat
}.

(** The calls of the state setters.  [setRunning] and [setSeed] take an
    updater function, as in [setRunning(r => !r)] and [setSeed(s => s+1)]. *)
Inductive Update : Type :=
  | setLibrary (l : list Workout)
  | setCurrentIndex (i : nat)
  | setMode (m : Mode)
  | setSchedule (s : list Step)
  | setIdx (i : nat)
  | setRunning (f : bool -> bool)
  | setTimerDone (b : bool)
  | setSeed (f : nat -> nat).

Definition Mode_eqb (m n : Mode) : bool :=
  match m, n with
  | PLAN, PLAN | RUN, RUN => true
  | _, _ => false
  end.

(** The state after a setter call. *)
Definition applyUpdate (u : Update) (a : AppState) : AppState :=
  match u with
  | setLibrary l =>
      {| library := l; currentIndex := currentIndex a; mode := mode a;
         schedule := schedule a; idx := idx a; running := running a;
         timerDone := timerDone a; seed := seed a |}
  | setCurrentIndex i =>
      {| library := library a; currentIndex := i; mode := mode a;
         schedule := schedule a; idx := idx a; running := running a;
         timerDone := timerDone a; seed := seed a |}
  | setMode m =>
      {| library := library a; currentIndex := currentIndex a; mode := m;
         schedule := schedule a; idx := idx a; running := running a;
         timerDone := timerDone a; seed := seed a |}
  | setSchedule s =>
      {| library := library a; currentIndex := currentIndex a; mode := mode a;
         schedule := s; idx := idx a; running := running a;
         timerDone := timerDone a; seed := seed a |}
  | setIdx i =>
      {| library := library a; currentIndex := currentIndex a; mode := mode a;
         schedule := schedule a; idx := i; running := running a;
         timerDone := timerDone a; seed := seed a |}
  | setRunning f =>
      {| library := library a; currentIndex := currentIndex a; mode := mode a;
         schedule := schedule a; idx := idx a; running := f (running a);
         timerDone := timerDone a; seed := seed a |}
  | setTimerDone b =>
      {| library := library a; currentIndex := currentIndex a; mode := mode a;
         schedule := schedule a; idx := idx a; running := running a;
         timerDone := b; seed := seed a |}
  | setSeed f =>
      {| library := library a; currentIndex := currentIndex a; mode := mode a;
         schedule := schedule a; idx := idx a; running := running a;
         timerDone := timerDone a; seed := f (seed a) |}
  end.

(** Whether a setter call changes the state ([Object.is] on the old and
    the new value); the arrays passed to [setLibrary] and [setSchedule]
    are fresh ones at every call site, so these two always do. *)
Definition changes (u : Update) (a : AppState) : bool :=
  match u with
  | setLibrary _ | setSchedule _ => true
  | setCurrentIndex i => negb (i =? currentIndex a)%nat
  | setMode m => negb (Mode_eqb m (mode a))
  | setIdx i => negb (i =? idx a)%nat
  | setRunning f => negb (Bool.eqb (f (running a)) (running a))
  | setTimerDone b => negb (Bool.eqb b (timerDone a))
  | setSeed f => negb (f (seed a) =? seed a)%nat
  end.

(** A batch of setter calls: the new state, and whether it changed. *)
Fixpoint applyAll (us : list Update) (a : AppState) : AppState * bool :=
  match us with
  | [] => (a, false)
  | u :: us' =>
      let '(a', c) := applyAll us' (applyUpdate u a) in
      (a', changes u a || c)
  end.

(** ** What a render of [App] computes (lines 150-157) *)

(** [library[currentIndex] || INITIAL_LIBRARY[0]] *)
Definition workout (a : AppState) : Workout :=
  match library a !! currentIndex a with
  | Some w => w
  | None => seedWorkout0
  end.

Definition blocks (a : AppState) : list Block := categories (workout a).

(** [schedule[idx]] *)
Definition cur (a : AppState) : option Step := schedule a !! idx a.

(** [cur ? blocks[cur.bi] : undefined] *)
Definition currentBlock (a : AppState) : option Block :=
  match cur a with
  | Some c => blocks a !! bi c
  | None => None
  end.

(** [cur && currentBlock ? currentBlock.exercises?.[cur.ei] : undefined] *)
Definition current (a : AppState) : option Exercise :=
  match cur a, currentBlock a with
  | Some c, Some blk => exercises blk !! ei c
  | _, _ => None
  end.

(** What [main] shows (lines 217 and 269): the plan, the card of the
    current exercise, or nothing. *)
Inductive View : Type :=
  | PlanView
  | RunCard (c : Step) (blk : Block) (e : Exercise)
  | Blank.

Definition view (a : AppState) : View :=
  match mode a with
  | PLAN => PlanView
  | RUN =>
      match cur a, currentBlock a, current a with
      | Some c, Some blk, Some e => RunCard c blk e
      | _, _, _ => Blank
      end
  end.

(** ** The handlers of [App] *)

(** [startRun] (line 165); [None] when [buildSchedule] has not returned. *)
Definition startRun (fuel : nat) (a : AppState) : option (list Update) :=
  match buildSchedule fuel (blocks a) with
  | Some steps => Some [setSchedule steps; setIdx 0; setMode RUN]
  | None => None
  end.

(** [next] (line 166) *)
Definition next (a : AppState) : list Update :=
  if (idx a + 1 <? length (schedule a))%nat
  then [setIdx (idx a + 1)]
  else [setMode PLAN].

(** [prev] (line 167) *)
Definition prev (a : AppState) : list Update :=
  if (0 <? idx a)%nat then [setIdx (idx a - 1)] else [].

(** The Exit buttons (lines 211 and 295) *)
Definition exit : list Update := [setMode PLAN].

(** [onToggle] and [onComplete] as passed to [BigTimer] (line 284) *)
Definition onToggle : list Update := [setRunning negb].
Definition onComplete : list Update := [setTimerDone true].

(** The routine selector (line 203) *)
Definition selectRoutine (i : nat) : list Update := [setCurrentIndex i].

(** [Math.max(1, Number(e.target.value)||1)] (line 236) *)
Definition coerceRounds (v : string) : number :=
  Math.max (ofZ 1) (Num.or (Number (VStr v)) (ofZ 1)).

(** [{ ...blk, rounds: r }] *)
Definition withRounds (r : number) (blk : Block) : Block :=
  {| name := name blk; rounds := r; exercises := exercises blk |}.

(** The [onChange] handler of the rounds input of block [bi] (lines
    232-238).  Spreading [library[currentIndex].categories] throws when
    [library[currentIndex]] is undefined.  The handler is made by
    [blocks.map], so [bi] is an index of [blocks]; there [alter] is the
    assignment to [categories[bi]] (past the end, where no input is
    rendered, [alter] changes nothing). *)
Definition onRoundsChange (bi : nat) (v : string) (a : AppState) : result (list Update) :=
  match library a !! currentIndex a with
  | None => Throw TypeError
  | Some w =>
      let categories' := alter (withRounds (coerceRounds v)) bi (categories w) in
      let w' := {| title := title w; categories := categories' |} in
      Ok [setLibrary (<[currentIndex a := w']> (library a))]
  end.

(** The effect of line 163 and its dependencies
    [[idx, current?.unit, current?.duration]]. *)
Definition stepEffect : list Update :=
  [setRunning (fun _ => false); setTimerDone false; setSeed S].

Definition Deps : Type := nat * option Unit * option number.

Definition depsOf (a : AppState) : Deps :=
  (idx a, option_map unit (current a), option_map duration (current a)).

Definition Unit_eqb (u v : Unit) : bool :=
  match u, v with
  | seconds, seconds | reps, reps => true
  | _, _ => false
  end.

Definition sameOption {A} (eqb : A -> A -> bool) (x y : option A) : bool :=
  match x, y with
  | Some a, Some b => eqb a b
  | None, None => true
  | _, _ => false
  end.

Definition sameDeps (d e : Deps) : bool :=
  let '(i, u, n) := d in
  let '(j, v, m) := e in
  (i =? j)%nat && sameOption Unit_eqb u v && sameOption Num.same n m.

(* ================================================================== *)
(** * [toMs], [useCountdown] and [BigTimer] *)
(* ================================================================== *)

(** [toMs] (line 38) *)
Definition toMs (sec : number) : number :=
  Math.max (ofZ 0) (Math.round (Num.mul (Number (VNum (Num.or sec (ofZ 0)))) (ofZ 1000))).

(** The closure [loop] of one run of the effect of [useCountdown]: the
    instance whose [setRemaining] and [rafRef] it holds, and the [start]
    and [ms] it has captured. *)
Record Loop : Type := {
  owner : nat;
  start : number;
  loopMs : number
}.

(** The animation frame callbacks of the window, in the order of the
    requests, and the next handle.  Handles are positive. *)
Record Raf : Type := {
  callbacks : list (nat * Loop);
  nextHandle : nat
}.

Definition requestAnimationFrame (cb : Loop) (raf : Raf) : nat * Raf :=
  (nextHandle raf,
   {| callbacks := callbacks raf ++ [(nextHandle raf, cb)];
      nextHandle := S (nextHandle raf) |}).

Definition cancelAnimationFrame (h : nat) (raf : Raf) : Raf :=
  {| callbacks := List.filter (fun hc => negb (fst hc =? h)%nat) (callbacks raf);
     nextHandle := nextHandle raf |}.

(** A mounted [BigTimer] with the state of its [useCountdown]: the [key]
    and the props of its last render, [remaining] and [rafRef.current]. *)
Record Timer : Type := {
  tid : nat;
  tkey : nat;
  tms : number;
  trunning : bool;
  remaining : number;
  rafRef : option nat
}.

Definition withRemaining (r : number) (tm : Timer) : Timer :=
  {| tid := tid tm; tkey := tkey tm; tms := tms tm; trunning := trunning tm;
     remaining := r; rafRef := rafRef tm |}.

Definition withRafRef (h : nat) (tm : Timer) : Timer :=
  {| tid := tid tm; tkey := tkey tm; tms := tms tm; trunning := trunning tm;
     remaining := remaining tm; rafRef := Some h |}.

Definition withProps (ms : number) (run : bool) (tm : Timer) : Timer :=
  {| tid := tid tm; tkey := tkey tm; tms := ms; trunning := run;
     remaining := remaining tm; rafRef := rafRef tm |}.

(** [if (rafRef.current) cancelAnimationFrame(rafRef.current)] *)
Definition cancelRef (tm : Timer) (raf : Raf) : Raf :=
  match rafRef tm with
  | Some h => if (0 <? h)%nat then cancelAnimationFrame h raf else raf
  | None => raf
  end.

(** The body of the effect of [[ms, running]] (lines 57-65), run at time
    [now] with the props of [tm]. *)
Definition countdownEffect (now : Q) (tm : Timer) (raf : Raf) : Timer * Raf :=
  if negb (trunning tm) then (tm, cancelRef tm raf)
  else
    let '(h, raf') :=
      requestAnimationFrame
        {| owner := tid tm; start := Fin now; loopMs := tms tm |} raf in
    (withRafRef h tm, raf').

(** The clean-up the effect returned (line 66): there is one when it ran
    with [running] true. *)
Definition countdownCleanup (tm : Timer) (raf : Raf) : Raf :=
  if trunning tm then cancelRef tm raf else raf.

(** Mounting: [useState(ms)], then the effects. *)
Definition mountTimer (now : Q) (id key : nat) (ms : number) (run : bool) (raf : Raf)
  : Timer * Raf :=
  countdownEffect now
    {| tid := id; tkey := key; tms := ms; trunning := run;
       remaining := ms; rafRef := None |} raf.

(** A render with new props: the effect of [[ms]] sets [remaining] when
    [ms] changed; the effect of [[ms, running]] is cleaned up and run
    again when [ms] or [running] changed. *)
Definition updateTimer (now : Q) (ms : number) (run : bool) (tm : Timer) (raf : Raf)
  : Timer * Raf :=
  let msChanged := negb (Num.same (tms tm) ms) in
  let changed := msChanged || negb (Bool.eqb (trunning tm) run) in
  let '(tm', raf') :=
    if changed
    then countdownEffect now (withProps ms run tm) (countdownCleanup tm raf)
    else (tm, raf) in
  (if msChanged then withRemaining ms tm' else tm', raf').

(** The effect of [BigTimer] (line 308), for the value of [remaining] of
    the render. *)
Definition completeEffect (rem : number) : list Update :=
  if Num.eqb rem (ofZ 0) then onComplete else [].

(** What [BigTimer] displays: [Math.ceil(remaining/1000)]. *)
Definition displayedSeconds (tm : Timer) : number :=
  Math.ceil (Num.divq (remaining tm) 1000).

(* ================================================================== *)
(** * The page: [App], its [BigTimer] and the animation frames *)
(* ================================================================== *)

Record Page : Type := {
  app : AppState;
  (** the dependencies of the last run of the effect of line 163 *)
  effectDeps : option Deps;
  bigTimer : option Timer;
  raf : Raf;
  (** the number of [BigTimer] instances mounted so far *)
  instances : nat
}.

(** The [BigTimer] element of a render of [App] (lines 269 and 282-284):
    its key and its props [ms] and [running]. *)
Definition bigTimerElement (a : AppState) : option (nat * number * bool) :=
  match view a with
  | RunCard _ _ e =>
      match unit e with
      | seconds => Some (seed a, toMs (duration e), running a)
      | reps => None
      end
  | _ => None
  end.

(** The commit of [BigTimer] after a render of [App]: the instance is
    kept when the key is, and otherwise unmounted and a new one mounted.
    [onComplete] is a new function at every render of [App], so the
    effect of [[remaining, onComplete]] runs at each of them.  The result
    is the timer, the frames, the instance count and the setter calls of
    the effects. *)
Definition commitTimer (now : Q) (el : option (nat * number * bool)) (p : Page)
  : option Timer * Raf * nat * list Update :=
  match bigTimer p, el with
  | None, None => (None, raf p, instances p, [])
  | Some tm, None => (None, countdownCleanup tm (raf p), instances p, [])
  | None, Some (key, ms, run) =>
      let '(tm', raf') := mountTimer now (instances p) key ms run (raf p) in
      (Some tm', raf', S (instances p), completeEffect ms)
  | Some tm, Some (key, ms, run) =>
      if (key =? tkey tm)%nat then
        let '(tm', raf') := updateTimer now ms run tm (raf p) in
        (Some tm', raf', instances p, completeEffect (remaining tm))
      else
        let '(tm', raf') :=
          mountTimer now (instances p) key ms run (countdownCleanup tm (raf p)) in
        (Some tm', raf', S (instances p), completeEffect ms)
  end.

(** One render of [App] and its commit: the effects of [BigTimer] run
    before the effect of line 163, which runs when its dependencies
    changed; the setter calls of the effects are applied afterwards. *)
Definition pass (now : Q) (p : Page) : Page :=
  let a := app p in
  let '(tm, raf', n, us) := commitTimer now (bigTimerElement a) p in
  let d := depsOf a in
  let stale :=
    match effectDeps p with
    | Some d' => negb (sameDeps d' d)
    | None => true
    end in
  let us' := if stale then stepEffect else [] in
  {| app := fst (applyAll (us ++ us') a);
     effectDeps := Some d;
     bigTimer := tm;
     raf := raf';
     instances := n |}.

(** Rendering until the page has settled: the setter calls of the
    effects of a first pass ask for a second one, and a third would
    change nothing. *)
Definition rerender (now : Q) (p : Page) : Page := pass now (pass now p).

Definition withApp (a : AppState) (p : Page) : Page :=
  {| app := a; effectDeps := effectDeps p; bigTimer := bigTimer p;
     raf := raf p; instances := instances p |}.

(** A handler has made the setter calls [us]: the page is rendered again
    when one of them changed the state. *)
Definition dispatch (now : Q) (us : list Update) (p : Page) : Page :=
  let '(a, changed) := applyAll us (app p) in
  if changed then rerender now (withApp a p) else p.

(** ** Animation frames *)

Definition setRemaining (id : nat) (r : number) (p : Page) : Page :=
  match bigTimer p with
  | Some tm =>
      if (tid tm =? id)%nat
      then {| app := app p; effectDeps := effectDeps p;
              bigTimer := Some (withRemaining r tm);
              raf := raf p; instances := instances p |}
      else p
  | None => p
  end.

(** [rafRef.current = requestAnimationFrame(loop)] *)
Definition requestAgain (cb : Loop) (p : Page) : Page :=
  let '(h, raf') := requestAnimationFrame cb (raf p) in
  let tm' :=
    match bigTimer p with
    | Some tm => if (tid tm =? owner cb)%nat then Some (withRafRef h tm) else Some tm
    | None => None
    end in
  {| app := app p; effectDeps := effectDeps p; bigTimer := tm';
     raf := raf'; instances := instances p |}.

(** [loop(t)] (lines 59-64).  The state of an instance that is no
    longer mounted is not kept: its [setRemaining] does nothing. *)
Definition loop (cb : Loop) (t : Q) (p : Page) : Page :=
  let elapsed := Num.sub (Fin t) (start cb) in
  let next := Math.max (ofZ 0) (Num.sub (loopMs cb) elapsed) in
  let p' := setRemaining (owner cb) next p in
  if Num.gtb next (ofZ 0) then requestAgain cb p' else p'.

Definition remainingOf (p : Page) : option number :=
  option_map remaining (bigTimer p).

(** An animation frame with time stamp [t]: the callbacks requested so
    far run in order; [BigTimer] is rendered again when [remaining]
    changed. *)
Definition frame (t : Q) (p : Page) : Page :=
  let p0 := {| app := app p; effectDeps := effectDeps p; bigTimer := bigTimer p;
               raf := {| callbacks := []; nextHandle := nextHandle (raf p) |};
               instances := instances p |} in
  let p1 := fold_left (fun q hc => loop (snd hc) t q) (callbacks (raf p)) p0 in
  if sameOption Num.same (remainingOf p) (remainingOf p1) then p1 else rerender t p1.

(** ** Events *)

(** What the user and the browser do. *)
Inductive Event : Type :=
  | Select (i : nat)
  | Start
  | Exit
  | Next
  | Prev
  | Done
  | Toggle
  | Rounds (bi : nat) (v : string)
  | Frame.

(** The controls the page shows (lines 202-212, 230, 282-296). *)
Definition enabled (e : Event) (a : AppState) : bool :=
  match e, view a with
  | Frame, _ => true
  | Select i, _ => (i <? length (library a))%nat
  | Start, PlanView => true
  | Rounds bi _, PlanView => (bi <? length (blocks a))%nat
  | Exit, (RunCard _ _ _ | Blank) => true
  | (Next | Prev), RunCard _ _ _ => true
  | Done, RunCard _ _ e => Unit_eqb (unit e) reps
  | Toggle, RunCard _ _ e => Unit_eqb (unit e) seconds
  | _, _ => false
  end.

(** The outcome of an event. *)
Inductive Outcome : Type :=
  | Went (p : Page)
  | NotShown
  | Thrown (e : exn)
  | NoReturn.

(** An event at time [now] (for a frame, its time stamp); [fuel] bounds
    the loops of [buildSchedule]. *)
Definition step (fuel : nat) (now : Q) (e : Event) (p : Page) : Outcome :=
  let a := app p in
  if negb (enabled e a) then NotShown
  else
    match e with
    | Select i => Went (dispatch now (selectRoutine i) p)
    | Start =>
        match startRun fuel a with
        | Some us => Went (dispatch now us p)
        | None => NoReturn
        end
    | Exit => Went (dispatch now exit p)
    | Next | Done => Went (dispatch now (next a) p)
    | Prev => Went (dispatch now (prev a) p)
    | Toggle => Went (dispatch now onToggle p)
    | Rounds bi v =>
        match onRoundsChange bi v a with
        | Ok us => Went (dispatch now us p)
        | Throw x => Thrown x
        end
    | Frame => Went (frame now p)
    end.

(** A sequence of timed events. *)
Fixpoint run (fuel : nat) (es : list (Q * Event)) (p : Page) : Outcome :=
  match es with
  | [] => Went p
  | (now, e) :: es' =>
      match step fuel now e p with
      | Went p' => run fuel es' p'
      | o => o
      end
  end.

(** The page after the first render of [App], with the state
    [useLocalStorage] has loaded. *)
Definition initialPage (now : Q) (lib : list Workout) (i : nat) (m : Mode) : Page :=
  rerender now
    {| app := {| library := lib; currentIndex := i; mode := m;
                 schedule := []; idx := 0; running := false;
                 timerDone := false; seed := 0 |};
       effectDeps := None;
       bigTimer := None;
       raf := {| callbacks := []; nextHandle := 1 |};
       instances := 0 |}.

(* ================================================================== *)
(** * Inputs of the examples *)
(* ================================================================== *)

Section Inputs.
Local Open Scope string_scope.

(** A store that holds [text] under [key] and nothing else. *)
Definition storeWith (key text : string) : Storage :=
  {| getItem := fun k => if String.eqb k key then Ok (Some text) else Ok None |}.

(** A store whose [getItem] throws. *)
Definition brokenStore : Storage :=
  {| getItem := fun _ => Throw SecurityError |}.

(** [JSON.parse] at the type of [currentIndex], on the texts of the
    examples: a decimal literal is a number, other text is not JSON. *)
Definition parseIndex (text : string) : result number :=
  match StringToNumber.unsignedDecimal (list_ascii_of_string text) with
  | NaN | PInf | NInf => Throw SyntaxError
  | Fin q => Ok (Fin q)
  end.

(** A library with one routine of one block of one round: an exercise
    of five seconds, then one of ten repetitions. *)
Definition fiveSeconds : list Workout :=
  [ {| title := "Timer";
       categories :=
         [ {| name := "Block"; rounds := ofZ 1;
              exercises :=
                [ {| description := "Hold"; duration := ofZ 5;
                     unit := seconds; instructions := None |};
                  {| description := "Lift"; duration := ofZ 10;
                     unit := reps; instructions := None |} ] |} ] |} ].

(** A library whose routine has two blocks and no exercise. *)
Definition noSteps : list Workout :=
  [ {| title := "Empty";
       categories :=
         [ {| name := "A"; rounds := ofZ 2; exercises := [] |};
           {| name := "B"; rounds := ofZ 1; exercises := [] |} ] |} ].

(** A library whose routine has one block without exercises and with
    the round count [Infinity]. *)
Definition endlessRounds : list Workout :=
  [ {| title := "Endless";
       categories := [ {| name := "A"; rounds := PInf; exercises := [] |} ] |} ].

(** A library with the routine of the scenario of the specification. *)
Definition scenarioLibrary : list Workout :=
  [ {| title := "Scenario";
       categories :=
         scenarioBlocks (exercise "e1" 10 reps "") (exercise "e2" 10 reps "")
                        (exercise "e3" 10 reps "") |} ].

End Inputs.

(* ================================================================== *)
(** * Notions used in the statements *)
(* ================================================================== *)

(** The setters of the per-step state: the only ones effects call. *)
Definition perStep (u : Update) : Prop :=
  match u with
  | setRunning _ | setTimerDone _ | setSeed _ => True
  | _ => False
  end.

(** The state the handlers own: what the effects never set. *)
Definition runFields (a : AppState) : list Workout * nat * Mode * list Step * nat :=
  (library a, currentIndex a, mode a, schedule a, idx a).

(** The page after a sequence of events, when every one of them was
    shown, returned and did not throw. *)
Definition after (fuel : nat) (es : list (Q * Event)) (p : Page) : option Page :=
  match run fuel es p with
  | Went p' => Some p'
  | _ => None
  end.

(** What the statements observe of a page: mode, index, schedule, the
    flags, the seed, [remaining] and the handles of the requested frames. *)
Record Observed : Type := {
  o_mode : Mode;
  o_idx : nat;
  o_steps : nat;
  o_running : bool;
  o_timerDone : bool;
  o_seed : nat;
  o_remaining : option number;
  o_requested : list nat
}.

Definition observe (p : Page) : Observed :=
  {| o_mode := mode (app p);
     o_idx := idx (app p);
     o_steps := length (schedule (app p));
     o_running := running (app p);
     o_timerDone := timerDone (app p);
     o_seed := seed (app p);
     o_remaining := remainingOf p;
     o_requested := map fst (callbacks (raf p)) |}.

(** The page after a sequence of events, or [p] itself when one of them
    did not go through. *)
Definition pageAfter (fuel : nat) (es : list (Q * Event)) (p : Page) : Page :=
  match run fuel es p with
  | Went p' => p'
  | _ => p
  end.

Section Traces.
Local Open Scope Q_scope.

(** The scenario of the specification, started. *)
Definition scenarioStarted : Page :=
  pageAfter 3 [(0, Start)] (initialPage 0 scenarioLibrary 0 PLAN).

(** The scenario after four advances: at its last step. *)
Definition scenarioAtLast : Page :=
  pageAfter 3 [(1, Next); (2, Next); (3, Next); (4, Next)] scenarioStarted.

(** The plan of the routine without steps. *)
Definition noStepsPlan : Page := initialPage 0 noSteps 0 PLAN.

(** The plan of the routine without steps and with endless rounds. *)
Definition endlessRoundsPlan : Page := initialPage 0 endlessRounds 0 PLAN.

(** The five-second exercise, started at time 0 and its timer started
    at once. *)
Definition fiveSecondsRunning : Page :=
  pageAfter 2 [(0, Start); (0, Toggle)] (initialPage 0 fiveSeconds 0 PLAN).

End Traces.

(** The [BigTimer] instance is the one of the element of the last
    render, with its props. *)
Definition timerInSync (tm : option Timer) (el : option (nat * number * bool)) : Prop :=
  match tm, el with
  | None, None => True
  | Some tm, Some (key, ms, run) =>
      tkey tm = key /\ Num.same (tms tm) ms = true /\ trunning tm = run
  | _, _ => False
  end.

(** A page on which a further render changes nothing: the effect of
    line 163 has seen the current dependencies, the timer has the props
    of the current element, and a countdown at 0 has been signalled. *)
Definition settled (p : Page) : Prop :=
  effectDeps p = Some (depsOf (app p)) /\
  timerInSync (bigTimer p) (bigTimerElement (app p)) /\
  forall tm, bigTimer p = Some tm ->
             Num.eqb (remaining tm) (ofZ 0) = true -> timerDone (app p) = true.

(** Two pages with the same state of [App] and, in their timer, the
    same key and props: they differ in [remaining], in [rafRef] and in
    the requested frames at most. *)
Definition sameProps (p q : Page) : Prop :=
  app q = app p /\ effectDeps q = effectDeps p /\
  match bigTimer p, bigTimer q with
  | None, None => True
  | Some tm, Some tm' =>
      tkey tm' = tkey tm /\ tms tm' = tms tm /\ trunning tm' = trunning tm
  | _, _ => False
  end.

(** At most one frame is requested at a time: by the mounted timer,
    while it is running, for the closure [rafRef.current] names. *)
Definition pendingLoop (tm : Timer) (r : Raf) : Prop :=
  callbacks r = [] \/
  exists h cb,
    callbacks r = [(h, cb)] /\ rafRef tm = Some h /\ (0 < h)%nat /\
    owner cb = tid tm /\ loopMs cb = tms tm /\ trunning tm = true.

Definition oneLoop (p : Page) : Prop :=
  match bigTimer p with
  | None => callbacks (raf p) = []
  | Some tm => pendingLoop tm (raf p)
  end /\
  (0 < nextHandle (raf p))%nat.

(** The page is in step with its last render: the effect of line 163
    has seen the current dependencies and the timer has the props of
    the current element. *)
Definition inSync (p : Page) : Prop :=
  effectDeps p = Some (depsOf (app p)) /\
  timerInSync (bigTimer p) (bigTimerElement (app p)).

(* ================================================================== *)
(** * Notions used in the further properties *)
(* ================================================================== *)

(** A run on the schedule of the blocks the page shows, at one of its
    steps. *)
Definition onSchedule (a : AppState) : Prop :=
  mode a = RUN /\ schedule a = scheduleSpec (blocks a) /\
  (idx a < length (schedule a))%nat.

(** Pressing Next at the times [ts]. *)
Definition nexts (ts : list Q) : list (Q * Event) := map (fun t => (t, Next)) ts.

(** A step of a schedule built for blocks that come [k] places later. *)
Definition shiftBlock (k : nat) (s : Step) : Step :=
  {| bi := k + bi s; ri := ri s; ei := ei s |}.

(* ================================================================== *)
(** * [useLocalStorage]: the effect that saves the state *)
(* ================================================================== *)

(** [window.localStorage] as the effect of line 48 uses it: the items
    it holds, and the writes it refuses ([setItem] throws when the quota
    is exceeded or storage is disabled). *)
Record WebStorage : Type := {
  items : string -> option string;
  refuses : string -> string -> option exn
}.

(** [storage.setItem(key, value)]: the store afterwards. *)
Definition setItem (s : WebStorage) (key value : string) : result WebStorage :=
  match refuses s key value with
  | Some e => Throw e
  | None =>
      Ok {| items := fun k => if String.eqb k key then Some value else items s k;
            refuses := refuses s |}
  end.

(** The store as the initialiser reads it. *)
Definition readerOf (s : WebStorage) : Storage :=
  {| getItem := fun k => Ok (items s k) |}.

(** The global object of a browser whose [window.localStorage]
    evaluates to [ls]. *)
Definition windowOf (ls : result (option WebStorage)) : Global :=
  Window (match ls with
          | Ok (Some s) => Ok (Some (readerOf s))
          | Ok None => Ok None
          | Throw e => Throw e
          end).

Section UseLocalStorageSave.

Variable T : Type.
(** [JSON.stringify] at the type of the state: it throws a [TypeError]
    on a cyclic value. *)
Variable JSON_stringify : T -> result string.

(** The effect of [[key, state]] (line 48), in a browser (effects do not
    run elsewhere) whose [window.localStorage] evaluates to [ls]: what
    [window.localStorage] evaluates to afterwards. *)
Definition useLocalStorage_save (ls : result (option WebStorage)) (key : string) (state : T)
  : result (result (option WebStorage)) :=
  tryCatch
    (andThen ls (fun storage =>
     match storage with
     | None => Throw TypeError
     | Some s =>
         andThen (JSON_stringify state) (fun text =>
         andThen (setItem s key text) (fun s' => Ok (Ok (Some s'))))
     end))
    (Ok ls).

End UseLocalStorageSave.

(** [JSON.stringify] at the type of [currentIndex], on whole numbers
    from 0 on; [NaN] and the infinities give [null]. *)
Definition stringifyIndex (x : number) : result string :=
  match x with
  | Fin q => Ok (NilZero.string_of_uint (N.to_uint (Z.to_N (Qfloor q))))
  | _ => Ok "null"%string
  end.

(* ================================================================== *)
(** * The test panel: the check of the schedule length *)
(* ================================================================== *)

(** [x + y] on numbers. *)
Definition add (x y : number) : number :=
  match x, y with
  | NaN, _ | _, NaN => NaN
  | PInf, NInf | NInf, PInf => NaN
  | PInf, _ | _, PInf => PInf
  | NInf, _ | _, NInf => NInf
  | Fin a, Fin b => Fin (Qred (a + b))
  end.

(** [total] of the third test (line 183): the sum over the blocks of
    [Math.max(1, Number(b.rounds||1)) * (b.exercises?.length||0)]. *)
Definition total (blocks : list Block) : number :=
  fold_left
    (fun sum b =>
       add sum (Num.mul (roundsOf b) (ofZ (Z.of_nat (length (exercises b))))))
    blocks (ofZ 0).

(** [pass] of the third test (line 184):
    [mode==='RUN' ? schedule.length === total : true]. *)
Definition scheduleLengthTest (a : AppState) : bool :=
  match mode a with
  | RUN => Num.eqb (ofZ (Z.of_nat (length (schedule a)))) (total (blocks a))
  | PLAN => true
  end.

(* ================================================================== *)
(** * Properties *)
(* ================================================================== *)

(** ** [Number] on strings, by example *)

Section NumberExamples.
Local Open Scope string_scope.
Example Number_ex1 : Number (VStr "12") = ofZ 12. Proof. reflexivity. Qed.
Example Number_ex2 : Number (VStr " 2.5 ") = Fin (5 # 2). Proof. reflexivity. Qed.
Example Number_ex3 : Number (VStr "abc") = NaN. Proof. reflexivity. Qed.
Example Number_ex4 : Number (VStr "") = ofZ 0. Proof. reflexivity. Qed.
Example Number_ex5 : Number (VStr "-5") = ofZ (-5). Proof. reflexivity. Qed.
Example Number_ex6 : Number (VStr "1e3") = ofZ 1000. Proof. reflexivity. Qed.
Example Number_ex7 : Number (VStr "0x1F") = ofZ 31. Proof. reflexivity. Qed.
Example Number_ex8 : Number (VStr "-Infinity") = NInf. Proof. reflexivity. Qed.
Example Number_ex9 : Number (VStr ".5e1") = ofZ 5. Proof. reflexivity. Qed.
Example Number_ex10 : Number (VStr "1.") = ofZ 1. Proof. reflexivity. Qed.
Example Number_ex11 : Number (VStr ".") = NaN. Proof. reflexivity. Qed.
Example Number_ex12 : Number (VStr "-0x10") = NaN. Proof. reflexivity. Qed.
Example Number_ex13 : Number (VStr "12px") = NaN. Proof. reflexivity. Qed.
Example Number_ex14 : Number (VStr "1e") = NaN. Proof. reflexivity. Qed.
Example Number_ex15 : Number (VStr "0") = ofZ 0. Proof. reflexivity. Qed.
Example Number_ex16 : Number (VStr "25e-1") = Fin (5 # 2). Proof. reflexivity. Qed.
End NumberExamples.

(** ** Numbers *)

Lemma leb_ofZ_Fin (r : Z) (q : Q) :
  Num.leb (ofZ r) (Fin q) = true <-> r <= Qfloor q.
Proof.
  unfold ofZ; cbn [Num.leb]. rewrite Qle_bool_iff. split; intros H.
  - rewrite <- (Qfloor_Z r). now apply Qfloor_resp_le.
  - apply Qle_trans with (inject_Z (Qfloor q)).
    + now rewrite <- Zle_Qle.
    + apply Qfloor_le.
Qed.

Lemma leb_ofZ_Fin_false (r : Z) (q : Q) :
  Num.leb (ofZ r) (Fin q) = false <-> Qfloor q < r.
Proof.
  destruct (Num.leb (ofZ r) (Fin q)) eqn:E.
  - apply leb_ofZ_Fin in E. split; [discriminate | lia].
  - split; [intros _ | reflexivity].
    destruct (Z_lt_le_dec (Qfloor q) r) as [|Hle]; [assumption|].
    apply leb_ofZ_Fin in Hle. congruence.
Qed.

(** The coerced round count is [Infinity] or a finite number from 1 on,
    whose integer part is the round count of the specification. *)
Lemma roundsOf_cases (blk : Block) :
  (rounds blk = PInf /\ roundsOf blk = PInf) \/
  (rounds blk <> PInf /\
   exists q, roundsOf blk = Fin q /\ (1 <= q)%Q /\ Qfloor q = roundCount blk).
Proof.
  unfold roundsOf, roundCount, Num.or, Number.
  destruct (rounds blk) as [| | |q] eqn:E; cbn.
  - right. split; [discriminate|]. exists (inject_Z 1). repeat split; try reflexivity.
    discriminate.
  - now left.
  - right. split; [discriminate|]. exists (inject_Z 1). repeat split; try reflexivity.
    discriminate.
  - right. split; [discriminate|].
    destruct (Qeq_bool q 0) eqn:E0; cbn.
    + apply Qeq_bool_iff in E0. exists (inject_Z 1).
      split; [reflexivity|]. split; [discriminate|].
      assert (Hq : Qle_bool 0 q = true) by (apply Qle_bool_iff; rewrite E0; apply Qle_refl).
      rewrite Hq.
      assert (Qfloor q = 0) as -> by (rewrite E0; reflexivity).
      reflexivity.
    + destruct (Qle_bool (inject_Z 1) q) eqn:E1.
      * apply Qle_bool_iff in E1. change (inject_Z 1) with 1%Q in E1. exists q. split; [reflexivity|]. split; [assumption|].
        assert (Hq : Qle_bool 0 q = true) by (apply Qle_bool_iff; lra).
        rewrite Hq.
        assert (1 <= Qfloor q).
        { change 1 with (Qfloor (inject_Z 1)). now apply Qfloor_resp_le. }
        lia.
      * exists (inject_Z 1). split; [reflexivity|]. split; [discriminate|].
        assert (Hlt : (q < 1)%Q).
        { destruct (Qlt_le_dec q 1) as [|Hle]; [assumption|].
          apply Qle_bool_iff in Hle. change 1%Q with (inject_Z 1) in Hle. congruence. }
        change (Qfloor (inject_Z 1)) with 1.
        destruct (Qle_bool 0 q) eqn:Hq.
        -- assert (Qfloor q < 1).
           { rewrite Zlt_Qlt. apply Qle_lt_trans with q; [apply Qfloor_le | assumption]. }
           lia.
        -- assert (Qceiling q <= 1).
           { rewrite <- (Qceiling_Z 1).
             apply Qceiling_resp_le. now apply Qlt_le_weak. }
           lia.
Qed.

(** ** The loops of the scheduler *)

Section Loops.
Import Sched.

Lemma forEachFrom_push (b : nat) (r : Z) (xs : list Exercise) :
  forall (i : nat) (steps : list Step),
    forEachFrom i (fun _ ei => push {| bi := b; ri := r; ei := ei |}) xs steps =
    Some (tt, steps ++ imap (fun k _ => {| bi := b; ri := r; ei := i + k |}) xs).
Proof.
  induction xs as [|x xs IH]; intros i steps; cbn.
  - unfold ret. now rewrite app_nil_r.
  - unfold bind, push at 1. rewrite IH. rewrite <- app_assoc. cbn.
    do 3 f_equal.
    f_equal.
    + f_equal. lia.
    + apply imap_ext. intros k ? _. cbn. f_equal. lia.
Qed.

Lemma forEach_push (b : nat) (blk : Block) (r : Z) (steps : list Step) :
  forEach (fun _ ei => push {| bi := b; ri := r; ei := ei |}) (exercises blk) steps =
  Some (tt, steps ++ roundSteps b blk r).
Proof. unfold forEach. now rewrite forEachFrom_push. Qed.

Variable steps_of : Z -> list Step.
Variable body : Z -> M void.
Hypothesis body_pushes : forall r steps, body r steps = Some (tt, steps ++ steps_of r).

Lemma roundsFrom_S (r : Z) (n : nat) :
  roundsFrom r (S n) = r :: roundsFrom (r + 1) n.
Proof.
  unfold roundsFrom. cbn [seq map]. f_equal; [lia|].
  rewrite <- seq_shift, map_map. apply map_ext. intros; lia.
Qed.

Lemma forUpTo_Fin (q : Q) :
  forall (fuel : nat) (r : Z) (steps : list Step),
    forUpTo fuel r (Fin q) body steps =
    if (Z.to_nat (Qfloor q - r + 1) <? fuel)%nat
    then Some (tt, steps ++ flat_map steps_of (roundsFrom r (Z.to_nat (Qfloor q - r + 1))))
    else None.
Proof.
  induction fuel as [|fuel IH]; intros r steps; cbn [forUpTo].
  - reflexivity.
  - destruct (Num.leb (ofZ r) (Fin q)) eqn:E.
    + apply leb_ofZ_Fin in E. unfold bind. rewrite body_pushes, IH.
      replace (Z.to_nat (Qfloor q - r + 1)) with (S (Z.to_nat (Qfloor q - (r + 1) + 1))) by lia.
      rewrite roundsFrom_S. cbn [flat_map]. rewrite app_assoc.
      destruct (Nat.ltb_spec (Z.to_nat (Qfloor q - (r + 1) + 1)) fuel) as [H|H];
      destruct (Nat.ltb_spec (S (Z.to_nat (Qfloor q - (r + 1) + 1))) (S fuel)) as [H'|H'];
        try lia; reflexivity.
    + apply leb_ofZ_Fin_false in E.
      replace (Z.to_nat (Qfloor q - r + 1)) with 0%nat by lia.
      cbn. unfold ret. now rewrite app_nil_r.
Qed.

Lemma forUpTo_PInf :
  forall (fuel : nat) (r : Z) (steps : list Step),
    forUpTo fuel r PInf body steps = None.
Proof.
  induction fuel as [|fuel IH]; intros r steps; cbn [forUpTo]; [reflexivity|].
  cbn. unfold bind. now rewrite body_pushes, IH.
Qed.

Lemma roundsFrom_1 (n : Z) : roundsFrom 1 (Z.to_nat n) = roundsUpTo n.
Proof.
  unfold roundsFrom, roundsUpTo. rewrite <- seq_shift, map_map.
  apply map_ext. intros; lia.
Qed.

End Loops.

(** ** [buildSchedule] computes the schedule of the specification *)

Lemma blockLoop_spec (fuel : nat) (b : nat) (blk : Block) (steps : list Step) :
  Sched.forUpTo fuel 1 (roundsOf blk)
    (fun r => Sched.forEach
                (fun _ ei => Sched.push {| bi := b; ri := r; ei := ei |})
                (exercises blk)) steps =
  if returnsWithin fuel blk then Some (tt, steps ++ blockSteps b blk) else None.
Proof.
  unfold returnsWithin.
  destruct (roundsOf_cases blk) as [[E ->] | [E (q & -> & Hq & Hfl)]].
  - rewrite E. apply forUpTo_PInf with (steps_of := roundSteps b blk).
    intros; apply forEach_push.
  - rewrite (forUpTo_Fin (roundSteps b blk)) by (intros; apply forEach_push).
    rewrite Hfl. replace (roundCount blk - 1 + 1) with (roundCount blk) by lia.
    rewrite roundsFrom_1. unfold blockSteps.
    destruct (rounds blk); try reflexivity. congruence.
Qed.

Lemma forEachFrom_blocks (fuel : nat) (blocks : list Block) :
  forall (i : nat) (steps : list Step),
    Sched.forEachFrom i
      (fun blk b =>
         Sched.forUpTo fuel 1 (roundsOf blk)
           (fun r => Sched.forEach
                       (fun _ ei => Sched.push {| bi := b; ri := r; ei := ei |})
                       (exercises blk)))
      blocks steps =
    if forallb (returnsWithin fuel) blocks
    then Some (tt, steps ++ concat (imap (fun k => blockSteps (i + k)) blocks))
    else None.
Proof.
  induction blocks as [|blk blocks IH]; intros i steps;
    cbn [Sched.forEachFrom forallb imap concat].
  - unfold Sched.ret. now rewrite app_nil_r.
  - unfold Sched.bind. rewrite blockLoop_spec.
    destruct (returnsWithin fuel blk); cbn [andb]; [|reflexivity].
    rewrite IH. destruct (forallb (returnsWithin fuel) blocks); [|reflexivity].
    rewrite <- app_assoc. do 4 f_equal.
    + f_equal. lia.
    + f_equal. apply imap_ext. intros k ? _. cbn. f_equal. lia.
Qed.

(** What [buildSchedule] returns, and when. *)
Lemma buildSchedule_spec (fuel : nat) (blocks : list Block) :
  buildSchedule fuel blocks =
  if forallb (returnsWithin fuel) blocks then Some (scheduleSpec blocks) else None.
Proof.
  unfold buildSchedule, buildScheduleM, Sched.forEach.
  rewrite forEachFrom_blocks.
  destruct (forallb (returnsWithin fuel) blocks); reflexivity.
Qed.

Lemma returnsWithin_enoughFuel (blocks : list Block) :
  Forall finiteRounds blocks ->
  forallb (returnsWithin (enoughFuel blocks)) blocks = true.
Proof.
  intros Hfin. apply forallb_forall. intros blk Hin.
  rewrite List.Forall_forall in Hfin.
  assert (Hf : finiteRounds blk) by (apply Hfin; exact Hin).
  unfold returnsWithin, finiteRounds in *.
  assert (Z.to_nat (roundCount blk) < enoughFuel blocks)%nat.
  { unfold enoughFuel. clear Hfin Hf.
    induction blocks as [|b bs IH]; [destruct Hin|].
    cbn [fold_right]. destruct Hin as [->|Hin]; [lia|].
    specialize (IH Hin). lia. }
  destruct (rounds blk); try congruence; now apply Nat.ltb_lt.
Qed.

(** Enough fuel gives the schedule of the specification; only blocks
    with finite round counts let the call return at all. *)
Lemma buildSchedule_returns (blocks : list Block) :
  Forall finiteRounds blocks ->
  buildSchedule (enoughFuel blocks) blocks = Some (scheduleSpec blocks).
Proof.
  intros H. rewrite buildSchedule_spec. now rewrite returnsWithin_enoughFuel.
Qed.

Lemma buildSchedule_Some (fuel : nat) (blocks : list Block) (steps : list Step) :
  buildSchedule fuel blocks = Some steps ->
  steps = scheduleSpec blocks /\ Forall finiteRounds blocks.
Proof.
  rewrite buildSchedule_spec.
  destruct (forallb (returnsWithin fuel) blocks) eqn:E; [|discriminate].
  intros [= <-]. split; [reflexivity|].
  apply List.Forall_forall. intros blk Hin.
  rewrite forallb_forall in E. specialize (E blk).
  unfold returnsWithin, finiteRounds in *.
  destruct (rounds blk); try discriminate.
  specialize (E Hin). discriminate.
Qed.

(** ** The shape of the schedule *)

Lemma roundSteps_elem (b : nat) (blk : Block) (r : Z) (s : Step) :
  s ∈ roundSteps b blk r <->
  bi s = b /\ ri s = r /\ exists ex, exercises blk !! ei s = Some ex.
Proof.
  unfold roundSteps. rewrite elem_of_lookup_imap. split.
  - intros (i & ex & -> & Hex). cbn. eauto.
  - intros (Hb & Hr & ex & Hex). exists (ei s), ex. split; [|assumption].
    destruct s; cbn in *; congruence.
Qed.

Lemma roundsUpTo_elem (n r : Z) : r ∈ roundsUpTo n <-> 1 <= r <= n.
Proof.
  unfold roundsUpTo. rewrite list_elem_of_In, in_map_iff. split.
  - intros (k & <- & Hk). apply in_seq in Hk. lia.
  - intros H. exists (Z.to_nat r). split; [lia|]. apply in_seq. lia.
Qed.

Lemma blockSteps_elem (b : nat) (blk : Block) (s : Step) :
  s ∈ blockSteps b blk <->
  bi s = b /\ 1 <= ri s <= roundCount blk /\
  exists ex, exercises blk !! ei s = Some ex.
Proof.
  unfold blockSteps. rewrite list_elem_of_In, in_flat_map. split.
  - intros (r & Hr & Hs). apply list_elem_of_In, roundsUpTo_elem in Hr.
    apply list_elem_of_In, roundSteps_elem in Hs as (? & ? & ?).
    repeat split; try assumption; lia.
  - intros (Hb & Hr & Hex). exists (ri s). split.
    + apply list_elem_of_In, roundsUpTo_elem. lia.
    + apply list_elem_of_In, roundSteps_elem. auto.
Qed.

Lemma scheduleFrom_elem (blocks : list Block) (s : Step) :
  forall i : nat,
    s ∈ concat (imap (fun k => blockSteps (i + k)) blocks) <->
    exists blk, blocks !! (bi s - i)%nat = Some blk /\ (i <= bi s)%nat /\
                s ∈ blockSteps (bi s) blk.
Proof.
  induction blocks as [|blk blocks IH]; intros i; cbn [imap concat].
  - split; [intros H; inversion H | intros (? & H & _); discriminate].
  - rewrite elem_of_app. split.
    + intros [H | H].
      * pose proof H as H'. apply blockSteps_elem in H' as (Hb & _).
        exists blk. rewrite Hb. replace (i + 0 - i)%nat with 0%nat by lia.
        repeat split; [lia | now rewrite Nat.add_0_r in *].
      * rewrite (imap_ext _ (fun k => blockSteps (S i + k))) in H
          by (intros; cbn; f_equal; lia).
        apply IH in H as (blk' & Hl & Hi & Hs). exists blk'.
        replace (bi s - i)%nat with (S (bi s - S i)) by lia.
        repeat split; [assumption | lia | assumption].
    + intros (blk' & Hl & Hi & Hs).
      destruct (bi s - i)%nat as [|k] eqn:Ek.
      * left. cbn in Hl. injection Hl as ->.
        replace (i + 0)%nat with (bi s) by lia. assumption.
      * right. rewrite (imap_ext _ (fun k => blockSteps (S i + k)))
          by (intros; cbn; f_equal; lia).
        apply IH. exists blk'. cbn in Hl.
        replace (bi s - S i)%nat with k by lia.
        repeat split; [assumption | lia | assumption].
Qed.

(** Membership in the schedule of the specification. *)
Lemma scheduleSpec_elem (blocks : list Block) (s : Step) :
  s ∈ scheduleSpec blocks <->
  exists blk ex, blocks !! bi s = Some blk /\
                 exercises blk !! ei s = Some ex /\
                 1 <= ri s <= roundCount blk.
Proof.
  unfold scheduleSpec.
  rewrite (scheduleFrom_elem blocks s 0). rewrite Nat.sub_0_r. split.
  - intros (blk & Hl & _ & Hs). apply blockSteps_elem in Hs as (_ & Hr & ex & Hex).
    eauto.
  - intros (blk & ex & Hl & Hex & Hr). exists blk. repeat split; [assumption | lia |].
    apply blockSteps_elem. eauto.
Qed.

Lemma roundStepsFrom_sorted (b : nat) (r : Z) (xs : list Exercise) :
  forall i : nat,
    StronglySorted stepBefore
      (imap (fun k _ => {| bi := b; ri := r; ei := i + k |}) xs).
Proof.
  induction xs as [|x xs IH]; intros i; cbn [imap]; constructor.
  - rewrite (imap_ext _ (fun k _ => {| bi := b; ri := r; ei := S i + k |}))
      by (intros; cbn; f_equal; lia).
    apply IH.
  - apply Forall_forall. intros s Hs.
    apply elem_of_lookup_imap in Hs as (k & ? & -> & _).
    right. cbn. split; [reflexivity|]. right. split; [reflexivity | lia].
Qed.

Lemma roundSteps_sorted (b : nat) (blk : Block) (r : Z) :
  StronglySorted stepBefore (roundSteps b blk r).
Proof. apply (roundStepsFrom_sorted b r (exercises blk) 0). Qed.

Lemma blockSteps_sorted (b : nat) (blk : Block) :
  StronglySorted stepBefore (blockSteps b blk).
Proof.
  unfold blockSteps, roundsUpTo.
  generalize (Z.to_nat (roundCount blk)) as n. generalize 1%nat as k.
  intros k n; revert k.
  induction n as [|n IH]; intros k; cbn [seq map flat_map]; [constructor|].
  apply StronglySorted_app. repeat split.
  - intros s t Hs Ht. apply roundSteps_elem in Hs as (Hb & Hr & _).
    apply list_elem_of_In, in_flat_map in Ht as (r' & Hr' & Ht).
    apply in_map_iff in Hr' as (k' & <- & Hk'). apply in_seq in Hk'.
    apply list_elem_of_In, roundSteps_elem in Ht as (Hb' & Hrt & _).
    right. split; [congruence|]. left. lia.
  - apply roundSteps_sorted.
  - apply IH.
Qed.

Lemma scheduleFrom_sorted (blocks : list Block) :
  forall i : nat,
    StronglySorted stepBefore (concat (imap (fun k => blockSteps (i + k)) blocks)).
Proof.
  induction blocks as [|blk blocks IH]; intros i; cbn [imap concat]; [constructor|].
  rewrite (imap_ext _ (fun k => blockSteps (S i + k))) by (intros; cbn; f_equal; lia).
  apply StronglySorted_app. repeat split.
  - intros s t Hs Ht. apply blockSteps_elem in Hs as (Hb & _).
    apply scheduleFrom_elem in Ht as (_ & _ & Hi & _). left. lia.
  - apply blockSteps_sorted.
  - apply IH.
Qed.

Lemma scheduleSpec_sorted (blocks : list Block) :
  StronglySorted stepBefore (scheduleSpec blocks).
Proof. apply (scheduleFrom_sorted blocks 0). Qed.

Lemma blockSteps_length (b : nat) (blk : Block) :
  Z.of_nat (length (blockSteps b blk)) =
  roundCount blk * Z.of_nat (length (exercises blk)).
Proof.
  unfold blockSteps, roundsUpTo.
  assert (H : 0 <= roundCount blk) by (unfold roundCount; lia).
  rewrite <- (Z2Nat.id (roundCount blk)) at 2 by assumption.
  generalize (Z.to_nat (roundCount blk)) as n. generalize 1%nat as k.
  intros k n; revert k.
  induction n as [|n IH]; intros k; cbn [seq map flat_map]; [reflexivity|].
  rewrite length_app, Nat2Z.inj_add, IH.
  unfold roundSteps. rewrite length_imap. lia.
Qed.

Lemma scheduleFrom_length (blocks : list Block) :
  forall i : nat,
    Z.of_nat (length (concat (imap (fun k => blockSteps (i + k)) blocks))) =
    scheduleLength blocks.
Proof.
  induction blocks as [|blk blocks IH]; intros i; cbn [imap concat]; [reflexivity|].
  rewrite (imap_ext _ (fun k => blockSteps (S i + k))) by (intros; cbn; f_equal; lia).
  rewrite length_app, Nat2Z.inj_add, IH, blockSteps_length. reflexivity.
Qed.

Lemma scheduleSpec_length (blocks : list Block) :
  Z.of_nat (length (scheduleSpec blocks)) = scheduleLength blocks.
Proof. apply (scheduleFrom_length blocks 0). Qed.

Lemma stepBefore_irrefl (s : Step) : ~ stepBefore s s.
Proof. unfold stepBefore. lia. Qed.

Lemma stepBefore_asym (s t : Step) : stepBefore s t -> ~ stepBefore t s.
Proof. unfold stepBefore. lia. Qed.

Lemma StronglySorted_lookup {A} (R : A -> A -> Prop) (l : list A) :
  StronglySorted R l ->
  forall (p q : nat) (x y : A),
    (p < q)%nat -> l !! p = Some x -> l !! q = Some y -> R x y.
Proof.
  induction 1 as [|a l Hs IH Hall]; intros p q x y Hpq Hp Hq; [discriminate|].
  destruct q as [|q]; [lia|]. cbn in Hq.
  destruct p as [|p]; cbn in Hp.
  - injection Hp as ->. rewrite List.Forall_forall in Hall. apply Hall.
    apply list_elem_of_In, list_elem_of_lookup. eauto.
  - apply (IH p q); [lia | assumption | assumption].
Qed.

(** In a schedule, the order of positions is the order block, round,
    exercise. *)
Lemma scheduleSpec_positions (blocks : list Block) (p q : nat) (s t : Step) :
  scheduleSpec blocks !! p = Some s ->
  scheduleSpec blocks !! q = Some t ->
  (stepBefore s t <-> (p < q)%nat).
Proof.
  intros Hp Hq. pose proof (scheduleSpec_sorted blocks) as Hs. split.
  - intros Hst. destruct (lt_eq_lt_dec p q) as [[Hlt | ->] | Hgt]; [assumption | |].
    + rewrite Hp in Hq. injection Hq as ->. now apply stepBefore_irrefl in Hst.
    + pose proof (StronglySorted_lookup _ _ Hs q p t s Hgt Hq Hp) as Hts.
      now apply stepBefore_asym in Hts.
  - intros Hlt. exact (StronglySorted_lookup _ _ Hs p q s t Hlt Hp Hq).
Qed.

Lemma leb_roundsOf (blk : Block) (r : Z) :
  r <= roundCount blk -> Num.leb (ofZ r) (roundsOf blk) = true.
Proof.
  intros Hr. destruct (roundsOf_cases blk) as [[_ ->] | [_ (q & -> & _ & Hfl)]].
  - reflexivity.
  - apply leb_ofZ_Fin. lia.
Qed.

(** A block with the round count [Infinity] keeps the [for] loop
    running: no fuel is enough. *)
Lemma buildSchedule_Infinity (fuel : nat) (blocks : list Block) (blk : Block) :
  In blk blocks -> rounds blk = PInf -> buildSchedule fuel blocks = None.
Proof.
  intros Hin Hr. rewrite buildSchedule_spec.
  destruct (forallb (returnsWithin fuel) blocks) eqn:E; [|reflexivity].
  rewrite forallb_forall in E. specialize (E blk Hin).
  unfold returnsWithin in E. rewrite Hr in E. discriminate.
Qed.

(** More fuel does not change the result. *)
Lemma buildSchedule_fuel (fuel fuel' : nat) (blocks : list Block) (steps : list Step) :
  (fuel <= fuel')%nat ->
  buildSchedule fuel blocks = Some steps -> buildSchedule fuel' blocks = Some steps.
Proof.
  intros Hle. rewrite !buildSchedule_spec.
  destruct (forallb (returnsWithin fuel) blocks) eqn:E; [|discriminate].
  intros H. assert (E' : forallb (returnsWithin fuel') blocks = true); [|now rewrite E'].
  rewrite forallb_forall in *. intros blk Hin. specialize (E blk Hin).
  unfold returnsWithin in *. destruct (rounds blk); try discriminate;
    apply Nat.ltb_lt in E; apply Nat.ltb_lt; lia.
Qed.

(** The checks of the test panel of the source (lines 176-181): the
    library has at least two routines, and Core (Mat) gives 3 rounds of
    3 exercises, 9 steps. *)
Lemma test_library_has_two_routines : (2 <= length INITIAL_LIBRARY)%nat.
Proof. cbn. lia. Qed.

Lemma test_core_mat_nine_steps : buildSchedule 4 coreMat = Some coreMatSteps.
Proof. reflexivity. Qed.

(** ** The scheduler: the claims *)

(** C1.  For every list of blocks, the length of what [buildSchedule]
    returns is the sum over the blocks of [max(1, integer round count
    defaulting to 1)] times the number of exercises of the block, and it
    does return when no block has the round count [Infinity] (on which
    the [for] loop would not end); [buildSchedule([])] is [[]]. *)
Theorem C1_buildSchedule_length (blocks : list Block) :
  (Forall finiteRounds blocks ->
   exists steps,
     buildSchedule (enoughFuel blocks) blocks = Some steps /\
     Z.of_nat (length steps) = scheduleLength blocks) /\
  (forall fuel steps,
      buildSchedule fuel blocks = Some steps ->
      Z.of_nat (length steps) = scheduleLength blocks) /\
  (forall fuel, buildSchedule fuel [] = Some []).
Proof.
  split; [|split].
  - intros Hfin. exists (scheduleSpec blocks).
    split; [now apply buildSchedule_returns | apply scheduleSpec_length].
  - intros fuel steps H. apply buildSchedule_Some in H as [-> _].
    apply scheduleSpec_length.
  - intros fuel. now rewrite buildSchedule_spec.
Qed.

Lemma C1_buildSchedule_length_witness :
  Forall finiteRounds coreMat /\
  buildSchedule 4 coreMat = Some coreMatSteps /\
  (exists steps,
      buildSchedule (enoughFuel coreMat) coreMat = Some steps /\
      Z.of_nat (length steps) = 9) /\
  Z.of_nat (length coreMatSteps) = 9.
Proof.
  split; [repeat constructor; discriminate|].
  split; [reflexivity|].
  split.
  - apply (proj1 (C1_buildSchedule_length coreMat)).
    repeat constructor; discriminate.
  - apply (proj1 (proj2 (C1_buildSchedule_length coreMat)) 4%nat coreMatSteps).
    reflexivity.
Defined.

(** C2.  [buildSchedule] returns when no round count is [Infinity],
    and whenever it returns its steps are exactly the
    (block, round, exercise) triples of the blocks, and they come in the
    order block, round, exercise: a step stands before another one exactly
    when its block comes first, or the block is the same and its round
    comes first, or block and round are the same and its exercise comes
    first.  A single block with three rounds of [X, Y, Z] gives the nine
    steps round 1: X Y Z, round 2: X Y Z, round 3: X Y Z. *)
Theorem C2_buildSchedule_order :
  (forall blocks : list Block,
      Forall finiteRounds blocks ->
      buildSchedule (enoughFuel blocks) blocks = Some (scheduleSpec blocks)) /\
  (forall (fuel : nat) (blocks : list Block) (steps : list Step),
      buildSchedule fuel blocks = Some steps ->
      steps = scheduleSpec blocks /\
      (forall s, s ∈ steps <->
                 exists blk ex, blocks !! bi s = Some blk /\
                                exercises blk !! ei s = Some ex /\
                                1 <= ri s <= roundCount blk) /\
      (forall (p q : nat) (s t : Step),
          steps !! p = Some s -> steps !! q = Some t ->
          (stepBefore s t <-> (p < q)%nat))) /\
  (forall (nm : string) (X Y Z : Exercise),
      buildSchedule 4 [ {| name := nm; rounds := ofZ 3; exercises := [X; Y; Z] |} ] =
      Some [ {| bi := 0; ri := 1; ei := 0 |}; {| bi := 0; ri := 1; ei := 1 |};
             {| bi := 0; ri := 1; ei := 2 |};
             {| bi := 0; ri := 2; ei := 0 |}; {| bi := 0; ri := 2; ei := 1 |};
             {| bi := 0; ri := 2; ei := 2 |};
             {| bi := 0; ri := 3; ei := 0 |}; {| bi := 0; ri := 3; ei := 1 |};
             {| bi := 0; ri := 3; ei := 2 |} ]).
Proof.
  split; [|split].
  - apply buildSchedule_returns.
  - intros fuel blocks steps H. apply buildSchedule_Some in H as [-> _].
    split; [reflexivity|]. split.
    + apply scheduleSpec_elem.
    + apply scheduleSpec_positions.
  - intros nm X Y Z. reflexivity.
Qed.

Lemma scenario_schedule (e1 e2 e3 : Exercise) :
  buildSchedule 3 (scenarioBlocks e1 e2 e3) = Some scenarioSteps.
Proof. reflexivity. Qed.

Lemma C2_buildSchedule_order_witness :
  Forall finiteRounds coreMat /\
  buildSchedule (enoughFuel coreMat) coreMat = Some (scheduleSpec coreMat) /\
  buildSchedule 4 coreMat = Some coreMatSteps /\
  (stepBefore {| bi := 0; ri := 1; ei := 2 |} {| bi := 0; ri := 2; ei := 0 |} <->
   (2 < 3)%nat).
Proof.
  split; [repeat constructor; discriminate|].
  split.
  - apply (proj1 C2_buildSchedule_order coreMat). repeat constructor; discriminate.
  - split; [reflexivity|].
    exact (proj2 (proj2 (proj1 (proj2 C2_buildSchedule_order)
                           4%nat coreMat coreMatSteps eq_refl))
             2%nat 3%nat _ _ eq_refl eq_refl).
Defined.

(** C10.  [buildSchedule] returns when no round count is [Infinity],
    and every step of a schedule that it returns has
    indices in range: [bi] is the index of a block, [ei] the index of one
    of its exercises, and [ri] lies between 1 and the coerced round count
    of the block, so the step dereferences to a block and an exercise. *)
Theorem C10_buildSchedule_in_range (blocks : list Block) :
  (Forall finiteRounds blocks ->
   exists steps,
     buildSchedule (enoughFuel blocks) blocks = Some steps /\
     Forall (stepInRange blocks) steps) /\
  (forall (fuel : nat) (steps : list Step),
      buildSchedule fuel blocks = Some steps ->
      Forall (stepInRange blocks) steps).
Proof.
  assert (H : Forall (stepInRange blocks) (scheduleSpec blocks)).
  { apply List.Forall_forall. intros s Hs.
    apply list_elem_of_In, scheduleSpec_elem in Hs as (blk & ex & Hb & He & Hr).
    exists blk, ex. repeat split; try assumption; try lia.
    apply leb_roundsOf. lia. }
  split.
  - intros Hfin. exists (scheduleSpec blocks).
    split; [now apply buildSchedule_returns | exact H].
  - intros fuel steps Hb. now apply buildSchedule_Some in Hb as [-> _].
Qed.

Lemma C10_buildSchedule_in_range_witness :
  Forall finiteRounds coreMat /\
  buildSchedule 4 coreMat = Some coreMatSteps /\
  (exists steps,
      buildSchedule (enoughFuel coreMat) coreMat = Some steps /\
      Forall (stepInRange coreMat) steps) /\
  Forall (stepInRange coreMat) coreMatSteps.
Proof.
  split; [repeat constructor; discriminate|].
  split; [reflexivity|].
  split.
  - apply (proj1 (C10_buildSchedule_in_range coreMat)).
    repeat constructor; discriminate.
  - apply (proj2 (C10_buildSchedule_in_range coreMat) 4%nat coreMatSteps).
    reflexivity.
Defined.

(** ** The persistent store adapter *)

(** C9.  For every key and default value, the initialiser of
    [useLocalStorage] never throws: it returns the default when there is
    no [window], when [window.localStorage] cannot be read or is [null],
    when [getItem] throws, when nothing is stored under the key and when
    the stored text does not parse; otherwise it returns the parsed
    value. *)
Theorem C9_load_default (T : Type) (JSON_parse : string -> result T)
    (g : Global) (key : string) (initialValue : T) :
  (exists v, useLocalStorage_initial T JSON_parse g key initialValue = Ok v) /\
  (g = NoWindow -> useLocalStorage_initial T JSON_parse g key initialValue = Ok initialValue) /\
  (forall e, g = Window (Throw e) ->
             useLocalStorage_initial T JSON_parse g key initialValue = Ok initialValue) /\
  (g = Window (Ok None) -> useLocalStorage_initial T JSON_parse g key initialValue = Ok initialValue) /\
  (forall s,
      g = Window (Ok (Some s)) ->
      match getItem s key with
      | Throw _ => useLocalStorage_initial T JSON_parse g key initialValue = Ok initialValue
      | Ok None => useLocalStorage_initial T JSON_parse g key initialValue = Ok initialValue
      | Ok (Some text) =>
          match JSON_parse text with
          | Throw _ => useLocalStorage_initial T JSON_parse g key initialValue = Ok initialValue
          | Ok v => useLocalStorage_initial T JSON_parse g key initialValue = Ok v
          end
      end).
Proof.
  split; [|split; [|split; [|split]]].
  - unfold useLocalStorage_initial. destruct g as [|[[s|]|e]]; cbn; eauto.
    destruct (getItem s key) as [[text|]|e]; cbn; eauto.
    destruct (JSON_parse text); cbn; eauto.
  - intros ->. reflexivity.
  - intros e ->. reflexivity.
  - intros ->. reflexivity.
  - intros s ->. unfold useLocalStorage_initial. cbn.
    destruct (getItem s key) as [[text|]|e]; cbn; try reflexivity.
    destruct (JSON_parse text); reflexivity.
Qed.

Section StoreExamples.
Local Open Scope string_scope.

Lemma C9_load_default_witness :
  useLocalStorage_initial number parseIndex NoWindow "workout_current_index" (ofZ 0) = Ok (ofZ 0) /\
  useLocalStorage_initial number parseIndex (Window (Throw SecurityError)) "workout_current_index" (ofZ 0)
    = Ok (ofZ 0) /\
  useLocalStorage_initial number parseIndex (Window (Ok None)) "workout_current_index" (ofZ 0) = Ok (ofZ 0) /\
  useLocalStorage_initial number parseIndex (Window (Ok (Some brokenStore))) "workout_current_index" (ofZ 0)
    = Ok (ofZ 0) /\
  useLocalStorage_initial number parseIndex (Window (Ok (Some (storeWith "mode" "PLAN"))))
    "workout_current_index" (ofZ 0) = Ok (ofZ 0) /\
  useLocalStorage_initial number parseIndex (Window (Ok (Some (storeWith "workout_current_index" "{oops"))))
    "workout_current_index" (ofZ 0) = Ok (ofZ 0) /\
  useLocalStorage_initial number parseIndex (Window (Ok (Some (storeWith "workout_current_index" "1"))))
    "workout_current_index" (ofZ 0) = Ok (ofZ 1).
Proof.
  refine (conj _ (conj _ (conj _ (conj _ (conj _ (conj _ _)))))).
  - exact (proj1 (proj2 (C9_load_default number parseIndex NoWindow
                           "workout_current_index" (ofZ 0))) eq_refl).
  - exact (proj1 (proj2 (proj2 (C9_load_default number parseIndex
                           (Window (Throw SecurityError))
                           "workout_current_index" (ofZ 0)))) SecurityError eq_refl).
  - exact (proj1 (proj2 (proj2 (proj2 (C9_load_default number parseIndex
                           (Window (Ok None))
                           "workout_current_index" (ofZ 0))))) eq_refl).
  - exact (proj2 (proj2 (proj2 (proj2 (C9_load_default number parseIndex
                           (Window (Ok (Some brokenStore)))
                           "workout_current_index" (ofZ 0))))) brokenStore eq_refl).
  - exact (proj2 (proj2 (proj2 (proj2 (C9_load_default number parseIndex
                           (Window (Ok (Some (storeWith "mode" "PLAN"))))
                           "workout_current_index" (ofZ 0)))))
             (storeWith "mode" "PLAN") eq_refl).
  - exact (proj2 (proj2 (proj2 (proj2 (C9_load_default number parseIndex
                           (Window (Ok (Some (storeWith "workout_current_index" "{oops"))))
                           "workout_current_index" (ofZ 0)))))
             (storeWith "workout_current_index" "{oops") eq_refl).
  - exact (proj2 (proj2 (proj2 (proj2 (C9_load_default number parseIndex
                           (Window (Ok (Some (storeWith "workout_current_index" "1"))))
                           "workout_current_index" (ofZ 0)))))
             (storeWith "workout_current_index" "1") eq_refl).
Defined.

End StoreExamples.

(** ** The rounds editor *)



Section RoundsEditor.
Local Open Scope string_scope.




End RoundsEditor.

(** ** Renders leave the run state alone *)

Lemma applyUpdate_unchanged (u : Update) (a : AppState) :
  changes u a = false -> applyUpdate u a = a.
Proof.
  destruct a, u; cbn; try discriminate; intros H; apply negb_false_iff in H.
  - apply Nat.eqb_eq in H. now subst.
  - destruct m, mode0; try discriminate; reflexivity.
  - apply Nat.eqb_eq in H. now subst.
  - apply Bool.eqb_prop in H. now rewrite H.
  - apply Bool.eqb_prop in H. now subst.
  - apply Nat.eqb_eq in H. now rewrite H.
Qed.

Lemma applyAll_unchanged (us : list Update) :
  forall a, snd (applyAll us a) = false -> fst (applyAll us a) = a.
Proof.
  induction us as [|u us IH]; intros a; cbn; [reflexivity|].
  destruct (applyAll us (applyUpdate u a)) as [a' c] eqn:E. cbn.
  intros H. apply orb_false_iff in H as [Hu Hc].
  specialize (IH (applyUpdate u a)). rewrite E in IH. cbn in IH.
  rewrite (IH Hc). now apply applyUpdate_unchanged.
Qed.

Lemma applyAll_perStep (us : list Update) :
  Forall perStep us ->
  forall a, runFields (fst (applyAll us a)) = runFields a.
Proof.
  induction 1 as [|u us Hu _ IH]; intros a; cbn; [reflexivity|].
  specialize (IH (applyUpdate u a)).
  destruct (applyAll us (applyUpdate u a)) as [a' c]. cbn in *.
  rewrite IH. destruct u; cbn in Hu; try contradiction; reflexivity.
Qed.

Lemma completeEffect_perStep (r : number) : Forall perStep (completeEffect r).
Proof.
  unfold completeEffect, onComplete.
  destruct (Num.eqb r (ofZ 0)); repeat constructor.
Qed.

Lemma commitTimer_perStep (now : Q) (el : option (nat * number * bool)) (p : Page) :
  Forall perStep (snd (commitTimer now el p)).
Proof.
  unfold commitTimer.
  destruct (bigTimer p) as [tm|], el as [[[key ms] run]|]; cbn; try constructor.
  - destruct (key =? tkey tm)%nat.
    + destruct (updateTimer now ms run tm (raf p)). apply completeEffect_perStep.
    + destruct (mountTimer now (instances p) key ms run _). apply completeEffect_perStep.
  - destruct (mountTimer now (instances p) key ms run (raf p)).
    apply completeEffect_perStep.
Qed.

Lemma stepEffect_perStep : Forall perStep stepEffect.
Proof. repeat constructor. Qed.

Lemma pass_runFields (now : Q) (p : Page) :
  runFields (app (pass now p)) = runFields (app p).
Proof.
  unfold pass.
  pose proof (commitTimer_perStep now (bigTimerElement (app p)) p) as H.
  destruct (commitTimer now (bigTimerElement (app p)) p) as [[[tm r] n] us].
  cbn in *. apply applyAll_perStep. apply Forall_app. split; [assumption|].
  destruct (effectDeps p) as [d|].
  - destruct (negb _); [apply stepEffect_perStep | constructor].
  - apply stepEffect_perStep.
Qed.

Lemma rerender_runFields (now : Q) (p : Page) :
  runFields (app (rerender now p)) = runFields (app p).
Proof. unfold rerender. now rewrite !pass_runFields. Qed.

Lemma dispatch_runFields (now : Q) (us : list Update) (p : Page) :
  runFields (app (dispatch now us p)) = runFields (fst (applyAll us (app p))).
Proof.
  unfold dispatch.
  pose proof (applyAll_unchanged us (app p)) as H.
  destruct (applyAll us (app p)) as [a c]. cbn in *.
  destruct c.
  - now rewrite rerender_runFields.
  - now rewrite H.
Qed.

(** What a render shows depends on the run state only. *)
Lemma view_runFields (a a' : AppState) :
  runFields a = runFields a' ->
  cur a = cur a' /\ currentBlock a = currentBlock a' /\
  current a = current a' /\ view a = view a'.
Proof.
  unfold runFields. intros [= Hl Hc Hm Hs Hi].
  assert (Hcur : cur a = cur a') by (unfold cur; now rewrite Hs, Hi).
  assert (Hbl : blocks a = blocks a') by (unfold blocks, workout; now rewrite Hl, Hc).
  assert (Hcb : currentBlock a = currentBlock a')
    by (unfold currentBlock; now rewrite Hcur, Hbl).
  assert (Hcu : current a = current a')
    by (unfold current; now rewrite Hcur, Hcb).
  repeat split; try assumption.
  unfold view. now rewrite Hm, Hcur, Hcb, Hcu.
Qed.

Lemma bigTimerElement_None (a a' : AppState) :
  runFields a = runFields a' -> bigTimerElement a = None -> bigTimerElement a' = None.
Proof.
  intros H. apply view_runFields in H as (_ & _ & _ & Hv).
  unfold bigTimerElement. rewrite Hv. destruct (view a') as [|c blk e|]; try reflexivity.
  destruct (unit e); [discriminate | reflexivity].
Qed.

(** No [BigTimer] element, no [BigTimer] after the commit. *)
Lemma pass_no_timer (now : Q) (p : Page) :
  bigTimerElement (app p) = None -> bigTimer (pass now p) = None.
Proof.
  intros H. unfold pass, commitTimer. rewrite H.
  destruct (bigTimer p); reflexivity.
Qed.

Lemma rerender_no_timer (now : Q) (p : Page) :
  bigTimerElement (app p) = None -> bigTimer (rerender now p) = None.
Proof.
  intros H. unfold rerender. apply pass_no_timer.
  apply (bigTimerElement_None (app p)); [|assumption].
  symmetry. apply pass_runFields.
Qed.

Lemma enabled_Next_RUN (a : AppState) : enabled Next a = true -> mode a = RUN.
Proof.
  unfold enabled, view. destruct (mode a); [discriminate | reflexivity].
Qed.

(** ** The run-state controller: the claims *)

(** C4, as the code has it.  Where the Next button is shown (a run with
    a current exercise), an advance with [idx + 1 < schedule.length]
    increments the index and stays in RUN; at the last index it sets the
    mode to PLAN and leaves the schedule and the index as they are (the
    plan is shown and the timer is unmounted); from there the Next button
    is not shown, the handler [next] itself changes nothing, and Start is
    shown for a new run. *)
Theorem C4_next_advances (fuel : nat) (now now' : Q) (p : Page) :
  enabled Next (app p) = true ->
  exists p',
    step fuel now Next p = Went p' /\
    library (app p') = library (app p) /\
    schedule (app p') = schedule (app p) /\
    if (idx (app p) + 1 <? length (schedule (app p)))%nat
    then idx (app p') = (idx (app p) + 1)%nat /\ mode (app p') = RUN
    else idx (app p') = idx (app p) /\ mode (app p') = PLAN /\
         view (app p') = PlanView /\ bigTimer p' = None /\
         step fuel now' Next p' = NotShown /\
         dispatch now' (next (app p')) p' = p' /\
         enabled Start (app p') = true.
Proof.
  intros Hen. pose proof (enabled_Next_RUN _ Hen) as Hrun.
  exists (dispatch now (next (app p)) p).
  unfold step. rewrite Hen. cbn [negb]. split; [reflexivity|].
  pose proof (dispatch_runFields now (next (app p)) p) as Hf.
  destruct (idx (app p) + 1 <? length (schedule (app p)))%nat eqn:E.
  - assert (Hn : next (app p) = [setIdx (idx (app p) + 1)]) by (unfold next; now rewrite E).
    rewrite Hn in *. unfold runFields in Hf. injection Hf as Hl _ Hm Hs Hi.
    cbn [applyAll applyUpdate fst library schedule idx mode] in Hl, Hm, Hs, Hi.
    repeat split; congruence.
  - assert (Hn : next (app p) = [setMode PLAN]) by (unfold next; now rewrite E).
    rewrite Hn in *. unfold runFields in Hf. injection Hf as Hl Hc Hm Hs Hi.
    cbn [applyAll applyUpdate fst library schedule idx mode currentIndex]
      in Hl, Hc, Hm, Hs, Hi.
    assert (Htm : bigTimer (dispatch now [setMode PLAN] p) = None).
    { unfold dispatch. cbn. rewrite Hrun. cbn.
      apply rerender_no_timer. reflexivity. }
    remember (dispatch now [setMode PLAN] p) as p' eqn:Hp'.
    assert (Hview : view (app p') = PlanView) by (unfold view; now rewrite Hm).
    repeat split; try assumption.
    + unfold step, enabled. rewrite Hview. reflexivity.
    + unfold next, dispatch. rewrite Hi, Hs, E. cbn. now rewrite Hm.
    + unfold enabled. now rewrite Hview.
Qed.

Section RunStateExamples.
Local Open Scope Q_scope.

(** At the last step of the scenario of the specification an advance
    sets the mode to PLAN, and the schedule still holds its five steps. *)
Lemma C4_schedule_kept :
  cur (app scenarioAtLast) = Some {| bi := 1; ri := 2%Z; ei := 1 |} /\
  exists p',
    step 3 5 Next scenarioAtLast = Went p' /\
    mode (app p') = PLAN /\
    schedule (app p') = scenarioSteps /\
    schedule (app p') <> [] /\
    idx (app p') = 4%nat.
Proof.
  split; [reflexivity|].
  eexists. split; [vm_compute; reflexivity|].
  repeat split. discriminate.
Qed.

Lemma C4_next_advances_witness :
  enabled Next (app scenarioStarted) = true /\
  exists p',
    step 3 1 Next scenarioStarted = Went p' /\
    library (app p') = library (app scenarioStarted) /\
    schedule (app p') = schedule (app scenarioStarted) /\
    idx (app p') = 1%nat /\ mode (app p') = RUN.
Proof.
  split; [reflexivity|].
  exact (C4_next_advances 3 1 2 scenarioStarted eq_refl).
Defined.

End RunStateExamples.

(** C6.  The handler of a rounds editor leaves the schedule, the index
    and the mode of a run as they are, whatever the state it is called
    in: the schedule is the one [startRun] has built, and only
    [startRun] sets it. *)
Theorem C6_rounds_edit_keeps_schedule
    (now : Q) (b : nat) (v : string) (p : Page) (us : list Update) :
  onRoundsChange b v (app p) = Ok us ->
  schedule (app (dispatch now us p)) = schedule (app p) /\
  length (schedule (app (dispatch now us p))) = length (schedule (app p)) /\
  idx (app (dispatch now us p)) = idx (app p) /\
  mode (app (dispatch now us p)) = mode (app p).
Proof.
  unfold onRoundsChange. destruct (library (app p) !! currentIndex (app p)) as [w|];
    [|discriminate].
  intros [= <-].
  pose proof (dispatch_runFields now
    [setLibrary (<[currentIndex (app p) :=
       {| title := title w;
          categories := alter (withRounds (coerceRounds v)) b (categories w) |}]>
       (library (app p)))] p) as Hf.
  unfold runFields in Hf. injection Hf as _ _ Hm Hs Hi.
  cbn [applyAll applyUpdate fst schedule idx mode] in Hm, Hs, Hi.
  rewrite Hs, Hi, Hm. repeat split; reflexivity.
Qed.

Section SnapshotExample.
Local Open Scope Q_scope.
Local Open Scope string_scope.

(** In the started scenario, five rounds for the second block: the
    schedule keeps its five steps, and a schedule built now would have
    eleven. *)
Lemma C6_rounds_edit_keeps_schedule_witness :
  exists us,
    onRoundsChange 1 "5" (app scenarioStarted) = Ok us /\
    length (schedule (app (dispatch 1 us scenarioStarted))) = 5%nat /\
    option_map (@length Step)
      (buildSchedule 6 (blocks (app (dispatch 1 us scenarioStarted)))) = Some 11%nat.
Proof.
  eexists. split; [reflexivity|]. split.
  - exact (proj1 (proj2 (C6_rounds_edit_keeps_schedule 1 1 "5" scenarioStarted _ eq_refl))).
  - reflexivity.
Defined.

End SnapshotExample.

Lemma scheduleSpec_empty (bs : list Block) :
  scheduleLength bs = 0 -> scheduleSpec bs = [].
Proof.
  intros H. rewrite <- scheduleSpec_length in H.
  destruct (scheduleSpec bs); [reflexivity | discriminate].
Qed.

(** C8, as the code has it.  Starting a run of a routine without steps
    (no block, or no exercise in any block) never throws.  When no
    block has the round count [Infinity] it does not hang either: it
    enters RUN with an empty schedule at index 0; [cur], [currentBlock]
    and [current] are undefined, so nothing is shown and no timer is
    mounted; the Exit button of the header leads back to PLAN.  When a
    block has the round count [Infinity] the [for] loop of
    [buildSchedule] does not end although there is nothing to push:
    Start never returns. *)
Theorem C8_start_without_steps (fuel : nat) (now now' : Q) (p : Page) :
  enabled Start (app p) = true ->
  scheduleLength (blocks (app p)) = 0 ->
  (Forall finiteRounds (blocks (app p)) ->
   exists p',
     step (enoughFuel (blocks (app p))) now Start p = Went p' /\
     mode (app p') = RUN /\ schedule (app p') = [] /\ idx (app p') = 0%nat /\
     cur (app p') = None /\ currentBlock (app p') = None /\
     current (app p') = None /\ view (app p') = Blank /\ bigTimer p' = None /\
     exists p'', step fuel now' Exit p' = Went p'' /\ mode (app p'') = PLAN) /\
  (Exists (fun blk => rounds blk = PInf) (blocks (app p)) ->
   forall fuel', step fuel' now Start p = NoReturn) /\
  (forall fuel' e, step fuel' now Start p <> Thrown e).
Proof.
  intros Hen Hlen. split; [|split].
  - intros Hfin. unfold step at 1. rewrite Hen. cbn [negb].
    unfold startRun. rewrite (buildSchedule_returns _ Hfin), (scheduleSpec_empty _ Hlen).
    eexists. split; [reflexivity|].
    pose proof (dispatch_runFields now [setSchedule []; setIdx 0; setMode RUN] p) as Hf.
    remember (dispatch now [setSchedule []; setIdx 0; setMode RUN] p) as p' eqn:Hp'.
    unfold runFields in Hf. injection Hf as Hl Hc Hm Hs Hi.
    cbn [applyAll applyUpdate fst library currentIndex schedule idx mode] in Hl, Hc, Hm, Hs, Hi.
    assert (Hcur : cur (app p') = None) by (unfold cur; now rewrite Hs).
    assert (Hcb : currentBlock (app p') = None) by (unfold currentBlock; now rewrite Hcur).
    assert (Hc' : current (app p') = None) by (unfold current; now rewrite Hcur).
    assert (Hv : view (app p') = Blank) by (unfold view; now rewrite Hm, Hcur).
    repeat split; try assumption.
    + subst p'. unfold dispatch. cbn [applyAll applyUpdate changes orb].
      apply rerender_no_timer. unfold bigTimerElement, view, cur. reflexivity.
    + exists (dispatch now' exit p'). split.
      * unfold step, enabled. rewrite Hv. reflexivity.
      * pose proof (dispatch_runFields now' exit p') as Hf.
        unfold runFields in Hf. injection Hf as _ _ Hm' _ _. exact Hm'.
  - intros Hinf fuel'. apply List.Exists_exists in Hinf as (blk & Hin & Hr).
    unfold step. rewrite Hen. cbn [negb]. unfold startRun.
    now rewrite (buildSchedule_Infinity fuel' _ blk Hin Hr).
  - intros fuel' e. unfold step. rewrite Hen. cbn [negb]. unfold startRun.
    destruct (buildSchedule fuel' (blocks (app p))); discriminate.
Qed.

Section EmptyRunExamples.
Local Open Scope Q_scope.

(** Starting the routine without steps is not a no-op: the plan gives
    way to an empty run. *)
Lemma C8_start_changes_mode :
  mode (app noStepsPlan) = PLAN /\ view (app noStepsPlan) = PlanView /\
  exists p',
    step 3 0 Start noStepsPlan = Went p' /\
    mode (app p') = RUN /\ view (app p') = Blank /\ p' <> noStepsPlan.
Proof.
  split; [reflexivity|]. split; [reflexivity|].
  eexists. split; [vm_compute; reflexivity|].
  split; [reflexivity|]. split; [reflexivity|].
  intros H. apply (f_equal (fun q => mode (app q))) in H. discriminate H.
Qed.

Lemma C8_start_without_steps_witness :
  enabled Start (app noStepsPlan) = true /\
  Forall finiteRounds (blocks (app noStepsPlan)) /\
  scheduleLength (blocks (app noStepsPlan)) = 0%Z /\
  (exists p',
    step 3 0 Start noStepsPlan = Went p' /\
    mode (app p') = RUN /\ schedule (app p') = [] /\ idx (app p') = 0%nat /\
    cur (app p') = None /\ currentBlock (app p') = None /\
    current (app p') = None /\ view (app p') = Blank /\ bigTimer p' = None /\
    exists p'', step 3 1 Exit p' = Went p'' /\ mode (app p'') = PLAN) /\
  enabled Start (app endlessRoundsPlan) = true /\
  scheduleLength (blocks (app endlessRoundsPlan)) = 0%Z /\
  Exists (fun blk => rounds blk = PInf) (blocks (app endlessRoundsPlan)) /\
  forall fuel', step fuel' 0 Start endlessRoundsPlan = NoReturn.
Proof.
  split; [reflexivity|].
  split; [repeat constructor; discriminate|].
  split; [reflexivity|].
  split.
  { apply (proj1 (C8_start_without_steps 3 0 1 noStepsPlan eq_refl eq_refl)).
    repeat constructor; discriminate. }
  assert (Hinf : Exists (fun blk => rounds blk = PInf) (blocks (app endlessRoundsPlan)))
    by (constructor; reflexivity).
  split; [reflexivity|]. split; [reflexivity|]. split; [exact Hinf|].
  exact (proj1 (proj2 (C8_start_without_steps 3 0 1 endlessRoundsPlan eq_refl eq_refl))
           Hinf).
Defined.

End EmptyRunExamples.

(** ** The countdown *)

Lemma same_refl (x : number) : Num.same x x = true.
Proof. destruct x; try reflexivity. cbn. apply Qeq_bool_iff, Qeq_refl. Qed.

(** What a run of [loop] leaves in [remaining] is computed from the
    [ms] and the [start] the closure has captured, and from nothing
    else: not by decrementing what was there. *)
Lemma loop_remaining (cb : Loop) (t : Q) (p : Page) (tm : Timer) :
  bigTimer p = Some tm ->
  tid tm = owner cb ->
  remainingOf (loop cb t p) =
  Some (Math.max (ofZ 0) (Num.sub (loopMs cb) (Num.sub (Fin t) (start cb)))).
Proof.
  intros Htm Hid. unfold loop, remainingOf.
  set (next := Math.max (ofZ 0) (Num.sub (loopMs cb) (Num.sub (Fin t) (start cb)))).
  assert (H : bigTimer (setRemaining (owner cb) next p) = Some (withRemaining next tm)).
  { unfold setRemaining. rewrite Htm, Hid, Nat.eqb_refl. reflexivity. }
  destruct (Num.gtb next (ofZ 0)).
  - unfold requestAgain. destruct (requestAnimationFrame cb _) as [h raf'].
    cbn [bigTimer]. rewrite H. cbn [tid withRemaining].
    rewrite Hid, Nat.eqb_refl. reflexivity.
  - rewrite H. reflexivity.
Qed.

(** When [running] goes from false to true, the effect requests a frame
    for a closure that has captured the time of the resume as [start]
    and the whole of [ms]: what was left of the countdown is not part
    of it. *)
Lemma resume_captures_full_ms (now : Q) (tm : Timer) (raf0 : Raf) :
  trunning tm = false ->
  updateTimer now (tms tm) true tm raf0 =
  (withRafRef (nextHandle raf0) (withProps (tms tm) true tm),
   {| callbacks := callbacks raf0 ++
                   [(nextHandle raf0,
                     {| owner := tid tm; start := Fin now; loopMs := tms tm |})];
      nextHandle := S (nextHandle raf0) |}).
Proof.
  intros Hr. unfold updateTimer, countdownCleanup, countdownEffect.
  rewrite same_refl, Hr. reflexivity.
Qed.

Section CountdownExamples.
Local Open Scope Q_scope.

(** C3, on the code.  A countdown of 5000 ms runs for 2000 ms and is
    paused with 3000 ms left; the pause holds that value; after the
    resume at time 10000 the first frame, 16 ms later, sets [remaining]
    to 4984, and a frame with the time stamp of the resume sets it to
    5000, the whole of [ms]: the time run before the pause is lost. *)
Theorem C3_resume_restarts_countdown :
  option_map observe (after 2 [(2000, Frame)] fiveSecondsRunning) =
    Some {| o_mode := RUN; o_idx := 0; o_steps := 2; o_running := true;
            o_timerDone := false; o_seed := 2;
            o_remaining := Some (Fin 3000); o_requested := [2%nat] |} /\
  option_map observe
    (after 2 [(2000, Frame); (2000, Toggle); (9000, Frame)] fiveSecondsRunning) =
    Some {| o_mode := RUN; o_idx := 0; o_steps := 2; o_running := false;
            o_timerDone := false; o_seed := 2;
            o_remaining := Some (Fin 3000); o_requested := [] |} /\
  option_map observe
    (after 2 [(2000, Frame); (2000, Toggle); (9000, Frame); (10000, Toggle);
              (10016, Frame)] fiveSecondsRunning) =
    Some {| o_mode := RUN; o_idx := 0; o_steps := 2; o_running := true;
            o_timerDone := false; o_seed := 2;
            o_remaining := Some (Fin 4984); o_requested := [4%nat] |} /\
  option_map observe
    (after 2 [(2000, Frame); (2000, Toggle); (9000, Frame); (10000, Toggle);
              (10000, Frame)] fiveSecondsRunning) =
    Some {| o_mode := RUN; o_idx := 0; o_steps := 2; o_running := true;
            o_timerDone := false; o_seed := 2;
            o_remaining := Some (Fin 5000); o_requested := [4%nat] |}.
Proof. repeat split; vm_compute; reflexivity. Qed.

(** C5, on the code.  The countdown of 5000 ms reaches 0 at the frame
    of time 5000: no further frame is requested, and [timerDone] is set.
    A pause and a resume later, with the same step and the same seed, a
    frame is requested again and the next frame sets [remaining] to
    4984: the countdown has restarted without a step transition, and it
    reaches 0 a second time. *)
Theorem C5_restart_after_completion :
  option_map observe (after 2 [(5000, Frame); (5016, Frame)] fiveSecondsRunning) =
    Some {| o_mode := RUN; o_idx := 0; o_steps := 2; o_running := true;
            o_timerDone := true; o_seed := 2;
            o_remaining := Some (Fin 0); o_requested := [] |} /\
  option_map observe
    (after 2 [(5000, Frame); (5016, Frame); (6000, Toggle); (7000, Toggle)]
       fiveSecondsRunning) =
    Some {| o_mode := RUN; o_idx := 0; o_steps := 2; o_running := true;
            o_timerDone := true; o_seed := 2;
            o_remaining := Some (Fin 0); o_requested := [2%nat] |} /\
  option_map observe
    (after 2 [(5000, Frame); (5016, Frame); (6000, Toggle); (7000, Toggle);
              (7016, Frame)] fiveSecondsRunning) =
    Some {| o_mode := RUN; o_idx := 0; o_steps := 2; o_running := true;
            o_timerDone := true; o_seed := 2;
            o_remaining := Some (Fin 4984); o_requested := [3%nat] |} /\
  option_map observe
    (after 2 [(5000, Frame); (5016, Frame); (6000, Toggle); (7000, Toggle);
              (7016, Frame); (12000, Frame)] fiveSecondsRunning) =
    Some {| o_mode := RUN; o_idx := 0; o_steps := 2; o_running := true;
            o_timerDone := true; o_seed := 2;
            o_remaining := Some (Fin 0); o_requested := [] |}.
Proof. repeat split; vm_compute; reflexivity. Qed.

(** A step transition does reset the timer: after an advance and a
    retreat the five-second exercise has its whole time again, the timer
    is paused and [timerDone] is false. *)
Lemma step_transition_resets :
  option_map observe
    (after 2 [(5000, Frame); (6000, Next); (6001, Prev)] fiveSecondsRunning) =
    Some {| o_mode := RUN; o_idx := 0; o_steps := 2; o_running := false;
            o_timerDone := false; o_seed := 4;
            o_remaining := Some (Fin 5000); o_requested := [] |}.
Proof. vm_compute. reflexivity. Qed.

End CountdownExamples.

(** ** Two passes settle the page *)

Lemma sameDeps_refl (d : Deps) : sameDeps d d = true.
Proof.
  destruct d as [[i u] n]. cbn. rewrite Nat.eqb_refl. cbn.
  assert (Hu : sameOption Unit_eqb u u = true) by (destruct u as [[]|]; reflexivity).
  assert (Hn : sameOption Num.same n n = true)
    by (destruct n as [x|]; [apply same_refl | reflexivity]).
  now rewrite Hu, Hn.
Qed.

Lemma depsOf_runFields (a a' : AppState) :
  runFields a = runFields a' -> depsOf a = depsOf a'.
Proof.
  intros H. pose proof H as [= _ _ _ _ Hi].
  apply view_runFields in H as (_ & _ & Hc & _).
  unfold depsOf. now rewrite Hi, Hc.
Qed.

(** The element of a state with the same run state: the same presence
    and the same [ms]. *)
Lemma bigTimerElement_runFields (a a' : AppState) :
  runFields a = runFields a' ->
  bigTimerElement a' =
  match bigTimerElement a with
  | Some (_, ms, _) => Some (seed a', ms, running a')
  | None => None
  end.
Proof.
  intros H. apply view_runFields in H as (_ & _ & _ & Hv).
  unfold bigTimerElement. rewrite <- Hv.
  destruct (view a) as [|c blk e|]; try reflexivity.
  destruct (unit e); reflexivity.
Qed.

Lemma countdownEffect_props (now : Q) (tm : Timer) (r : Raf) :
  let tm' := fst (countdownEffect now tm r) in
  tkey tm' = tkey tm /\ tms tm' = tms tm /\ trunning tm' = trunning tm /\
  remaining tm' = remaining tm.
Proof.
  unfold countdownEffect. destruct (trunning tm) eqn:E; cbn; repeat split; auto.
Qed.

Lemma updateTimer_props (now : Q) (ms : number) (run : bool) (tm : Timer) (r : Raf) :
  let tm' := fst (updateTimer now ms run tm r) in
  tkey tm' = tkey tm /\ Num.same (tms tm') ms = true /\ trunning tm' = run /\
  (Num.same (tms tm) ms = true -> remaining tm' = remaining tm).
Proof.
  unfold updateTimer.
  destruct (Num.same (tms tm) ms) eqn:Es; cbn [negb orb].
  - destruct (Bool.eqb (trunning tm) run) eqn:Er; cbn [negb].
    + cbn. apply Bool.eqb_prop in Er. repeat split; auto.
    + pose proof (countdownEffect_props now (withProps ms run tm)
                    (countdownCleanup tm r)) as (Hk & Hm & Hr & Hrem).
      destruct (countdownEffect now (withProps ms run tm) (countdownCleanup tm r))
        as [tm' r']. cbn in *. rewrite Hm. repeat split; auto. apply same_refl.
  - pose proof (countdownEffect_props now (withProps ms run tm)
                  (countdownCleanup tm r)) as (Hk & Hm & Hr & Hrem).
    destruct (countdownEffect now (withProps ms run tm) (countdownCleanup tm r))
      as [tm' r']. cbn in *. rewrite Hm. repeat split; auto; [apply same_refl|].
    discriminate.
Qed.

Lemma mountTimer_props (now : Q) (id key : nat) (ms : number) (run : bool) (r : Raf) :
  let tm' := fst (mountTimer now id key ms run r) in
  tkey tm' = key /\ tms tm' = ms /\ trunning tm' = run /\ remaining tm' = ms.
Proof. unfold mountTimer. apply countdownEffect_props. Qed.

(** After a commit the timer has the props of the element, and the
    effect of [BigTimer] has seen the value [remaining] has afterwards,
    provided [ms] was not changing. *)
Lemma commitTimer_inSync (now : Q) (p : Page) (el : option (nat * number * bool)) :
  let '(tm', _, _, us) := commitTimer now el p in
  timerInSync tm' el /\
  ((match bigTimer p, el with
    | Some tm, Some (_, ms, _) => Num.same (tms tm) ms = true
    | _, _ => True
    end) ->
   forall tm, tm' = Some tm -> us = completeEffect (remaining tm)).
Proof.
  unfold commitTimer.
  destruct (bigTimer p) as [tm|], el as [[[key ms] run]|]; cbn [timerInSync].
  - destruct (key =? tkey tm)%nat eqn:Ek.
    + pose proof (updateTimer_props now ms run tm (raf p)) as (Hk & Hm & Hr & Hrem).
      destruct (updateTimer now ms run tm (raf p)) as [tm' r']. cbn in *.
      apply Nat.eqb_eq in Ek. split; [repeat split; congruence|].
      intros Hs tm0 [= <-]. now rewrite (Hrem Hs).
    + pose proof (mountTimer_props now (instances p) key ms run
                    (countdownCleanup tm (raf p))) as (Hk & Hm & Hr & Hrem).
      destruct (mountTimer now (instances p) key ms run _) as [tm' r']. cbn in *.
      split; [repeat split; try assumption; rewrite Hm; apply same_refl|].
      intros _ tm0 [= <-]. now rewrite Hrem.
  - split; [exact I | discriminate].
  - pose proof (mountTimer_props now (instances p) key ms run (raf p))
      as (Hk & Hm & Hr & Hrem).
    destruct (mountTimer now (instances p) key ms run (raf p)) as [tm' r']. cbn in *.
    split; [repeat split; try assumption; rewrite Hm; apply same_refl|].
    intros _ tm0 [= <-]. now rewrite Hrem.
  - split; [exact I | discriminate].
Qed.

Lemma commitTimer_unmounted (now : Q) (p : Page) (el : option (nat * number * bool)) :
  let '(tm', _, _, us) := commitTimer now el p in
  tm' = None -> us = [].
Proof.
  unfold commitTimer.
  destruct (bigTimer p) as [tm|], el as [[[key ms] run]|]; try reflexivity.
  - destruct (key =? tkey tm)%nat.
    + destruct (updateTimer now ms run tm (raf p)). discriminate.
    + destruct (mountTimer now (instances p) key ms run _). discriminate.
  - destruct (mountTimer now (instances p) key ms run (raf p)). discriminate.
Qed.

(** The effect of [BigTimer] sets [timerDone] and nothing else. *)
Lemma applyAll_complete (r : number) (a : AppState) :
  let a' := fst (applyAll (completeEffect r ++ []) a) in
  runFields a' = runFields a /\ seed a' = seed a /\ running a' = running a /\
  (Num.eqb r (ofZ 0) = true -> timerDone a' = true) /\
  (timerDone a = true -> a' = a).
Proof.
  unfold completeEffect, onComplete.
  destruct (Num.eqb r (ofZ 0)); cbn; repeat split; auto; try discriminate.
  intros H. destruct a; cbn in *. now subst.
Qed.

Lemma bigTimerElement_same (a a' : AppState) :
  runFields a' = runFields a -> seed a' = seed a -> running a' = running a ->
  bigTimerElement a' = bigTimerElement a.
Proof.
  intros Hf Hs Hr. symmetry in Hf.
  rewrite (bigTimerElement_runFields a a' Hf), Hs, Hr.
  unfold bigTimerElement. destruct (view a) as [|c blk e|]; try reflexivity.
  destruct (unit e); reflexivity.
Qed.

(** A render in which the effect of line 163 does not run and [ms] is
    not changing settles the page. *)
Lemma pass_settles (now : Q) (p : Page) :
  effectDeps p = Some (depsOf (app p)) ->
  match bigTimer p, bigTimerElement (app p) with
  | Some tm, Some (_, ms, _) => Num.same (tms tm) ms = true
  | _, _ => True
  end ->
  settled (pass now p).
Proof.
  intros Hd Hms. unfold pass. rewrite Hd, sameDeps_refl. cbn [negb].
  pose proof (commitTimer_inSync now p (bigTimerElement (app p))) as H1.
  pose proof (commitTimer_unmounted now p (bigTimerElement (app p))) as H2.
  destruct (commitTimer now (bigTimerElement (app p)) p) as [[[tm' r'] n'] us].
  destruct H1 as [Hsync Hus]. specialize (Hus Hms).
  assert (Hshape : exists r, us = completeEffect r /\
                             forall tm, tm' = Some tm -> r = remaining tm).
  { destruct tm' as [tm|].
    - exists (remaining tm). split; [now apply Hus|]. now intros ? [= <-].
    - exists NaN. split; [now apply H2 | discriminate]. }
  destruct Hshape as (r & -> & Hr).
  pose proof (applyAll_complete r (app p)) as (Hf & Hseed & Hrun & Hdone & _).
  unfold settled; cbn [app effectDeps bigTimer].
  split; [|split].
  - f_equal. apply depsOf_runFields. now symmetry.
  - now rewrite (bigTimerElement_same _ _ Hf Hseed Hrun).
  - intros tm Htm H0. apply Hdone. now rewrite (Hr tm Htm).
Qed.

Lemma pass_depsOf (now : Q) (p : Page) :
  effectDeps (pass now p) = Some (depsOf (app (pass now p))).
Proof.
  pose proof (pass_runFields now p) as Hf. apply depsOf_runFields in Hf.
  rewrite Hf. unfold pass.
  destruct (commitTimer now (bigTimerElement (app p)) p) as [[[tm' r'] n'] us].
  reflexivity.
Qed.

Lemma pass_ms (now : Q) (p : Page) :
  match bigTimer (pass now p), bigTimerElement (app (pass now p)) with
  | Some tm, Some (_, ms, _) => Num.same (tms tm) ms = true
  | _, _ => True
  end.
Proof.
  pose proof (pass_runFields now p) as Hf. symmetry in Hf.
  rewrite (bigTimerElement_runFields _ _ Hf).
  unfold pass.
  pose proof (commitTimer_inSync now p (bigTimerElement (app p))) as H1.
  destruct (commitTimer now (bigTimerElement (app p)) p) as [[[tm' r'] n'] us].
  destruct H1 as [Hsync _]. cbn [bigTimer].
  destruct tm' as [tm|], (bigTimerElement (app p)) as [[[key ms] run]|];
    cbn in Hsync |- *; try exact I.
  now destruct Hsync as (_ & ? & _).
Qed.

(** After two passes a further render changes nothing. *)
Theorem rerender_settled (now : Q) (p : Page) : settled (rerender now p).
Proof.
  unfold rerender. apply pass_settles; [apply pass_depsOf | apply pass_ms].
Qed.

Theorem settled_pass (now : Q) (p : Page) : settled p -> pass now p = p.
Proof.
  intros (Hd & Hsync & Hdone). unfold pass. rewrite Hd, sameDeps_refl. cbn [negb].
  unfold commitTimer.
  destruct p as [a d tm r n]; cbn [app effectDeps bigTimer raf instances] in *.
  destruct tm as [tm|], (bigTimerElement a) as [[[key ms] run]|];
    cbn in Hsync; try contradiction.
  - destruct Hsync as (Hk & Hm & Hr).
    rewrite <- Hk, Nat.eqb_refl. unfold updateTimer.
    rewrite Hm, Hr, Bool.eqb_reflx. cbn [negb orb].
    pose proof (applyAll_complete (remaining tm) a) as (_ & _ & _ & _ & Hsame).
    unfold completeEffect in *.
    destruct (Num.eqb (remaining tm) (ofZ 0)) eqn:E0.
    + rewrite Hsame by (now apply (Hdone tm)). now rewrite Hd.
    + cbn. now rewrite Hd.
  - cbn. now rewrite Hd.
Qed.

Corollary rerender_stable (now now' : Q) (p : Page) :
  pass now' (rerender now p) = rerender now p.
Proof. apply settled_pass, rerender_settled. Qed.

(** ** Every page the events reach is settled *)

Lemma sameProps_refl (p : Page) : sameProps p p.
Proof. unfold sameProps. destruct (bigTimer p); auto. Qed.

Lemma sameProps_trans (p q r : Page) : sameProps p q -> sameProps q r -> sameProps p r.
Proof.
  unfold sameProps. intros (Ha & Hd & Ht) (Ha' & Hd' & Ht').
  split; [congruence|]. split; [congruence|].
  destruct (bigTimer p), (bigTimer q), (bigTimer r); try contradiction; auto.
  destruct Ht as (? & ? & ?), Ht' as (? & ? & ?). repeat split; congruence.
Qed.

Lemma setRemaining_sameProps (id : nat) (r : number) (p : Page) :
  sameProps p (setRemaining id r p).
Proof.
  unfold setRemaining. destruct (bigTimer p) as [tm|] eqn:E.
  - destruct (tid tm =? id)%nat.
    + unfold sameProps. cbn. rewrite E. auto.
    + apply sameProps_refl.
  - apply sameProps_refl.
Qed.

Lemma requestAgain_sameProps (cb : Loop) (p : Page) : sameProps p (requestAgain cb p).
Proof.
  unfold requestAgain, sameProps.
  destruct (requestAnimationFrame cb (raf p)) as [h r']. cbn.
  destruct (bigTimer p) as [tm|]; [|auto].
  destruct (tid tm =? owner cb)%nat; cbn; auto.
Qed.

Lemma loop_sameProps (cb : Loop) (t : Q) (p : Page) : sameProps p (loop cb t p).
Proof.
  unfold loop. destruct (Num.gtb _ _).
  - eapply sameProps_trans; [apply setRemaining_sameProps | apply requestAgain_sameProps].
  - apply setRemaining_sameProps.
Qed.

Lemma loops_sameProps (t : Q) (cbs : list (nat * Loop)) :
  forall p, sameProps p (fold_left (fun q hc => loop (snd hc) t q) cbs p).
Proof.
  induction cbs as [|hc cbs IH]; intros p; cbn [fold_left].
  - apply sameProps_refl.
  - eapply sameProps_trans; [apply loop_sameProps | apply IH].
Qed.

Lemma same_eqb (x y z : number) :
  Num.same x y = true -> Num.eqb y z = true -> Num.eqb x z = true.
Proof.
  destruct x as [| | |a], y as [| | |b], z as [| | |c]; cbn; try discriminate; auto.
  rewrite !Qeq_bool_iff. intros H1 H2. now rewrite H1.
Qed.

Lemma frame_settled (t : Q) (p : Page) : settled p -> settled (frame t p).
Proof.
  intros (Hd & Hsync & Hdone). unfold frame.
  set (p0 := {| app := app p; effectDeps := effectDeps p; bigTimer := bigTimer p;
                raf := {| callbacks := []; nextHandle := nextHandle (raf p) |};
                instances := instances p |}).
  pose proof (loops_sameProps t (callbacks (raf p)) p0) as (Ha & He & Ht).
  set (p1 := fold_left (fun q hc => loop (snd hc) t q) (callbacks (raf p)) p0) in *.
  destruct (sameOption Num.same (remainingOf p) (remainingOf p1)) eqn:E;
    [|apply rerender_settled].
  cbn [app effectDeps bigTimer p0] in Ha, He, Ht.
  unfold settled. rewrite Ha, He. split; [assumption|]. split.
  - unfold timerInSync in *.
    destruct (bigTimer p) as [tm|], (bigTimer p1) as [tm1|]; try contradiction; auto.
    destruct (bigTimerElement (app p)) as [[[key ms] run]|]; [|assumption].
    destruct Ht as (-> & -> & ->). assumption.
  - intros tm1 Htm1 H0. unfold remainingOf in E. rewrite Htm1 in *.
    destruct (bigTimer p) as [tm|]; [|contradiction].
    cbn in E. apply (Hdone tm eq_refl). now apply (same_eqb _ _ _ E).
Qed.

Lemma dispatch_settled (now : Q) (us : list Update) (p : Page) :
  settled p -> settled (dispatch now us p).
Proof.
  intros H. unfold dispatch. destruct (applyAll us (app p)) as [a c].
  destruct c; [apply rerender_settled | assumption].
Qed.

Theorem step_settled (fuel : nat) (now : Q) (e : Event) (p p' : Page) :
  settled p -> step fuel now e p = Went p' -> settled p'.
Proof.
  intros Hs. unfold step. destruct (negb (enabled e (app p))); [discriminate|].
  destruct e.
  - intros [= <-]. now apply dispatch_settled.
  - destruct (startRun fuel (app p)); [|discriminate].
    intros [= <-]. now apply dispatch_settled.
  - intros [= <-]. now apply dispatch_settled.
  - intros [= <-]. now apply dispatch_settled.
  - intros [= <-]. now apply dispatch_settled.
  - intros [= <-]. now apply dispatch_settled.
  - intros [= <-]. now apply dispatch_settled.
  - destruct (onRoundsChange bi0 v (app p)); [|discriminate].
    intros [= <-]. now apply dispatch_settled.
  - intros [= <-]. now apply frame_settled.
Qed.

Theorem run_settled (fuel : nat) (es : list (Q * Event)) :
  forall p p', settled p -> run fuel es p = Went p' -> settled p'.
Proof.
  induction es as [|[now e] es IH]; intros p p' Hs; cbn [run].
  - now intros [= <-].
  - destruct (step fuel now e p) as [q| | |] eqn:E; try discriminate.
    apply IH. now apply (step_settled fuel now e p).
Qed.

Lemma initialPage_settled (now : Q) (lib : list Workout) (i : nat) (m : Mode) :
  settled (initialPage now lib i m).
Proof. apply rerender_settled. Qed.

(** ** At most one frame is requested *)

Lemma cancel_single (h : nat) (cb : Loop) (n : nat) :
  cancelAnimationFrame h {| callbacks := [(h, cb)]; nextHandle := n |} =
  {| callbacks := []; nextHandle := n |}.
Proof. unfold cancelAnimationFrame. cbn. now rewrite Nat.eqb_refl. Qed.

Lemma cancelRef_empty (tm : Timer) (r : Raf) :
  callbacks r = [] -> cancelRef tm r = r.
Proof.
  intros H. unfold cancelRef. destruct (rafRef tm) as [h|]; [|reflexivity].
  destruct (0 <? h)%nat; [|reflexivity].
  destruct r as [cbs n]. cbn in H. subst. reflexivity.
Qed.

(** The clean-up and the paused effect leave no frame requested. *)
Lemma cancelRef_clears (tm : Timer) (r : Raf) :
  pendingLoop tm r ->
  callbacks (cancelRef tm r) = [] /\ nextHandle (cancelRef tm r) = nextHandle r.
Proof.
  intros [H | (h & cb & Hc & Hr & Hh & _)].
  - now rewrite (cancelRef_empty tm r H).
  - unfold cancelRef. rewrite Hr. apply Nat.ltb_lt in Hh. rewrite Hh.
    destruct r as [cbs n]. cbn in Hc. subst. rewrite cancel_single. auto.
Qed.

Lemma countdownCleanup_clears (tm : Timer) (r : Raf) :
  pendingLoop tm r ->
  callbacks (countdownCleanup tm r) = [] /\
  nextHandle (countdownCleanup tm r) = nextHandle r.
Proof.
  intros H. unfold countdownCleanup. destruct (trunning tm) eqn:E.
  - now apply cancelRef_clears.
  - destruct H as [H | (h & cb & _ & _ & _ & _ & _ & Ht)]; [auto | congruence].
Qed.

Lemma countdownEffect_pending (now : Q) (tm : Timer) (r : Raf) :
  callbacks r = [] -> (0 < nextHandle r)%nat ->
  let '(tm', r') := countdownEffect now tm r in
  pendingLoop tm' r' /\ (0 < nextHandle r')%nat.
Proof.
  intros Hc Hn. unfold countdownEffect. destruct (trunning tm) eqn:E; cbn [negb].
  - cbn. rewrite Hc. split; [|lia]. right.
    eexists _, _. split; [reflexivity|]. cbn. repeat split; auto.
  - rewrite (cancelRef_empty tm r Hc). split; [now left | assumption].
Qed.

Lemma pendingLoop_withRemaining (x : number) (tm : Timer) (r : Raf) :
  pendingLoop tm r -> pendingLoop (withRemaining x tm) r.
Proof. intros [H | H]; [now left | now right]. Qed.

Lemma commitTimer_oneLoop (now : Q) (el : option (nat * number * bool)) (p : Page) :
  oneLoop p ->
  let '(tm', r', _, _) := commitTimer now el p in
  match tm' with
  | None => callbacks r' = []
  | Some tm => pendingLoop tm r'
  end /\ (0 < nextHandle r')%nat.
Proof.
  intros [Hp Hn]. unfold commitTimer.
  destruct (bigTimer p) as [tm|], el as [[[key ms] run]|].
  - pose proof (countdownCleanup_clears tm (raf p) Hp) as [Hc Hn'].
    destruct (key =? tkey tm)%nat.
    + unfold updateTimer.
      destruct (negb (Num.same (tms tm) ms) || negb (Bool.eqb (trunning tm) run)) eqn:Ech.
      * pose proof (countdownEffect_pending now (withProps ms run tm)
                      (countdownCleanup tm (raf p)) Hc ltac:(lia)) as H.
        destruct (countdownEffect now (withProps ms run tm) _) as [tm' r'].
        destruct H as [H1 H2]. split; [|assumption].
        destruct (negb (Num.same (tms tm) ms)); [now apply pendingLoop_withRemaining | assumption].
      * apply orb_false_iff in Ech as [-> _]. now split.
    + pose proof (countdownEffect_pending now
                    {| tid := instances p; tkey := key; tms := ms; trunning := run;
                       remaining := ms; rafRef := None |}
                    (countdownCleanup tm (raf p)) Hc ltac:(lia)) as H.
      unfold mountTimer. destruct (countdownEffect now _ _) as [tm' r']. exact H.
  - pose proof (countdownCleanup_clears tm (raf p) Hp) as [Hc Hn']. split; [assumption | lia].
  - pose proof (countdownEffect_pending now
                  {| tid := instances p; tkey := key; tms := ms; trunning := run;
                     remaining := ms; rafRef := None |} (raf p) Hp Hn) as H.
    unfold mountTimer. destruct (countdownEffect now _ _) as [tm' r']. exact H.
  - now split.
Qed.

Lemma pass_oneLoop (now : Q) (p : Page) : oneLoop p -> oneLoop (pass now p).
Proof.
  intros H. unfold pass, oneLoop.
  pose proof (commitTimer_oneLoop now (bigTimerElement (app p)) p H) as H'.
  destruct (commitTimer now (bigTimerElement (app p)) p) as [[[tm' r'] n'] us].
  exact H'.
Qed.

Lemma dispatch_oneLoop (now : Q) (us : list Update) (p : Page) :
  oneLoop p -> oneLoop (dispatch now us p).
Proof.
  intros H. unfold dispatch. destruct (applyAll us (app p)) as [a c].
  destruct c; [|assumption]. unfold rerender. do 2 apply pass_oneLoop. exact H.
Qed.

Lemma frame_oneLoop (t : Q) (p : Page) : oneLoop p -> oneLoop (frame t p).
Proof.
  intros [Hp Hn]. unfold frame.
  set (p0 := {| app := app p; effectDeps := effectDeps p; bigTimer := bigTimer p;
                raf := {| callbacks := []; nextHandle := nextHandle (raf p) |};
                instances := instances p |}).
  assert (H1 : oneLoop (fold_left (fun q hc => loop (snd hc) t q) (callbacks (raf p)) p0)).
  { destruct (bigTimer p) as [tm|] eqn:Etm.
    - destruct Hp as [Hc | (h & cb & Hc & Hr & Hh & Ho & Hm & Ht)]; rewrite Hc; cbn [fold_left].
      + unfold oneLoop, p0; cbn. rewrite ?Etm. split; [now left | assumption].
      + cbn [snd]. unfold loop.
        set (nx := Math.max (ofZ 0) (Num.sub (loopMs cb) (Num.sub (Fin t) (start cb)))).
        assert (Hs : setRemaining (owner cb) nx p0 =
                     {| app := app p; effectDeps := effectDeps p;
                        bigTimer := Some (withRemaining nx tm);
                        raf := {| callbacks := []; nextHandle := nextHandle (raf p) |};
                        instances := instances p |}).
        { unfold setRemaining, p0. cbn. rewrite ?Etm, Ho, Nat.eqb_refl. reflexivity. }
        rewrite Hs. destruct (Num.gtb nx (ofZ 0)).
        * unfold requestAgain, oneLoop. cbn. rewrite Ho, Nat.eqb_refl. cbn.
          split; [|lia]. right. eexists _, _. split; [reflexivity|].
          cbn. repeat split; auto.
        * unfold oneLoop. cbn. split; [now left | assumption].
    - rewrite Hp. cbn [fold_left]. unfold oneLoop, p0; cbn. rewrite ?Etm. now split. }
  destruct (sameOption Num.same _ _); [assumption|].
  unfold rerender. now do 2 apply pass_oneLoop.
Qed.

Theorem step_oneLoop (fuel : nat) (now : Q) (e : Event) (p p' : Page) :
  oneLoop p -> step fuel now e p = Went p' -> oneLoop p'.
Proof.
  intros Hs. unfold step. destruct (negb (enabled e (app p))); [discriminate|].
  destruct e as [i| | | | | | |b v|];
    try (intros [= <-]; now apply dispatch_oneLoop).
  - destruct (startRun fuel (app p)); [|discriminate].
    intros [= <-]. now apply dispatch_oneLoop.
  - destruct (onRoundsChange b v (app p)); [|discriminate].
    intros [= <-]. now apply dispatch_oneLoop.
  - intros [= <-]. now apply frame_oneLoop.
Qed.

Theorem run_oneLoop (fuel : nat) (es : list (Q * Event)) :
  forall p p', oneLoop p -> run fuel es p = Went p' -> oneLoop p'.
Proof.
  induction es as [|[now e] es IH]; intros p p' Hs; cbn [run].
  - now intros [= <-].
  - destruct (step fuel now e p) as [q| | |] eqn:E; try discriminate.
    apply IH. now apply (step_oneLoop fuel now e p).
Qed.

Lemma initialPage_oneLoop (now : Q) (lib : list Workout) (i : nat) (m : Mode) :
  oneLoop (initialPage now lib i m).
Proof.
  unfold initialPage, rerender. do 2 apply pass_oneLoop.
  unfold oneLoop. cbn. split; [reflexivity | lia].
Qed.

(** ** A started run shows its first step *)

(** After Start the first step of a schedule that is not empty
    dereferences to a block and an exercise of the routine (lines
    155-157), so the card of that exercise is shown. *)
Lemma start_shows_first_step (fuel : nat) (now : Q) (p p' : Page) :
  step fuel now Start p = Went p' ->
  schedule (app p') <> [] ->
  idx (app p') = 0%nat /\ mode (app p') = RUN /\
  exists c blk e,
    cur (app p') = Some c /\ currentBlock (app p') = Some blk /\
    current (app p') = Some e /\ view (app p') = RunCard c blk e.
Proof.
  unfold step. destruct (negb (enabled Start (app p))); [discriminate|].
  unfold startRun. destruct (buildSchedule fuel (blocks (app p))) as [steps|] eqn:Eb;
    [|discriminate].
  intros [= <-] Hne.
  pose proof (dispatch_runFields now [setSchedule steps; setIdx 0; setMode RUN] p) as Hf.
  remember (dispatch now [setSchedule steps; setIdx 0; setMode RUN] p) as p' eqn:Hp'.
  unfold runFields in Hf. injection Hf as Hl Hc Hm Hs Hi.
  cbn [applyAll applyUpdate fst library currentIndex schedule idx mode] in Hl, Hc, Hm, Hs, Hi.
  split; [assumption|]. split; [assumption|].
  apply buildSchedule_Some in Eb as [-> _].
  rewrite Hs in Hne.
  destruct (scheduleSpec (blocks (app p))) as [|c rest] eqn:Es; [contradiction|].
  assert (Hin : c ∈ scheduleSpec (blocks (app p))) by (rewrite Es; left).
  apply scheduleSpec_elem in Hin as (blk & e & Hb & He & _).
  assert (Hbl : blocks (app p') = blocks (app p))
    by (unfold blocks, workout; now rewrite Hl, Hc).
  assert (Hcur : cur (app p') = Some c) by (unfold cur; now rewrite Hs, Hi).
  assert (Hcb : currentBlock (app p') = Some blk)
    by (unfold currentBlock; now rewrite Hcur, Hbl).
  assert (Hcu : current (app p') = Some e)
    by (unfold current; now rewrite Hcur, Hcb).
  exists c, blk, e. repeat split; try assumption.
  unfold view. now rewrite Hm, Hcur, Hcb, Hcu.
Qed.

(** While the timer is paused no frame changes [remaining]. *)
Lemma paused_holds_remaining (t : Q) (p : Page) (tm : Timer) :
  oneLoop p -> bigTimer p = Some tm -> trunning tm = false ->
  remainingOf (frame t p) = Some (remaining tm) /\ callbacks (raf (frame t p)) = [].
Proof.
  intros [Hp Hn] Htm Hr. rewrite Htm in Hp.
  destruct Hp as [Hc | (h & cb & _ & _ & _ & _ & _ & Ht)]; [|congruence].
  unfold frame. rewrite Hc. cbn [fold_left].
  unfold remainingOf. cbn [bigTimer]. rewrite Htm. cbn [option_map sameOption].
  rewrite same_refl. cbn. auto.
Qed.

(** ** A resume counts down from the whole of [ms] *)

Lemma settled_inSync (p : Page) : settled p -> inSync p.
Proof. intros (? & ? & _). now split. Qed.

(** A render of a page in step with its last render touches neither
    the timer nor the requested frames nor [running]. *)
Lemma pass_inSync (now : Q) (p : Page) :
  inSync p ->
  inSync (pass now p) /\ bigTimer (pass now p) = bigTimer p /\
  raf (pass now p) = raf p /\ running (app (pass now p)) = running (app p).
Proof.
  intros [Hd Hsync]. unfold pass. rewrite Hd, sameDeps_refl. cbn [negb].
  unfold commitTimer.
  destruct (bigTimer p) as [tm|] eqn:Etm,
           (bigTimerElement (app p)) as [[[key ms] run]|] eqn:Eel;
    cbn [timerInSync] in Hsync; try contradiction.
  - destruct Hsync as (Hk & Hm & Hr).
    rewrite <- Hk, Nat.eqb_refl. unfold updateTimer.
    rewrite Hm, Hr, Bool.eqb_reflx. cbn [negb orb].
    pose proof (applyAll_complete (remaining tm) (app p)) as (Hf & Hseed & Hrun & _ & _).
    unfold inSync. cbn [app effectDeps bigTimer raf].
    rewrite (bigTimerElement_same _ _ Hf Hseed Hrun), Eel.
    cbn [timerInSync]. repeat split; auto.
    f_equal. apply depsOf_runFields. now symmetry.
  - unfold inSync. cbn. rewrite Eel. repeat split; auto.
Qed.

Lemma rerender_inSync (now : Q) (p : Page) :
  inSync p ->
  inSync (rerender now p) /\ bigTimer (rerender now p) = bigTimer p /\
  raf (rerender now p) = raf p /\ running (app (rerender now p)) = running (app p).
Proof.
  intros H. unfold rerender.
  destruct (pass_inSync now p H) as (H1 & Ht1 & Hr1 & Hn1).
  destruct (pass_inSync now (pass now p) H1) as (H2 & Ht2 & Hr2 & Hn2).
  repeat split; try apply H2; congruence.
Qed.

Lemma sameProps_inSync (p q : Page) : inSync p -> sameProps p q -> inSync q.
Proof.
  intros [Hd Hs] (Ha & He & Ht). unfold inSync. rewrite Ha, He.
  split; [assumption|]. unfold timerInSync in *.
  destruct (bigTimer p) as [tm|], (bigTimer q) as [tm'|]; try contradiction; auto.
  destruct (bigTimerElement (app p)) as [[[key ms] run]|]; [|assumption].
  destruct Ht as (-> & -> & ->). assumption.
Qed.

(** The first render after the Start button of a paused timer: the
    effect requests a frame for a closure with the time of the render
    as [start] and the [ms] of the exercise. *)
Lemma resume_pass (now : Q) (p : Page) (tm : Timer) (ms : number) :
  inSync p -> oneLoop p ->
  bigTimerElement (app p) = Some (seed (app p), ms, false) ->
  bigTimer p = Some tm ->
  let q := pass now (withApp (applyUpdate (setRunning negb) (app p)) p) in
  inSync q /\ running (app q) = true /\
  bigTimer q = Some (withRafRef (nextHandle (raf p)) (withProps ms true tm)) /\
  callbacks (raf q) =
    [(nextHandle (raf p), {| owner := tid tm; start := Fin now; loopMs := ms |})].
Proof.
  intros [Hd Hsync] [Hone _] Hel Htm.
  rewrite Htm, Hel in Hsync. cbn [timerInSync] in Hsync. destruct Hsync as (Hk & Hm & Hr).
  rewrite Htm in Hone.
  assert (Hcb : callbacks (raf p) = []).
  { destruct Hone as [H | (h & cb & _ & _ & _ & _ & _ & Ht)]; [assumption | congruence]. }
  assert (Hrun : running (app p) = false).
  { unfold bigTimerElement in Hel. destruct (view (app p)) as [|c blk e|]; try discriminate.
    destruct (unit e); [|discriminate]. now injection Hel. }
  set (a' := applyUpdate (setRunning negb) (app p)).
  assert (Hf : runFields a' = runFields (app p)) by reflexivity.
  assert (Hel' : bigTimerElement a' = Some (seed (app p), ms, true)).
  { rewrite (bigTimerElement_runFields (app p) a') by (now symmetry).
    rewrite Hel. unfold a'. cbn. now rewrite Hrun. }
  cbn zeta. unfold pass. cbn [app effectDeps withApp]. rewrite Hel'.
  unfold commitTimer. cbn [bigTimer raf instances withApp]. rewrite Htm.
  rewrite <- Hk, Nat.eqb_refl. unfold updateTimer.
  rewrite Hm, Hr. cbn [negb orb Bool.eqb].
  unfold countdownCleanup, countdownEffect. rewrite Hr. cbn [withProps trunning negb].
  unfold requestAnimationFrame. rewrite Hcb.
  rewrite Hd, (depsOf_runFields _ _ Hf), sameDeps_refl. cbn [negb].
  pose proof (applyAll_complete (remaining tm) a') as (Hf' & Hseed & Hrun' & _ & _).
  cbn [bigTimer raf app effectDeps callbacks].
  split; [|split; [|split; reflexivity]].
  - unfold inSync. cbn [app effectDeps bigTimer].
    split; [f_equal; apply depsOf_runFields; now symmetry|].
    rewrite (bigTimerElement_same _ _ Hf' Hseed Hrun'), Hel'.
    cbn. repeat split; auto. apply same_refl.
  - rewrite Hrun'. unfold a'. cbn. now rewrite Hrun.
Qed.

(** Resuming a paused timer and running the next frame: whatever was
    left of the countdown, [remaining] becomes [ms] less the time since
    the resume. *)
Theorem resume_counts_from_ms
    (fuel : nat) (now t : Q) (p : Page) (tm : Timer)
    (c : Step) (blk : Block) (e : Exercise) :
  settled p -> oneLoop p ->
  view (app p) = RunCard c blk e -> unit e = seconds ->
  bigTimer p = Some tm -> running (app p) = false ->
  exists p1 p2,
    step fuel now Toggle p = Went p1 /\
    step fuel t Frame p1 = Went p2 /\
    running (app p1) = true /\
    remainingOf p1 = Some (remaining tm) /\
    remainingOf p2 =
      Some (Math.max (ofZ 0)
              (Num.sub (toMs (duration e)) (Num.sub (Fin t) (Fin now)))).
Proof.
  intros Hset Hone Hview Hunit Htm Hrun.
  pose proof (settled_inSync p Hset) as Hin.
  remember (toMs (duration e)) as ms eqn:Hms.
  assert (Hel : bigTimerElement (app p) = Some (seed (app p), ms, false)).
  { unfold bigTimerElement. now rewrite Hview, Hunit, Hrun, Hms. }
  pose proof (resume_pass now p tm ms Hin Hone Hel Htm) as (Hq & Hqrun & Hqt & Hqc).
  set (q := pass now (withApp (applyUpdate (setRunning negb) (app p)) p)) in *.
  destruct (pass_inSync now q Hq) as (Hp1 & Hp1t & Hp1r & Hp1n).
  set (p1 := pass now q) in *.
  set (cb := {| owner := tid tm; start := Fin now; loopMs := ms |}) in *.
  set (tm1 := withRafRef (nextHandle (raf p)) (withProps ms true tm)) in *.
  assert (Hstep1 : step fuel now Toggle p = Went p1).
  { unfold step, enabled. rewrite Hview, Hunit. cbn [Unit_eqb negb].
    unfold dispatch, onToggle. cbn [applyAll changes]. rewrite Hrun. reflexivity. }
  exists p1, (frame t p1). split; [exact Hstep1|].
  split; [reflexivity|]. split; [congruence|]. split.
  { unfold remainingOf. rewrite Hp1t, Hqt. reflexivity. }
  unfold frame. rewrite Hp1r, Hqc. cbn [fold_left snd].
  set (p0 := {| app := app p1; effectDeps := effectDeps p1; bigTimer := bigTimer p1;
                raf := {| callbacks := []; nextHandle := nextHandle (raf q) |};
                instances := instances p1 |}).
  assert (Hp0 : bigTimer p0 = Some tm1) by (cbn; congruence).
  assert (Hin0 : inSync p0) by exact Hp1.
  pose proof (loop_remaining cb t p0 tm1 Hp0 eq_refl) as Hrem.
  pose proof (sameProps_inSync _ _ Hin0 (loop_sameProps cb t p0)) as Hin1.
  cbn [loopMs start cb] in Hrem.
  destruct (sameOption Num.same (remainingOf p1) (remainingOf (loop cb t p0)));
    [exact Hrem|].
  destruct (rerender_inSync t _ Hin1) as (_ & Ht' & _ & _).
  unfold remainingOf in *. now rewrite Ht'.
Qed.

(* ================================================================== *)
(** * Further properties of the code *)
(* ================================================================== *)

(** ** [toMs] and the seconds [BigTimer] displays *)

Lemma Qfloor_half (m : Z) : Qfloor (inject_Z m + (1 # 2)) = m.
Proof.
  assert (H1 : m <= Qfloor (inject_Z m + (1 # 2))).
  { rewrite <- (Qfloor_Z m) at 1. apply Qfloor_resp_le.
    rewrite <- (Qplus_0_r (inject_Z m)) at 1. apply Qplus_le_r. discriminate. }
  assert (H2 : Qfloor (inject_Z m + (1 # 2)) < m + 1).
  { rewrite Zlt_Qlt. apply Qle_lt_trans with (inject_Z m + (1 # 2))%Q; [apply Qfloor_le|].
    rewrite inject_Z_plus. apply Qplus_lt_r. reflexivity. }
  lia.
Qed.

Lemma max_0_ofZ (z : Z) : Math.max (ofZ 0) (ofZ z) = ofZ (Z.max 0 z).
Proof.
  unfold Math.max, ofZ. destruct (Qle_bool (inject_Z 0) (inject_Z z)) eqn:E.
  - apply Qle_bool_iff in E. rewrite <- Zle_Qle in E. now rewrite Z.max_r.
  - assert (z < 0).
    { destruct (Z_lt_le_dec z 0) as [|H]; [assumption|].
      rewrite Zle_Qle in H. apply Qle_bool_iff in H. congruence. }
    now rewrite Z.max_l by lia.
Qed.

(** [toMs] of a finite number: the whole number of milliseconds nearest
    to it, and 0 for what is below. *)
Lemma toMs_Fin (q : Q) :
  toMs (Fin q) = ofZ (Z.max 0 (Qfloor (q * 1000 + (1 # 2)))).
Proof.
  unfold toMs, Num.or, Number. cbn [Num.truthy].
  destruct (Qeq_bool q 0) eqn:E; cbn [negb Num.mul Math.round ofZ].
  - apply Qeq_bool_iff in E. rewrite max_0_ofZ. do 2 f_equal.
    rewrite E. reflexivity.
  - rewrite max_0_ofZ. do 2 f_equal.
    apply Qfloor_comp. rewrite Qred_correct. reflexivity.
Qed.

(** X1.  [toMs] never gives [NaN] or a negative number: its result is
    [Infinity] or a whole number of milliseconds from 0 on; a missing,
    zero, [NaN] or negative duration gives 0, and a whole number of
    seconds gives a thousand times as many milliseconds as long as
    these are at most [2^53], the range in which the product of the
    source is exact. *)
Theorem X1_toMs_range (sec : number) :
  (toMs sec = PInf \/ exists z, 0 <= z /\ toMs sec = ofZ z) /\
  (Num.truthy sec = false -> toMs sec = ofZ 0) /\
  (forall q, sec = Fin q -> (q <= 0)%Q -> toMs sec = ofZ 0) /\
  (forall n, sec = ofZ n -> 0 <= n -> 1000 * n <= 2 ^ 53 ->
             toMs sec = ofZ (1000 * n)).
Proof.
  split; [|split; [|split]].
  - destruct sec as [| | |q].
    + right. exists 0. split; [lia | reflexivity].
    + now left.
    + right. exists 0. split; [lia | reflexivity].
    + right. eexists. split; [|apply toMs_Fin]. lia.
  - intros H. destruct sec as [| | |q]; try discriminate; try reflexivity.
    cbn in H. apply negb_false_iff, Qeq_bool_iff in H.
    rewrite toMs_Fin. f_equal.
    assert (Hq : Qfloor (q * 1000 + (1 # 2)) = 0).
    { rewrite (Qfloor_comp _ (inject_Z 0 + (1 # 2))%Q); [apply Qfloor_half|].
      rewrite H. reflexivity. }
    rewrite Hq. reflexivity.
  - intros q -> Hq. rewrite toMs_Fin. f_equal.
    assert (H : Qfloor (q * 1000 + (1 # 2)) <= 0).
    { rewrite <- (Qfloor_half 0). apply Qfloor_resp_le.
      apply Qplus_le_l. change (inject_Z 0) with (0 * 1000)%Q.
      apply Qmult_le_compat_r; [assumption | discriminate]. }
    lia.
  - intros n -> Hn _. unfold ofZ at 1. rewrite toMs_Fin. f_equal.
    rewrite (Qfloor_comp _ (inject_Z (1000 * n) + (1 # 2))%Q).
    + rewrite Qfloor_half. lia.
    + rewrite inject_Z_mult. apply Qplus_comp; [|reflexivity].
      apply Qmult_comm.
Qed.

Lemma X1_toMs_range_witness :
  toMs NaN = ofZ 0 /\ toMs (Fin (-5 # 2)) = ofZ 0 /\ toMs (ofZ 30) = ofZ 30000.
Proof.
  split; [|split].
  - exact (proj1 (proj2 (X1_toMs_range NaN)) eq_refl).
  - refine (proj1 (proj2 (proj2 (X1_toMs_range (Fin (-5 # 2))))) (-5 # 2)%Q eq_refl _).
    discriminate.
  - refine (proj2 (proj2 (proj2 (X1_toMs_range (ofZ 30)))) 30 eq_refl _ _); lia.
Defined.

Lemma eqb_ofZ_0 (z : Z) : Num.eqb (ofZ z) (ofZ 0) = true <-> z = 0.
Proof.
  unfold ofZ; cbn [Num.eqb]. rewrite Qeq_bool_iff.
  unfold Qeq, inject_Z; cbn [Qnum Qden]. lia.
Qed.

Lemma Qceiling_pos (x : Q) : (0 < x)%Q -> 0 < Qceiling x.
Proof.
  intros H. rewrite Zlt_Qlt. apply Qlt_le_trans with x; [assumption | apply Qle_ceiling].
Qed.

(** X2.  While [remaining] is not negative, [BigTimer] displays 0 (in
    red) exactly when [remaining] is 0, which is when it calls
    [onComplete]; it never displays a negative number, and for a whole
    number of milliseconds it displays the seconds rounded up. *)
Theorem X2_displayed_seconds (tm : Timer) :
  Num.leb (ofZ 0) (remaining tm) = true ->
  (Num.eqb (displayedSeconds tm) (ofZ 0) = true <->
   completeEffect (remaining tm) = onComplete) /\
  Num.leb (ofZ 0) (displayedSeconds tm) = true /\
  (forall z, remaining tm = ofZ z -> displayedSeconds tm = ofZ ((z + 999) / 1000)).
Proof.
  unfold displayedSeconds, completeEffect, Num.divq. intros Hpos.
  destruct (remaining tm) as [| | |q]; try discriminate.
  - cbn. split; [split; discriminate|]. split; [reflexivity | discriminate].
  - cbn [Num.mul Math.ceil]. cbn [Num.leb ofZ] in Hpos. apply Qle_bool_iff in Hpos.
    change (inject_Z 0) with 0%Q in Hpos.
    assert (Hx : (Qred (q * / 1000) == q * / 1000)%Q) by apply Qred_correct.
    split; [|split].
    + rewrite eqb_ofZ_0. cbn [Num.eqb ofZ].
      destruct (Qeq_bool q (inject_Z 0)) eqn:E.
      * apply Qeq_bool_iff in E. split; [reflexivity|]. intros _.
        rewrite (Qceiling_comp _ (inject_Z 0)); [apply Qceiling_Z|].
        rewrite Hx, E. reflexivity.
      * split; [|discriminate]. intros H0. exfalso.
        assert (Hq : (0 < q)%Q).
        { apply Qle_lteq in Hpos as [H|H]; [assumption|].
          symmetry in H. apply Qeq_bool_iff in H.
          change (Qeq_bool q (inject_Z 0) = true) in H. congruence. }
        assert (Hc : 0 < Qceiling (Qred (q * / 1000))).
        { apply Qceiling_pos. rewrite Hx. apply Qmult_lt_0_compat; [assumption | reflexivity]. }
        lia.
    + apply leb_ofZ_Fin. rewrite Qfloor_Z. rewrite <- (Qceiling_Z 0).
      apply Qceiling_resp_le. rewrite Hx.
      apply Qmult_le_0_compat; [assumption | discriminate].
    + intros z [= ->]. f_equal.
      rewrite (Qceiling_comp _ (z # 1000)).
      * unfold Qceiling, Qfloor. cbn [Qopp Qnum Qden].
        Z.to_euclidean_division_equations. lia.
      * rewrite Hx. unfold Qeq. cbn. lia.
Qed.

Lemma X2_displayed_seconds_witness :
  displayedSeconds
    {| tid := 0; tkey := 1; tms := ofZ 5000; trunning := true;
       remaining := ofZ 4984; rafRef := Some 4%nat |} = ofZ 5 /\
  (Num.eqb (displayedSeconds
              {| tid := 0; tkey := 1; tms := ofZ 5000; trunning := true;
                 remaining := ofZ 0; rafRef := Some 4%nat |}) (ofZ 0) = true <->
   completeEffect (ofZ 0) = onComplete).
Proof.
  split.
  - exact (proj2 (proj2 (X2_displayed_seconds
             {| tid := 0; tkey := 1; tms := ofZ 5000; trunning := true;
                remaining := ofZ 4984; rafRef := Some 4%nat |} eq_refl)) 4984 eq_refl).
  - exact (proj1 (X2_displayed_seconds
             {| tid := 0; tkey := 1; tms := ofZ 5000; trunning := true;
                remaining := ofZ 0; rafRef := Some 4%nat |} eq_refl)).
Defined.

(** ** Walking through a run *)

Lemma blocks_runFields (a a' : AppState) :
  library a' = library a -> currentIndex a' = currentIndex a -> blocks a' = blocks a.
Proof. intros Hl Hc. unfold blocks, workout. now rewrite Hl, Hc. Qed.

(** On the schedule of its blocks every step dereferences: the card of
    the current exercise is shown. *)
Lemma onSchedule_view (a : AppState) :
  onSchedule a ->
  exists c blk e,
    schedule a !! idx a = Some c /\ cur a = Some c /\
    currentBlock a = Some blk /\ current a = Some e /\ view a = RunCard c blk e.
Proof.
  intros (Hm & Hs & Hi).
  destruct (lookup_lt_is_Some_2 _ _ Hi) as [c Hc].
  assert (Hin : c ∈ scheduleSpec (blocks a)).
  { rewrite <- Hs. apply list_elem_of_lookup. eauto. }
  apply scheduleSpec_elem in Hin as (blk & e & Hb & He & _).
  assert (Hcur : cur a = Some c) by exact Hc.
  assert (Hcb : currentBlock a = Some blk) by (unfold currentBlock; now rewrite Hcur).
  assert (Hcu : current a = Some e) by (unfold current; now rewrite Hcur, Hcb).
  exists c, blk, e. repeat split; try assumption.
  unfold view. now rewrite Hm, Hcur, Hcb, Hcu.
Qed.

Lemma start_onSchedule (fuel : nat) (now : Q) (p p' : Page) :
  step fuel now Start p = Went p' ->
  schedule (app p') <> [] ->
  onSchedule (app p') /\ idx (app p') = 0%nat /\ blocks (app p') = blocks (app p).
Proof.
  unfold step. destruct (negb (enabled Start (app p))); [discriminate|].
  unfold startRun. destruct (buildSchedule fuel (blocks (app p))) as [steps|] eqn:Eb;
    [|discriminate].
  intros [= <-] Hne.
  pose proof (dispatch_runFields now [setSchedule steps; setIdx 0; setMode RUN] p) as Hf.
  remember (dispatch now [setSchedule steps; setIdx 0; setMode RUN] p) as p' eqn:Hp'.
  unfold runFields in Hf. injection Hf as Hl Hc Hm Hs Hi.
  cbn [applyAll applyUpdate fst library currentIndex schedule idx mode] in Hl, Hc, Hm, Hs, Hi.
  apply buildSchedule_Some in Eb as [-> _].
  pose proof (blocks_runFields _ _ Hl Hc) as Hb.
  split; [|now split]. unfold onSchedule. rewrite Hb, Hi. repeat split; try assumption.
  destruct (schedule (app p')); [contradiction | cbn; lia].
Qed.

(** One advance inside the schedule. *)
Lemma next_onSchedule (fuel : nat) (now : Q) (p : Page) :
  onSchedule (app p) ->
  (idx (app p) + 1 < length (schedule (app p)))%nat ->
  exists p',
    step fuel now Next p = Went p' /\ onSchedule (app p') /\
    idx (app p') = (idx (app p) + 1)%nat /\
    schedule (app p') = schedule (app p) /\ blocks (app p') = blocks (app p).
Proof.
  intros Hon Hlt. pose proof Hon as (Hm & Hs & _).
  destruct (onSchedule_view _ Hon) as (c & blk & e & _ & _ & _ & _ & Hv).
  exists (dispatch now (next (app p)) p). unfold step, enabled. rewrite Hv. cbn [negb].
  pose proof (dispatch_runFields now (next (app p)) p) as Hf.
  assert (Hn : next (app p) = [setIdx (idx (app p) + 1)]).
  { unfold next. apply Nat.ltb_lt in Hlt. now rewrite Hlt. }
  rewrite Hn in *. unfold runFields in Hf. injection Hf as Hl Hc Hm' Hs' Hi.
  cbn [applyAll applyUpdate fst library currentIndex schedule idx mode] in Hl, Hc, Hm', Hs', Hi.
  pose proof (blocks_runFields _ _ Hl Hc) as Hb.
  split; [reflexivity|]. split; [|repeat split; assumption].
  unfold onSchedule. rewrite Hb, Hs', Hi, Hm', Hm, <- Hs. repeat split; assumption.
Qed.

(** The advance at the last step. *)
Lemma next_at_last (fuel : nat) (now : Q) (p : Page) :
  onSchedule (app p) ->
  (idx (app p) + 1 = length (schedule (app p)))%nat ->
  exists p',
    step fuel now Next p = Went p' /\ mode (app p') = PLAN /\
    schedule (app p') = schedule (app p).
Proof.
  intros Hon Hlast.
  destruct (onSchedule_view _ Hon) as (c & blk & e & _ & _ & _ & _ & Hv).
  exists (dispatch now (next (app p)) p). unfold step, enabled. rewrite Hv. cbn [negb].
  split; [reflexivity|].
  pose proof (dispatch_runFields now (next (app p)) p) as Hf.
  assert (Hn : next (app p) = [setMode PLAN]).
  { unfold next. rewrite Hlast, Nat.ltb_irrefl. reflexivity. }
  rewrite Hn in *. unfold runFields in Hf. injection Hf as _ _ Hm' Hs' _.
  cbn [applyAll applyUpdate fst schedule mode] in Hm', Hs'. now split.
Qed.

(** Events one after the other. *)
Lemma run_app (fuel : nat) (es1 es2 : list (Q * Event)) :
  forall r r', run fuel es1 r = Went r' -> run fuel (es1 ++ es2) r = run fuel es2 r'.
Proof.
  induction es1 as [|[t0 e0] es1 IHe]; intros r r'.
  - cbn. now intros [= ->].
  - cbn [run List.app]. change (((t0, e0) :: es1) ++ es2) with ((t0, e0) :: (es1 ++ es2)).
    cbn [run]. destruct (step fuel t0 e0 r); try discriminate. apply IHe.
Qed.

Lemma walk_onSchedule (fuel : nat) (ts : list Q) :
  forall p,
    onSchedule (app p) ->
    (idx (app p) + length ts < length (schedule (app p)))%nat ->
    exists p',
      run fuel (nexts ts) p = Went p' /\ onSchedule (app p') /\
      idx (app p') = (idx (app p) + length ts)%nat /\
      schedule (app p') = schedule (app p) /\ blocks (app p') = blocks (app p).
Proof.
  induction ts as [|t ts IH]; intros p Hon Hlt; cbn [nexts map run length] in *.
  - exists p. rewrite Nat.add_0_r. auto.
  - assert (Hlt1 : (idx (app p) + 1 < length (schedule (app p)))%nat) by lia.
    destruct (next_onSchedule fuel t p Hon Hlt1) as (p1 & Hst & Hon1 & Hi1 & Hs1 & Hb1).
    rewrite Hst.
    assert (Hlt2 : (idx (app p1) + length ts < length (schedule (app p1)))%nat).
    { rewrite Hi1, Hs1. lia. }
    destruct (IH p1 Hon1 Hlt2) as (p' & Hr & Hon' & Hi' & Hs' & Hb').
    exists p'. split; [exact Hr|]. split; [exact Hon'|].
    split; [lia|]. split; congruence.
Qed.

(** X3.  A started run is walked through in order: after Start on a
    routine with steps, pressing Next [k] times (at any times), with [k]
    below the number of steps, leads to step [k] of the schedule and
    shows the card of its exercise; pressing it as many times as there
    are steps leads back to PLAN with the schedule as it was built. *)
Theorem X3_walk_through (fuel : nat) (now : Q) (ts : list Q) (p p1 : Page) :
  step fuel now Start p = Went p1 ->
  schedule (app p1) <> [] ->
  ((length ts < length (schedule (app p1)))%nat ->
   exists p' c blk e,
     run fuel (nexts ts) p1 = Went p' /\ mode (app p') = RUN /\
     idx (app p') = length ts /\
     schedule (app p1) !! length ts = Some c /\
     view (app p') = RunCard c blk e) /\
  (length ts = length (schedule (app p1)) ->
   exists p',
     run fuel (nexts ts) p1 = Went p' /\ mode (app p') = PLAN /\
     schedule (app p') = schedule (app p1)).
Proof.
  intros Hstart Hne.
  destruct (start_onSchedule fuel now p p1 Hstart Hne) as (Hon & Hi0 & _).
  split.
  - intros Hlt.
    assert (Hlt0 : (idx (app p1) + length ts < length (schedule (app p1)))%nat) by lia.
    destruct (walk_onSchedule fuel ts p1 Hon Hlt0) as (p' & Hr & Hon' & Hi & Hs & _).
    destruct (onSchedule_view _ Hon') as (c & blk & e & Hc & _ & _ & _ & Hv).
    exists p', c, blk, e. rewrite Hi0 in Hi. cbn in Hi.
    repeat split; try assumption; try apply Hon'.
    now rewrite <- Hs, <- Hi.
  - intros Hlen.
    destruct (exists_last (l := ts)) as (ts' & t & ->).
    { intros ->. cbn in Hlen. destruct (schedule (app p1)); [contradiction | discriminate]. }
    rewrite length_app in Hlen. cbn in Hlen.
    assert (Hlt0 : (idx (app p1) + length ts' < length (schedule (app p1)))%nat) by lia.
    destruct (walk_onSchedule fuel ts' p1 Hon Hlt0) as (q & Hr & Hon' & Hi & Hs & _).
    assert (Hlast : (idx (app q) + 1 = length (schedule (app q)))%nat)
      by (rewrite Hi, Hs; lia).
    destruct (next_at_last fuel t q Hon' Hlast) as (p' & Hst & Hm & Hs').
    exists p'. split; [|split; [assumption | congruence]].
    unfold nexts. rewrite map_app.
    rewrite (run_app _ _ _ _ _ Hr). cbn [map run]. now rewrite Hst.
Qed.

Section WalkExamples.
Local Open Scope Q_scope.

Lemma X3_walk_through_witness :
  step 3 0 Start (initialPage 0 scenarioLibrary 0 PLAN) = Went scenarioStarted /\
  schedule (app scenarioStarted) <> [] /\
  (exists p' c blk e,
      run 3 (nexts [1; 2]) scenarioStarted = Went p' /\ mode (app p') = RUN /\
      idx (app p') = 2%nat /\
      schedule (app scenarioStarted) !! 2%nat = Some c /\
      view (app p') = RunCard c blk e) /\
  (exists p',
      run 3 (nexts [1; 2; 3; 4; 5]) scenarioStarted = Went p' /\ mode (app p') = PLAN /\
      schedule (app p') = schedule (app scenarioStarted)).
Proof.
  assert (Hs : step 3 0 Start (initialPage 0 scenarioLibrary 0 PLAN) = Went scenarioStarted)
    by (vm_compute; reflexivity).
  assert (Hne : schedule (app scenarioStarted) <> []) by discriminate.
  split; [exact Hs|]. split; [exact Hne|]. split.
  - apply (proj1 (X3_walk_through 3 0 [1; 2] _ _ Hs Hne)). vm_compute. lia.
  - apply (proj2 (X3_walk_through 3 0 [1; 2; 3; 4; 5] _ _ Hs Hne)). reflexivity.
Defined.

End WalkExamples.

Lemma prev_onSchedule (fuel : nat) (now : Q) (p : Page) :
  onSchedule (app p) ->
  exists p',
    step fuel now Prev p = Went p' /\ onSchedule (app p') /\
    idx (app p') = (idx (app p) - 1)%nat /\
    schedule (app p') = schedule (app p) /\ blocks (app p') = blocks (app p).
Proof.
  intros Hon. pose proof Hon as (Hm & Hs & Hi).
  destruct (onSchedule_view _ Hon) as (c & blk & e & _ & _ & _ & _ & Hv).
  exists (dispatch now (prev (app p)) p). unfold step, enabled. rewrite Hv. cbn [negb].
  pose proof (dispatch_runFields now (prev (app p)) p) as Hf.
  unfold prev in *. destruct (0 <? idx (app p))%nat eqn:E.
  - unfold runFields in Hf. injection Hf as Hl Hc Hm' Hs' Hi'.
    cbn [applyAll applyUpdate fst library currentIndex schedule idx mode]
      in Hl, Hc, Hm', Hs', Hi'.
    pose proof (blocks_runFields _ _ Hl Hc) as Hb.
    split; [reflexivity|]. split; [|repeat split; assumption].
    unfold onSchedule. rewrite Hb, Hs', Hi', Hm', <- Hs. repeat split; try assumption. lia.
  - apply Nat.ltb_ge in E. cbn. replace (idx (app p) - 1)%nat with (idx (app p)) by lia.
    repeat split; assumption.
Qed.

(** X4.  Prev at the first step does nothing at all: the page is the
    same.  Elsewhere it goes one step back and stays in RUN; it never
    changes the mode or the schedule. *)
Theorem X4_prev_retreats (fuel : nat) (now : Q) (p : Page) :
  enabled Prev (app p) = true ->
  exists p',
    step fuel now Prev p = Went p' /\
    mode (app p') = RUN /\
    schedule (app p') = schedule (app p) /\
    idx (app p') = (idx (app p) - 1)%nat /\
    (idx (app p) = 0%nat -> p' = p).
Proof.
  intros Hen. exists (dispatch now (prev (app p)) p).
  unfold step. rewrite Hen. cbn [negb]. split; [reflexivity|].
  assert (Hrun : mode (app p) = RUN).
  { unfold enabled, view in Hen. destruct (mode (app p)); [discriminate | reflexivity]. }
  pose proof (dispatch_runFields now (prev (app p)) p) as Hf.
  unfold prev in *. destruct (0 <? idx (app p))%nat eqn:E.
  - unfold runFields in Hf. injection Hf as _ _ Hm' Hs' Hi'.
    cbn [applyAll applyUpdate fst schedule idx mode] in Hm', Hs', Hi'.
    apply Nat.ltb_lt in E. repeat split; try congruence. lia.
  - apply Nat.ltb_ge in E. cbn. repeat split; auto. lia.
Qed.

(** X5.  Next and Prev undo each other on the step: inside a run on the
    schedule of its blocks, Next followed by Prev, and Prev followed by
    Next (not from the first step), lead back to the same step with the
    card of the same exercise. *)
Theorem X5_next_prev_inverse (fuel : nat) (t1 t2 : Q) (p : Page) :
  onSchedule (app p) ->
  ((idx (app p) + 1 < length (schedule (app p)))%nat ->
   exists p',
     run fuel [(t1, Next); (t2, Prev)] p = Went p' /\
     idx (app p') = idx (app p) /\ cur (app p') = cur (app p) /\
     view (app p') = view (app p)) /\
  ((0 < idx (app p))%nat ->
   exists p',
     run fuel [(t1, Prev); (t2, Next)] p = Went p' /\
     idx (app p') = idx (app p) /\ cur (app p') = cur (app p) /\
     view (app p') = view (app p)).
Proof.
  intros Hon. pose proof Hon as (Hm & _ & Hi).
  assert (Hsame : forall p', onSchedule (app p') ->
            idx (app p') = idx (app p) -> schedule (app p') = schedule (app p) ->
            blocks (app p') = blocks (app p) ->
            cur (app p') = cur (app p) /\ view (app p') = view (app p)).
  { intros p' (Hm' & _ & _) Hi' Hs' Hb'.
    assert (Hc : cur (app p') = cur (app p)) by (unfold cur; now rewrite Hi', Hs').
    assert (Hcb : currentBlock (app p') = currentBlock (app p))
      by (unfold currentBlock; now rewrite Hc, Hb').
    assert (Hcu : current (app p') = current (app p))
      by (unfold current; now rewrite Hc, Hcb).
    split; [assumption|]. unfold view. now rewrite Hm', Hm, Hc, Hcb, Hcu. }
  split.
  - intros Hlt.
    destruct (next_onSchedule fuel t1 p Hon Hlt) as (p1 & Hst1 & Hon1 & Hi1 & Hs1 & Hb1).
    destruct (prev_onSchedule fuel t2 p1 Hon1) as (p2 & Hst2 & Hon2 & Hi2 & Hs2 & Hb2).
    exists p2. cbn [run]. rewrite Hst1, Hst2.
    assert (Hidx : idx (app p2) = idx (app p)) by lia.
    split; [reflexivity|]. split; [assumption|].
    apply Hsame; congruence.
  - intros Hpos.
    destruct (prev_onSchedule fuel t1 p Hon) as (p1 & Hst1 & Hon1 & Hi1 & Hs1 & Hb1).
    assert (Hlt : (idx (app p1) + 1 < length (schedule (app p1)))%nat)
      by (rewrite Hi1, Hs1; lia).
    destruct (next_onSchedule fuel t2 p1 Hon1 Hlt) as (p2 & Hst2 & Hon2 & Hi2 & Hs2 & Hb2).
    exists p2. cbn [run]. rewrite Hst1, Hst2.
    assert (Hidx : idx (app p2) = idx (app p)) by lia.
    split; [reflexivity|]. split; [assumption|].
    apply Hsame; congruence.
Qed.

Section InverseExamples.
Local Open Scope Q_scope.

Lemma scenarioStarted_onSchedule : onSchedule (app scenarioStarted).
Proof. split; [reflexivity|]. split; [reflexivity|]. vm_compute. lia. Qed.

Lemma X4_prev_retreats_witness :
  enabled Prev (app scenarioStarted) = true /\
  exists p',
    step 3 1 Prev scenarioStarted = Went p' /\
    mode (app p') = RUN /\
    schedule (app p') = schedule (app scenarioStarted) /\
    idx (app p') = 0%nat /\
    (idx (app scenarioStarted) = 0%nat -> p' = scenarioStarted).
Proof.
  split; [reflexivity|].
  exact (X4_prev_retreats 3 1 scenarioStarted eq_refl).
Defined.

Lemma X5_next_prev_inverse_witness :
  onSchedule (app scenarioStarted) /\
  (idx (app scenarioStarted) + 1 < length (schedule (app scenarioStarted)))%nat /\
  exists p',
    run 3 [(1, Next); (2, Prev)] scenarioStarted = Went p' /\
    idx (app p') = idx (app scenarioStarted) /\
    cur (app p') = cur (app scenarioStarted) /\
    view (app p') = view (app scenarioStarted).
Proof.
  assert (Hlt : (idx (app scenarioStarted) + 1
                 < length (schedule (app scenarioStarted)))%nat) by (vm_compute; lia).
  split; [exact scenarioStarted_onSchedule|]. split; [exact Hlt|].
  exact (proj1 (X5_next_prev_inverse 3 1 2 scenarioStarted scenarioStarted_onSchedule) Hlt).
Defined.

End InverseExamples.

(** ** A change of step resets the timer *)

Lemma bigTimerElement_key (a : AppState) (key : nat) (ms : number) (run : bool) :
  bigTimerElement a = Some (key, ms, run) -> key = seed a /\ run = running a.
Proof.
  unfold bigTimerElement. destruct (view a) as [|c blk e|]; try discriminate.
  destruct (unit e); [|discriminate]. now intros [= <- _ <-].
Qed.

Lemma commitTimer_effects (now : Q) (el : option (nat * number * bool)) (p : Page) :
  exists r, snd (commitTimer now el p) = completeEffect r.
Proof.
  unfold commitTimer.
  destruct (bigTimer p) as [tm|], el as [[[key ms] run]|]; cbn; try (now exists NaN).
  - destruct (key =? tkey tm)%nat.
    + destruct (updateTimer now ms run tm (raf p)). now exists (remaining tm).
    + destruct (mountTimer now (instances p) key ms run _). now exists ms.
  - destruct (mountTimer now (instances p) key ms run (raf p)). now exists ms.
Qed.

(** The effect of line 163 has the last word on [timerDone]. *)
Lemma applyAll_stepEffect (r : number) (a : AppState) :
  let a' := fst (applyAll (completeEffect r ++ stepEffect) a) in
  runFields a' = runFields a /\ running a' = false /\ timerDone a' = false /\
  seed a' = S (seed a).
Proof.
  unfold completeEffect, onComplete, stepEffect.
  destruct (Num.eqb r (ofZ 0)); cbn; repeat split; reflexivity.
Qed.

(** A render in which the effect of line 163 runs. *)
Lemma pass_stale (now : Q) (p : Page) :
  match effectDeps p with
  | Some d => sameDeps d (depsOf (app p)) = false
  | None => True
  end ->
  runFields (app (pass now p)) = runFields (app p) /\
  running (app (pass now p)) = false /\ timerDone (app (pass now p)) = false /\
  seed (app (pass now p)) = S (seed (app p)) /\
  effectDeps (pass now p) = Some (depsOf (app (pass now p))) /\
  timerInSync (bigTimer (pass now p)) (bigTimerElement (app p)).
Proof.
  intros Hstale.
  pose proof (pass_depsOf now p) as Hd.
  pose proof (commitTimer_effects now (bigTimerElement (app p)) p) as [r Hr].
  pose proof (commitTimer_inSync now p (bigTimerElement (app p))) as Hsync.
  unfold pass in *.
  destruct (commitTimer now (bigTimerElement (app p)) p) as [[[tm' r'] n'] us].
  cbn [snd] in Hr. subst us. destruct Hsync as [Hsync _].
  assert (Hst : match effectDeps p with
                | Some d' => negb (sameDeps d' (depsOf (app p)))
                | None => true
                end = true).
  { destruct (effectDeps p); [now rewrite Hstale | reflexivity]. }
  rewrite Hst in *. cbn [app effectDeps bigTimer] in *.
  pose proof (applyAll_stepEffect r (app p)) as (Hf & Hrun & Hdone & Hseed).
  repeat split; assumption.
Qed.

(** The render after it: the timer of the old key is unmounted and, if
    the current exercise is timed, a new one is mounted, paused, with
    the whole of its [ms]. *)
Lemma pass_remount (now : Q) (p : Page) :
  effectDeps p = Some (depsOf (app p)) ->
  oneLoop p ->
  running (app p) = false -> timerDone (app p) = false ->
  (forall tm, bigTimer p = Some tm -> tkey tm <> seed (app p)) ->
  (bigTimer p = None <-> bigTimerElement (app p) = None) ->
  running (app (pass now p)) = false /\ seed (app (pass now p)) = seed (app p) /\
  runFields (app (pass now p)) = runFields (app p) /\
  callbacks (raf (pass now p)) = [] /\
  match bigTimerElement (app p) with
  | Some (_, ms, _) =>
      exists tm, bigTimer (pass now p) = Some tm /\ remaining tm = ms /\
                 trunning tm = false /\
                 timerDone (app (pass now p)) = Num.eqb ms (ofZ 0)
  | None => bigTimer (pass now p) = None /\ timerDone (app (pass now p)) = false
  end.
Proof.
  intros Hd [Hone Hnh] Hrun Hdone Hkey Hpres.
  unfold pass. rewrite Hd, sameDeps_refl. cbn [negb]. unfold commitTimer.
  destruct (bigTimer p) as [tm|] eqn:Etm,
           (bigTimerElement (app p)) as [[[key ms] run]|] eqn:Eel.
  - destruct (bigTimerElement_key _ _ _ _ Eel) as [-> ->].
    assert (Hk : (seed (app p) =? tkey tm)%nat = false).
    { apply Nat.eqb_neq. intros H. now apply (Hkey tm eq_refl). }
    rewrite Hk, Hrun. unfold mountTimer, countdownEffect. cbn [trunning negb cancelRef rafRef].
    destruct (countdownCleanup_clears tm (raf p) Hone) as [Hc _].
    pose proof (applyAll_complete ms (app p)) as (Hf & Hseed & Hrun' & Hd1 & _).
    cbn [app raf bigTimer].
    split; [congruence|]. split; [assumption|]. split; [assumption|]. split; [assumption|].
    eexists. split; [reflexivity|]. cbn [remaining trunning].
    split; [reflexivity|]. split; [reflexivity|].
    unfold completeEffect, onComplete in *. destruct (Num.eqb ms (ofZ 0)); cbn; auto.
  - destruct Hpres as [_ H]. now specialize (H eq_refl).
  - destruct Hpres as [H _]. now specialize (H eq_refl).
  - cbn. repeat split; auto.
Qed.

(** A handler that sets another [idx]. *)
Lemma index_change_resets (now : Q) (i : nat) (p : Page) :
  settled p -> oneLoop p -> i <> idx (app p) ->
  let p' := dispatch now [setIdx i] p in
  idx (app p') = i /\ running (app p') = false /\
  seed (app p') = S (seed (app p)) /\
  callbacks (raf p') = [] /\
  match bigTimerElement (app p') with
  | Some (_, ms, _) =>
      exists tm, bigTimer p' = Some tm /\ remaining tm = ms /\ trunning tm = false /\
                 timerDone (app p') = Num.eqb ms (ofZ 0)
  | None => bigTimer p' = None /\ timerDone (app p') = false
  end.
Proof.
  intros (Hd & _ & _) Hone Hi. cbn zeta. unfold dispatch. cbn [applyAll changes].
  assert (Hne : (i =? idx (app p))%nat = false) by now apply Nat.eqb_neq.
  rewrite Hne. cbn [negb orb]. unfold rerender.
  set (a' := applyUpdate (setIdx i) (app p)).
  set (q := withApp a' p).
  assert (Hstale : match effectDeps q with
                   | Some d => sameDeps d (depsOf (app q)) = false
                   | None => True
                   end).
  { cbn [q withApp effectDeps app]. rewrite Hd. unfold depsOf, sameDeps.
    replace (idx a') with i by reflexivity.
    rewrite Nat.eqb_sym, Hne. reflexivity. }
  destruct (pass_stale now q Hstale) as (Hf & Hrun & Hdone & Hseed & Hd1 & Hsync).
  assert (Hone1 : oneLoop (pass now q)) by (apply pass_oneLoop; exact Hone).
  set (p1 := pass now q) in *.
  assert (Hel : bigTimerElement (app p1) =
                match bigTimerElement a' with
                | Some (_, ms, _) => Some (seed (app p1), ms, running (app p1))
                | None => None
                end).
  { apply bigTimerElement_runFields. now symmetry. }
  cbn [q withApp app] in Hsync, Hseed.
  assert (Hkey : forall tm, bigTimer p1 = Some tm -> tkey tm <> seed (app p1)).
  { intros tm Htm. rewrite Htm in Hsync.
    destruct (bigTimerElement a') as [[[key ms] run]|] eqn:Ea; [|contradiction].
    destruct (bigTimerElement_key _ _ _ _ Ea) as [-> _].
    destruct Hsync as (-> & _). rewrite Hseed. unfold a'. cbn. lia. }
  assert (Hpres : bigTimer p1 = None <-> bigTimerElement (app p1) = None).
  { rewrite Hel. destruct (bigTimer p1), (bigTimerElement a') as [[[key ms] run]|];
      cbn in Hsync; try contradiction; split; congruence. }
  destruct (pass_remount now p1 Hd1 Hone1 Hrun Hdone Hkey Hpres)
    as (Hrun2 & Hseed2 & Hf2 & Hcb & Htm).
  assert (Hel2 : bigTimerElement (app (pass now p1)) = bigTimerElement (app p1)).
  { apply bigTimerElement_same; congruence. }
  rewrite Hel2.
  split; [|split; [assumption|split; [|split; assumption]]].
  - unfold runFields in Hf, Hf2. injection Hf2 as _ _ _ _ ->. now injection Hf as _ _ _ _ ->.
  - rewrite Hseed2, Hseed. reflexivity.
Qed.

Lemma pageAfter_settled (fuel : nat) (es : list (Q * Event)) (p : Page) :
  settled p -> settled (pageAfter fuel es p).
Proof.
  intros H. unfold pageAfter. destruct (run fuel es p) eqn:E; try assumption.
  exact (run_settled fuel es p p0 H E).
Qed.

Lemma pageAfter_oneLoop (fuel : nat) (es : list (Q * Event)) (p : Page) :
  oneLoop p -> oneLoop (pageAfter fuel es p).
Proof.
  intros H. unfold pageAfter. destruct (run fuel es p) eqn:E; try assumption.
  exact (run_oneLoop fuel es p p0 H E).
Qed.

(** X6.  Going to another step resets the timer (lines 163, 166, 167
    and the [key={seed}] of line 283).  On a page reached from the first
    render, when Next, Done or Prev has changed [idx]: [running] is off,
    [seed] has grown by one, no animation frame is left requested, and
    either the new exercise is timed and a new timer is mounted, paused,
    with [remaining] the whole of its [ms] (and [timerDone] is set at
    once exactly when that is 0), or there is no timer and [timerDone]
    is off.  What was left of the previous countdown plays no part. *)
Theorem X6_step_change_resets_timer
    (fuel : nat) (now : Q) (e : Event) (p p' : Page) :
  settled p -> oneLoop p ->
  e = Next \/ e = Done \/ e = Prev ->
  step fuel now e p = Went p' ->
  idx (app p') <> idx (app p) ->
  running (app p') = false /\
  seed (app p') = S (seed (app p)) /\
  callbacks (raf p') = [] /\
  match view (app p') with
  | RunCard _ _ ex =>
      match unit ex with
      | seconds =>
          exists tm, bigTimer p' = Some tm /\
                     remaining tm = toMs (duration ex) /\ trunning tm = false /\
                     timerDone (app p') = Num.eqb (toMs (duration ex)) (ofZ 0)
      | reps => bigTimer p' = None /\ timerDone (app p') = false
      end
  | _ => bigTimer p' = None /\ timerDone (app p') = false
  end.
Proof.
  intros Hs Ho He Hstep Hidx.
  assert (Hus : exists us, p' = dispatch now us p /\
                           (us = next (app p) \/ us = prev (app p))).
  { unfold step in Hstep. destruct (negb (enabled e (app p))); [discriminate|].
    destruct He as [-> | [-> | ->]]; injection Hstep as <-; eauto. }
  destruct Hus as (us & -> & Hus).
  assert (Hi : exists i, us = [setIdx i] /\ i <> idx (app p)).
  { pose proof (dispatch_runFields now us p) as Hf.
    destruct Hus as [-> | ->]; unfold next, prev in *.
    - destruct (idx (app p) + 1 <? length (schedule (app p)))%nat.
      + eexists. split; [reflexivity | lia].
      + exfalso. apply Hidx. unfold runFields in Hf. now injection Hf.
    - destruct (0 <? idx (app p))%nat eqn:E.
      + apply Nat.ltb_lt in E. eexists. split; [reflexivity | lia].
      + exfalso. apply Hidx. reflexivity. }
  destruct Hi as (i & -> & Hi).
  destruct (index_change_resets now i p Hs Ho Hi) as (_ & Hrun & Hseed & Hcb & Htm).
  split; [assumption|]. split; [assumption|]. split; [assumption|].
  unfold bigTimerElement in Htm.
  destruct (view (app (dispatch now [setIdx i] p))) as [|c blk ex|]; try assumption.
  destruct (unit ex); assumption.
Qed.

Section ResetExamples.
Local Open Scope Q_scope.

(** The timer of the five-second exercise has run for two seconds; then
    Next and Prev: the timer is new and holds 5000 ms again. *)
Lemma X6_step_change_resets_timer_witness :
  let p := pageAfter 2 [(2000, Frame); (2500, Next)] fiveSecondsRunning in
  exists p',
    step 2 3000 Prev p = Went p' /\
    running (app p') = false /\
    seed (app p') = S (seed (app p)) /\
    callbacks (raf p') = [] /\
    exists tm, bigTimer p' = Some tm /\ remaining tm = ofZ 5000 /\
               trunning tm = false /\ timerDone (app p') = false.
Proof.
  cbn zeta.
  set (p := pageAfter 2 [(2000, Frame); (2500, Next)] fiveSecondsRunning).
  assert (Hs : settled p).
  { apply pageAfter_settled. unfold fiveSecondsRunning.
    apply pageAfter_settled, initialPage_settled. }
  assert (Ho : oneLoop p).
  { apply pageAfter_oneLoop. unfold fiveSecondsRunning.
    apply pageAfter_oneLoop, initialPage_oneLoop. }
  destruct (step 2 3000 Prev p) as [p'| | |] eqn:E; try (vm_compute in E; discriminate).
  assert (Hi : idx (app p') <> idx (app p)).
  { assert (H : Went p' = step 2 3000 Prev p) by (symmetry; exact E).
    vm_compute in H. injection H as ->. vm_compute. lia. }
  pose proof (X6_step_change_resets_timer 2 3000 Prev p p' Hs Ho
                (or_intror (or_intror eq_refl)) E Hi) as (Hr & Hsd & Hcb & Htm).
  assert (Hv : exists c blk, view (app p') =
            RunCard c blk {| description := "Hold"; duration := ofZ 5;
                             unit := seconds; instructions := None |}).
  { assert (H : Went p' = step 2 3000 Prev p) by (symmetry; exact E).
    vm_compute in H. injection H as ->. vm_compute. eauto. }
  destruct Hv as (c & blk & Hv). rewrite Hv in Htm. cbn [unit duration] in Htm.
  destruct Htm as (tm & H1 & H2 & H3 & H4).
  exists p'. split; [reflexivity|]. split; [exact Hr|]. split; [exact Hsd|].
  split; [exact Hcb|]. exists tm. split; [exact H1|]. split; [exact H2|].
  split; [exact H3|]. exact H4.
Defined.

End ResetExamples.

(** ** What holds on every page the events reach *)

(** X7.  On every page reached from the first render by whatever
    events (lines 52-69, 163, 269-284, 305-315): at most one animation
    frame is requested, and none while [running] is off; a mounted
    [BigTimer] is the one of the current render, with the key [seed],
    the [running] of [App] and the [ms] of a timed current exercise of
    a run, and once its [remaining] is 0 [timerDone] is set; and a
    requested frame belongs to that timer and counts down from its
    [ms]. *)
Theorem X7_reachable_pages
    (fuel : nat) (now : Q) (lib : list Workout) (i : nat) (m : Mode)
    (es : list (Q * Event)) (p : Page) :
  run fuel es (initialPage now lib i m) = Went p ->
  (length (callbacks (raf p)) <= 1)%nat /\
  (running (app p) = false -> callbacks (raf p) = []) /\
  (forall tm, bigTimer p = Some tm ->
     tkey tm = seed (app p) /\ trunning tm = running (app p) /\
     (exists c blk e, view (app p) = RunCard c blk e /\ unit e = seconds /\
                      Num.same (tms tm) (toMs (duration e)) = true) /\
     (Num.eqb (remaining tm) (ofZ 0) = true -> timerDone (app p) = true)) /\
  (forall h cb, (h, cb) ∈ callbacks (raf p) ->
     exists tm, bigTimer p = Some tm /\ owner cb = tid tm /\ loopMs cb = tms tm /\
                rafRef tm = Some h).
Proof.
  intros Hrun.
  pose proof (run_settled fuel es _ p (initialPage_settled now lib i m) Hrun)
    as (_ & Hsync & Hdone).
  pose proof (run_oneLoop fuel es _ p (initialPage_oneLoop now lib i m) Hrun)
    as [Hone _].
  assert (Htm : forall tm, bigTimer p = Some tm ->
            tkey tm = seed (app p) /\ trunning tm = running (app p) /\
            exists c blk e, view (app p) = RunCard c blk e /\ unit e = seconds /\
                            Num.same (tms tm) (toMs (duration e)) = true).
  { intros tm E. rewrite E in Hsync. unfold timerInSync, bigTimerElement in Hsync.
    destruct (view (app p)) as [|c blk e|]; try contradiction.
    destruct (unit e) eqn:Eu; [|contradiction].
    destruct Hsync as (? & ? & ?). eauto 10. }
  destruct (bigTimer p) as [tm|] eqn:E.
  - destruct (Htm tm eq_refl) as (Hk & Hr & Hv).
    destruct Hone as [Hc | (h & cb & Hc & Href & Hh & Ho & Hm & Ht)]; rewrite Hc.
    + split; [cbn; lia|]. split; [reflexivity|]. split.
      * intros tm' [= <-]. split; [exact Hk|]. split; [exact Hr|]. split; [exact Hv|].
        exact (Hdone tm eq_refl).
      * intros h cb Hin. now apply elem_of_nil in Hin.
    + split; [cbn; lia|]. split; [congruence|]. split.
      * intros tm' [= <-]. split; [exact Hk|]. split; [exact Hr|]. split; [exact Hv|].
        exact (Hdone tm eq_refl).
      * intros h' cb' Hin. apply list_elem_of_singleton in Hin as [= -> ->].
        exists tm. auto.
  - rewrite Hone. split; [cbn; lia|]. split; [reflexivity|]. split; [discriminate|].
    intros h cb Hin. now apply elem_of_nil in Hin.
Qed.

(** ** Animation frames *)

(** A frame on a page with nothing requested changes nothing. *)
Lemma frame_idle (t : Q) (p : Page) : callbacks (raf p) = [] -> frame t p = p.
Proof.
  intros Hc. unfold frame. rewrite Hc. cbn [fold_left].
  unfold remainingOf. cbn [bigTimer].
  assert (H : sameOption Num.same (option_map remaining (bigTimer p))
                (option_map remaining (bigTimer p)) = true).
  { destruct (bigTimer p); cbn; [apply same_refl | reflexivity]. }
  rewrite H. destruct p as [a d tm [cbs n] k]. cbn in *. now subst.
Qed.

(** A frame on a page with the callback [cb] requested. *)
Lemma frame_pending (t : Q) (p : Page) (tm : Timer) (h : nat) (cb : Loop) :
  settled p -> oneLoop p ->
  bigTimer p = Some tm -> callbacks (raf p) = [(h, cb)] ->
  let nx := Math.max (ofZ 0) (Num.sub (tms tm) (Num.sub (Fin t) (start cb))) in
  remainingOf (frame t p) = Some nx /\
  callbacks (raf (frame t p)) =
    (if Num.gtb nx (ofZ 0) then [(nextHandle (raf p), cb)] else []) /\
  (exists tm', bigTimer (frame t p) = Some tm' /\ tms tm' = tms tm) /\
  runFields (app (frame t p)) = runFields (app p) /\
  running (app (frame t p)) = running (app p).
Proof.
  intros Hset [Hone Hn] Htm Hc. cbn zeta.
  rewrite Htm in Hone.
  destruct Hone as [H0 | (h' & cb' & Hc' & Href & Hh & Ho & Hm & Ht)]; [congruence|].
  assert (cb' = cb) by congruence. subst cb'. clear Hc'.
  pose proof (frame_settled t p Hset) as Hset'.
  unfold frame in *. rewrite Hc in *. cbn [fold_left snd] in *.
  set (p0 := {| app := app p; effectDeps := effectDeps p; bigTimer := bigTimer p;
                raf := {| callbacks := []; nextHandle := nextHandle (raf p) |};
                instances := instances p |}) in *.
  assert (Hp0 : bigTimer p0 = Some tm) by exact Htm.
  assert (Hin0 : inSync p0) by (apply settled_inSync in Hset; exact Hset).
  pose proof (loop_remaining cb t p0 tm Hp0 (eq_sym Ho)) as Hrem.
  pose proof (loop_sameProps cb t p0) as Hsame.
  pose proof (sameProps_inSync _ _ Hin0 Hsame) as Hin1.
  rewrite Hm in Hrem.
  set (nx := Math.max (ofZ 0) (Num.sub (tms tm) (Num.sub (Fin t) (start cb)))) in *.
  assert (Hcb : callbacks (raf (loop cb t p0)) =
                (if Num.gtb nx (ofZ 0) then [(nextHandle (raf p), cb)] else [])).
  { unfold loop. rewrite Hm. fold nx.
    destruct (Num.gtb nx (ofZ 0)).
    - unfold requestAgain, requestAnimationFrame, setRemaining.
      rewrite Hp0, <- Ho, Nat.eqb_refl. reflexivity.
    - unfold setRemaining. rewrite Hp0, <- Ho, Nat.eqb_refl. reflexivity. }
  assert (Htms : exists tm', bigTimer (loop cb t p0) = Some tm' /\ tms tm' = tms tm).
  { destruct Hsame as (_ & _ & Hs). rewrite Hp0 in Hs.
    destruct (bigTimer (loop cb t p0)) as [tm'|]; [|contradiction].
    exists tm'. split; [reflexivity|]. now destruct Hs as (_ & ? & _). }
  assert (Happ : app (loop cb t p0) = app p).
  { destruct Hsame as (Ha & _). assert (H0 : app p0 = app p) by reflexivity. congruence. }
  destruct (sameOption Num.same (remainingOf p) (remainingOf (loop cb t p0))).
  - rewrite Happ. repeat split; auto.
  - destruct (rerender_inSync t _ Hin1) as (_ & Ht' & Hr' & Hrun').
    unfold remainingOf in *. rewrite Ht', Hr', Hrun', rerender_runFields, Happ.
    repeat split; auto.
Qed.

(** X8.  The countdown follows the time stamps of the frames, not their
    number (lines 56-67 and 308-309).  With a frame requested for the
    closure [cb], a frame at [t] leaves
    [max(0, ms - (t - start))]; while that is above 0 the same closure
    is requested again, so that a later frame at [t2] gives the same
    [remaining] whether or not the frame at [t1] came in between; once
    it is not above 0 nothing is requested any more and further frames
    change nothing, and at 0 [timerDone] is set. *)
Theorem X8_countdown_by_time_stamp
    (t1 t2 : Q) (p : Page) (tm : Timer) (h : nat) (cb : Loop) :
  settled p -> oneLoop p ->
  bigTimer p = Some tm -> callbacks (raf p) = [(h, cb)] ->
  let left t := Math.max (ofZ 0) (Num.sub (tms tm) (Num.sub (Fin t) (start cb))) in
  remainingOf (frame t1 p) = Some (left t1) /\
  remainingOf (frame t2 p) = Some (left t2) /\
  (Num.gtb (left t1) (ofZ 0) = true ->
   remainingOf (frame t2 (frame t1 p)) = Some (left t2)) /\
  (Num.gtb (left t1) (ofZ 0) = false ->
   callbacks (raf (frame t1 p)) = [] /\ frame t2 (frame t1 p) = frame t1 p) /\
  (Num.eqb (left t1) (ofZ 0) = true -> timerDone (app (frame t1 p)) = true).
Proof.
  intros Hs Ho Htm Hc. cbn zeta.
  destruct (frame_pending t1 p tm h cb Hs Ho Htm Hc) as (Hr1 & Hc1 & (tm1 & Htm1 & Hms1) & _).
  destruct (frame_pending t2 p tm h cb Hs Ho Htm Hc) as (Hr2 & _).
  pose proof (frame_settled t1 p Hs) as Hs1.
  pose proof (frame_oneLoop t1 p Ho) as Ho1.
  split; [exact Hr1|]. split; [exact Hr2|]. split; [|split].
  - intros Hgt. rewrite Hgt in Hc1.
    destruct (frame_pending t2 (frame t1 p) tm1 _ cb Hs1 Ho1 Htm1 Hc1) as (Hr & _).
    now rewrite Hms1 in Hr.
  - intros Hgt. rewrite Hgt in Hc1. split; [exact Hc1|]. now apply frame_idle.
  - intros H0. destruct Hs1 as (_ & _ & Hdone). apply (Hdone tm1 Htm1).
    unfold remainingOf in Hr1. rewrite Htm1 in Hr1. cbn in Hr1.
    injection Hr1 as ->. exact H0.
Qed.

Section FrameExamples.
Local Open Scope Q_scope.

Lemma fiveSecondsRunning_settled : settled fiveSecondsRunning.
Proof. apply pageAfter_settled, initialPage_settled. Qed.

Lemma fiveSecondsRunning_oneLoop : oneLoop fiveSecondsRunning.
Proof. apply pageAfter_oneLoop, initialPage_oneLoop. Qed.

Lemma X7_reachable_pages_witness :
  run 2 [(0, Start); (0, Toggle)] (initialPage 0 fiveSeconds 0 PLAN)
    = Went fiveSecondsRunning /\
  (length (callbacks (raf fiveSecondsRunning)) <= 1)%nat.
Proof.
  assert (H : run 2 [(0, Start); (0, Toggle)] (initialPage 0 fiveSeconds 0 PLAN)
              = Went fiveSecondsRunning) by (vm_compute; reflexivity).
  split; [exact H|].
  exact (proj1 (X7_reachable_pages 2 0 fiveSeconds 0 PLAN _ fiveSecondsRunning H)).
Defined.

Lemma X8_countdown_by_time_stamp_witness :
  exists tm h cb,
    bigTimer fiveSecondsRunning = Some tm /\
    callbacks (raf fiveSecondsRunning) = [(h, cb)] /\
    remainingOf (frame 2000 fiveSecondsRunning) =
      Some (Math.max (ofZ 0) (Num.sub (tms tm) (Num.sub (Fin 2000) (start cb)))).
Proof.
  assert (H1 : exists tm, bigTimer fiveSecondsRunning = Some tm)
    by (vm_compute; eauto).
  assert (H2 : exists h cb, callbacks (raf fiveSecondsRunning) = [(h, cb)])
    by (vm_compute; eauto).
  destruct H1 as [tm H1]. destruct H2 as (h & cb & H2).
  exists tm, h, cb. split; [exact H1|]. split; [exact H2|].
  exact (proj1 (X8_countdown_by_time_stamp 2000 3000 fiveSecondsRunning tm h cb
                  fiveSecondsRunning_settled fiveSecondsRunning_oneLoop H1 H2)).
Defined.

End FrameExamples.

(** ** Exit, and a page loaded in the middle of a run *)

(** A render without a [BigTimer] element and with the dependencies of
    the effect of line 163 as they were: the state of [App] stays. *)
Lemma pass_no_element (now : Q) (p : Page) :
  effectDeps p = Some (depsOf (app p)) -> bigTimerElement (app p) = None ->
  app (pass now p) = app p /\ effectDeps (pass now p) = effectDeps p.
Proof.
  intros Hd Hel. unfold pass, commitTimer. rewrite Hel, Hd, sameDeps_refl.
  destruct (bigTimer p); cbn; auto.
Qed.

Lemma rerender_no_element (now : Q) (p : Page) :
  effectDeps p = Some (depsOf (app p)) -> bigTimerElement (app p) = None ->
  app (rerender now p) = app p.
Proof.
  intros Hd Hel. unfold rerender.
  destruct (pass_no_element now p Hd Hel) as [Ha He].
  destruct (pass_no_element now (pass now p)) as [Ha' _]; try congruence.
Qed.

Lemma settled_no_element (p : Page) :
  settled p -> oneLoop p -> bigTimerElement (app p) = None ->
  bigTimer p = None /\ callbacks (raf p) = [].
Proof.
  intros (_ & Hsync & _) [Hone _] Hel. rewrite Hel in Hsync.
  destruct (bigTimer p); [contradiction|]. auto.
Qed.

(** Exit on a settled page. *)
Lemma exit_unmounts (now : Q) (p : Page) :
  settled p -> oneLoop p -> mode (app p) = RUN ->
  let p' := dispatch now exit p in
  app p' = applyUpdate (setMode PLAN) (app p) /\
  view (app p') = PlanView /\
  bigTimer p' = None /\ callbacks (raf p') = [] /\
  settled p' /\ oneLoop p'.
Proof.
  intros Hs Ho Hm. cbn zeta.
  pose proof (dispatch_settled now exit p Hs) as Hs'.
  pose proof (dispatch_oneLoop now exit p Ho) as Ho'.
  assert (Ha : app (dispatch now exit p) = applyUpdate (setMode PLAN) (app p)).
  { unfold dispatch, exit. cbn [applyAll changes]. rewrite Hm. cbn [Mode_eqb negb orb].
    apply rerender_no_element; [|reflexivity].
    destruct Hs as (Hd & _). exact Hd. }
  assert (Hv : view (app (dispatch now exit p)) = PlanView) by (now rewrite Ha).
  assert (Hel : bigTimerElement (app (dispatch now exit p)) = None).
  { unfold bigTimerElement. now rewrite Hv. }
  destruct (settled_no_element _ Hs' Ho' Hel) as [Ht Hc].
  auto 10.
Qed.

(** X9.  Exit (lines 211 and 295) on a page reached from the first
    render: the plan is shown, the [BigTimer] is unmounted and its
    requested frame cancelled, and nothing else changes: the schedule
    and [idx] stay, and so do [running], [timerDone] and [seed], since
    the dependencies of the effect of line 163 do not involve [mode]. *)
Theorem X9_exit_keeps_run_state (fuel : nat) (now : Q) (p : Page) :
  settled p -> oneLoop p -> enabled Exit (app p) = true ->
  exists p',
    step fuel now Exit p = Went p' /\
    app p' = applyUpdate (setMode PLAN) (app p) /\
    view (app p') = PlanView /\
    bigTimer p' = None /\ callbacks (raf p') = [].
Proof.
  intros Hs Ho Hen. unfold step. rewrite Hen. cbn [negb].
  eexists. split; [reflexivity|].
  assert (Hm : mode (app p) = RUN).
  { unfold enabled, view in Hen. destruct (mode (app p)); [discriminate | reflexivity]. }
  destruct (exit_unmounts now p Hs Ho Hm) as (Ha & Hv & Ht & Hc & _).
  auto.
Qed.

Lemma initialPage_runFields (now : Q) (lib : list Workout) (i : nat) (m : Mode) :
  runFields (app (initialPage now lib i m)) = (lib, i, m, [], 0%nat).
Proof. unfold initialPage. rewrite rerender_runFields. reflexivity. Qed.

(** X10.  [mode] is kept in the local storage (line 148) and the
    schedule is not (line 153): a page loaded with the mode RUN has an
    empty schedule, so that nothing of the run is shown and no timer is
    mounted; Start is not shown either (line 208); of the controls of
    the run only Exit is, and it leads to the plan. *)
Theorem X10_loaded_in_RUN (fuel : nat) (now t : Q) (lib : list Workout) (i : nat) :
  let p := initialPage now lib i RUN in
  view (app p) = Blank /\ bigTimer p = None /\ callbacks (raf p) = [] /\
  (forall e, enabled e (app p) = true ->
             e = Exit \/ e = Frame \/ exists j, e = Select j) /\
  exists p', step fuel t Exit p = Went p' /\ view (app p') = PlanView /\
             schedule (app p') = [].
Proof.
  cbn zeta. set (p := initialPage now lib i RUN).
  pose proof (initialPage_runFields now lib i RUN) as Hf. fold p in Hf.
  assert (Hm : mode (app p) = RUN) by exact (f_equal (fun x => snd (fst (fst x))) Hf).
  assert (Hsch : schedule (app p) = []) by exact (f_equal (fun x => snd (fst x)) Hf).
  clear Hf.
  assert (Hv : view (app p) = Blank).
  { unfold view, cur. now rewrite Hm, Hsch. }
  assert (Hel : bigTimerElement (app p) = None).
  { unfold bigTimerElement. now rewrite Hv. }
  destruct (settled_no_element p (initialPage_settled _ _ _ _)
              (initialPage_oneLoop _ _ _ _) Hel) as [Ht Hcb].
  split; [exact Hv|]. split; [exact Ht|]. split; [exact Hcb|]. split.
  - intros e. unfold enabled. rewrite Hv.
    destruct e; try discriminate; eauto.
  - unfold step, enabled. rewrite Hv. cbn [negb]. eexists. split; [reflexivity|].
    pose proof (dispatch_runFields t exit p) as Hf.
    assert (Hm' : mode (app (dispatch t exit p)) = PLAN)
      by exact (f_equal (fun x => snd (fst (fst x))) Hf).
    assert (Hs' : schedule (app (dispatch t exit p)) = schedule (app p))
      by exact (f_equal (fun x => snd (fst x)) Hf).
    split; [|congruence]. unfold view. now rewrite Hm'.
Qed.

Section ExitExamples.
Local Open Scope Q_scope.

Lemma X9_exit_keeps_run_state_witness :
  enabled Exit (app fiveSecondsRunning) = true /\
  exists p',
    step 2 1000 Exit fiveSecondsRunning = Went p' /\
    app p' = applyUpdate (setMode PLAN) (app fiveSecondsRunning) /\
    view (app p') = PlanView /\
    bigTimer p' = None /\ callbacks (raf p') = [].
Proof.
  split; [reflexivity|].
  exact (X9_exit_keeps_run_state 2 1000 fiveSecondsRunning
           fiveSecondsRunning_settled fiveSecondsRunning_oneLoop eq_refl).
Defined.

End ExitExamples.

(** ** A run started again *)

(** A render in which the effect of line 163 does not run. *)
Lemma pass_kept_deps (now : Q) (p : Page) :
  effectDeps p = Some (depsOf (app p)) ->
  inSync (pass now p) /\
  runFields (app (pass now p)) = runFields (app p) /\
  seed (app (pass now p)) = seed (app p) /\
  running (app (pass now p)) = running (app p) /\
  (timerDone (app p) = true -> timerDone (app (pass now p)) = true).
Proof.
  intros Hd.
  pose proof (pass_depsOf now p) as Hd'.
  pose proof (commitTimer_effects now (bigTimerElement (app p)) p) as [r Hr].
  pose proof (commitTimer_inSync now p (bigTimerElement (app p))) as Hsync.
  unfold inSync. rewrite Hd'. unfold pass in *.
  destruct (commitTimer now (bigTimerElement (app p)) p) as [[[tm' r'] n'] us].
  cbn [snd] in Hr. subst us. destruct Hsync as [Hsync _].
  rewrite Hd, sameDeps_refl in *. cbn [negb app effectDeps bigTimer] in *.
  pose proof (applyAll_complete r (app p)) as (Hf & Hseed & Hrun & _ & Hsame).
  rewrite (bigTimerElement_same _ _ Hf Hseed Hrun).
  repeat split; auto. intros H. now rewrite (Hsame H).
Qed.

(** X11.  Exit does not stop the timer (line 211 sets [mode] only), and
    Start does not either when the run begins at the step the page was
    on (line 165: the dependencies of the effect of line 163 are the
    same, so it does not run).  A run left at its first step with a
    timer running and started again mounts a new [BigTimer] with the
    whole of [ms] that counts down at once, the first frame requested
    at the time of the Start; [seed] is the same, and [timerDone], if
    it was set, still is. *)
Theorem X11_restart_keeps_running
    (fuel : nat) (now t : Q) (p : Page) (c : Step) (blk : Block) (e : Exercise) :
  settled p -> oneLoop p ->
  view (app p) = RunCard c blk e -> unit e = seconds ->
  idx (app p) = 0%nat -> running (app p) = true ->
  buildSchedule fuel (blocks (app p)) = Some (schedule (app p)) ->
  exists p1 p2,
    step fuel now Exit p = Went p1 /\ step fuel t Start p1 = Went p2 /\
    running (app p1) = true /\
    view (app p2) = RunCard c blk e /\
    running (app p2) = true /\ seed (app p2) = seed (app p) /\
    (timerDone (app p) = true -> timerDone (app p2) = true) /\
    exists tm h,
      bigTimer p2 = Some tm /\ remaining tm = toMs (duration e) /\
      trunning tm = true /\
      callbacks (raf p2) =
        [(h, {| owner := tid tm; start := Fin t; loopMs := toMs (duration e) |})].
Proof.
  intros Hs Ho Hv Hu Hi Hrun Hb.
  assert (Hm : mode (app p) = RUN).
  { unfold view in Hv. destruct (mode (app p)); [discriminate | reflexivity]. }
  destruct (exit_unmounts now p Hs Ho Hm) as (Ha1 & Hv1 & Ht1 & Hc1 & Hs1 & Ho1).
  set (p1 := dispatch now exit p) in *.
  assert (Hstep1 : step fuel now Exit p = Went p1).
  { unfold step, enabled. rewrite Hv. reflexivity. }
  assert (Hbl1 : blocks (app p1) = blocks (app p)) by (now rewrite Ha1).
  set (a2 := fst (applyAll [setSchedule (schedule (app p)); setIdx 0; setMode RUN]
                    (app p1))).
  assert (Ha2 : a2 = app p).
  { unfold a2. rewrite Ha1. cbn. destruct (app p); cbn in *. now subst. }
  set (q := withApp a2 p1).
  assert (Hstep2 : step fuel t Start p1 = Went (rerender t q)).
  { unfold step, enabled. rewrite Hv1. cbn [negb]. unfold startRun.
    rewrite Hbl1, Hb. unfold dispatch. fold a2.
    cbn [applyAll changes orb]. reflexivity. }
  assert (Hdq : effectDeps q = Some (depsOf (app q))).
  { cbn [q withApp effectDeps app]. destruct Hs1 as (Hd1 & _). rewrite Hd1, Ha1, Ha2.
    reflexivity. }
  set (ms := toMs (duration e)).
  assert (Hel : bigTimerElement (app q) = Some (seed (app p), ms, true)).
  { cbn [q withApp app]. rewrite Ha2. unfold bigTimerElement. now rewrite Hv, Hu, Hrun. }
  destruct (pass_kept_deps t q Hdq) as (Hin & Hf & Hseed & Hrn & Hdone).
  assert (Hq1 : exists tm,
             bigTimer (pass t q) = Some tm /\ remaining tm = ms /\ trunning tm = true /\
             callbacks (raf (pass t q)) =
               [(nextHandle (raf p1), {| owner := tid tm; start := Fin t; loopMs := ms |})]).
  { unfold pass, commitTimer. rewrite Hel. cbn [q withApp bigTimer raf instances].
    rewrite Ht1. unfold mountTimer, countdownEffect, requestAnimationFrame.
    cbn [trunning negb tid tms]. rewrite Hc1. cbn.
    eexists. split; [reflexivity|]. cbn. auto. }
  destruct Hq1 as (tm & Htm & Hrem & Htr & Hcb).
  destruct (pass_inSync t _ Hin) as (Hin2 & Htm2 & Hraf2 & Hrn2).
  destruct Hin as [Hd' _].
  destruct (pass_kept_deps t _ Hd') as (_ & Hf2 & Hseed2 & _ & Hdone2).
  exists p1, (rerender t q). unfold rerender.
  split; [exact Hstep1|]. split; [exact Hstep2|].
  split; [now rewrite Ha1|].
  assert (Hfq : runFields (app (pass t (pass t q))) = runFields (app p)).
  { rewrite Hf2, Hf. cbn [q withApp app]. now rewrite Ha2. }
  split.
  { apply view_runFields in Hfq as (_ & _ & _ & Hvq). now rewrite Hvq. }
  split; [rewrite Hrn2, Hrn; cbn [q withApp app]; now rewrite Ha2|].
  split; [rewrite Hseed2, Hseed; cbn [q withApp app]; now rewrite Ha2|].
  split.
  { intros H. apply Hdone2, Hdone. cbn [q withApp app]. now rewrite Ha2. }
  exists tm, (nextHandle (raf p1)).
  rewrite Htm2, Hraf2. auto.
Qed.

Section RestartExamples.
Local Open Scope Q_scope.

Lemma X11_restart_keeps_running_witness :
  exists p1 p2,
    step 2 1000 Exit fiveSecondsRunning = Went p1 /\
    step 2 2000 Start p1 = Went p2 /\
    running (app p2) = true /\
    exists tm, bigTimer p2 = Some tm /\ remaining tm = ofZ 5000.
Proof.
  assert (Hv : exists c blk,
             view (app fiveSecondsRunning) =
             RunCard c blk {| description := "Hold"; duration := ofZ 5;
                              unit := seconds; instructions := None |})
    by (vm_compute; eauto).
  destruct Hv as (c & blk & Hv).
  assert (Hi : idx (app fiveSecondsRunning) = 0%nat) by (vm_compute; reflexivity).
  assert (Hr : running (app fiveSecondsRunning) = true) by (vm_compute; reflexivity).
  assert (Hb : buildSchedule 2 (blocks (app fiveSecondsRunning)) =
               Some (schedule (app fiveSecondsRunning))) by (vm_compute; reflexivity).
  destruct (X11_restart_keeps_running 2 1000 2000 fiveSecondsRunning c blk _
              fiveSecondsRunning_settled fiveSecondsRunning_oneLoop Hv eq_refl Hi Hr Hb)
    as (p1 & p2 & H1 & H2 & _ & _ & H3 & _ & _ & tm & h & H4 & H5 & _).
  exists p1, p2. split; [exact H1|]. split; [exact H2|]. split; [exact H3|].
  exists tm. split; [exact H4 | exact H5].
Defined.

End RestartExamples.

(** ** The rounds input *)



(** An animation frame leaves the state the handlers own alone. *)
Lemma frame_runFields (t : Q) (p : Page) :
  runFields (app (frame t p)) = runFields (app p).
Proof.
  unfold frame.
  set (p0 := {| app := app p; effectDeps := effectDeps p; bigTimer := bigTimer p;
                raf := {| callbacks := []; nextHandle := nextHandle (raf p) |};
                instances := instances p |}).
  pose proof (loops_sameProps t (callbacks (raf p)) p0) as (Ha & _).
  assert (H0 : app p0 = app p) by reflexivity.
  destruct (sameOption _ _ _); [|rewrite rerender_runFields]; congruence.
Qed.

(** X13.  [currentIndex] is loaded from the local storage (line 147)
    and may point past the library.  The page then shows the first seed
    routine (line 150) with its rounds inputs, but every edit of one
    throws a [TypeError] (line 234 spreads [library[currentIndex]]
    without the fallback), and this stays so whatever is done on the
    page, until another routine is selected. *)
Theorem X13_stale_index
    (fuel : nat) (now : Q) (lib : list Workout) (i : nat)
    (es : list (Q * Event)) (p : Page) :
  (length lib <= i)%nat ->
  Forall (fun te => forall j, snd te <> Select j) es ->
  run fuel es (initialPage now lib i PLAN) = Went p ->
  library (app p) = lib /\ currentIndex (app p) = i /\
  blocks (app p) = categories seedWorkout0 /\
  forall t bi v,
    enabled (Rounds bi v) (app p) = true ->
    step fuel t (Rounds bi v) p = Thrown TypeError.
Proof.
  intros Hle Hes Hrun.
  assert (Hinv : library (app p) = lib /\ currentIndex (app p) = i).
  { pose proof (initialPage_runFields now lib i PLAN) as H0.
    assert (Hl0 : library (app (initialPage now lib i PLAN)) = lib)
      by exact (f_equal (fun x => fst (fst (fst (fst x)))) H0).
    assert (Hc0 : currentIndex (app (initialPage now lib i PLAN)) = i)
      by exact (f_equal (fun x => snd (fst (fst (fst x)))) H0).
    clear H0. revert Hrun Hl0 Hc0. generalize (initialPage now lib i PLAN) as p0.
    induction Hes as [|[t e] es He Hes IH]; intros p0 Hrun Hl0 Hc0; cbn [run] in Hrun.
    - injection Hrun as <-. auto.
    - destruct (step fuel t e p0) as [p1| | |] eqn:E; try discriminate.
      assert (Hnone : library (app p0) !! currentIndex (app p0) = None).
      { rewrite Hl0, Hc0. apply lookup_ge_None. exact Hle. }
      assert (Hf : library (app p1) = library (app p0) /\
                   currentIndex (app p1) = currentIndex (app p0)).
      { unfold step in E. destruct (negb (enabled e (app p0))); [discriminate|].
        assert (Hd : forall us,
                   library (fst (applyAll us (app p0))) = library (app p0) ->
                   currentIndex (fst (applyAll us (app p0))) = currentIndex (app p0) ->
                   library (app (dispatch t us p0)) = library (app p0) /\
                   currentIndex (app (dispatch t us p0)) = currentIndex (app p0)).
        { intros us H1 H2. pose proof (dispatch_runFields t us p0) as Hf.
          rewrite <- H1, <- H2.
          split; [exact (f_equal (fun x => fst (fst (fst (fst x)))) Hf)
                 | exact (f_equal (fun x => snd (fst (fst (fst x)))) Hf)]. }
        destruct e; cbn [snd] in He.
        - now contradiction (He i0).
        - unfold startRun in E.
          destruct (buildSchedule fuel (blocks (app p0))); [|discriminate].
          injection E as <-. apply Hd; reflexivity.
        - injection E as <-. apply Hd; reflexivity.
        - injection E as <-. apply Hd; unfold next;
            destruct (_ <? _)%nat; reflexivity.
        - injection E as <-. apply Hd; unfold prev;
            destruct (_ <? _)%nat; reflexivity.
        - injection E as <-. apply Hd; unfold next;
            destruct (_ <? _)%nat; reflexivity.
        - injection E as <-. apply Hd; reflexivity.
        - unfold onRoundsChange in E. rewrite Hnone in E. discriminate.
        - injection E as <-. pose proof (frame_runFields t p0) as Hf.
          split; [exact (f_equal (fun x => fst (fst (fst (fst x)))) Hf)
                 | exact (f_equal (fun x => snd (fst (fst (fst x)))) Hf)]. }
      destruct Hf as [Hl1 Hc1].
      apply (IH p1 Hrun); congruence. }
  destruct Hinv as [Hl Hc].
  assert (Hnone : library (app p) !! currentIndex (app p) = None).
  { rewrite Hl, Hc. apply lookup_ge_None. exact Hle. }
  split; [exact Hl|]. split; [exact Hc|]. split.
  - unfold blocks, workout. now rewrite Hnone.
  - intros t bi v Hen. unfold step. rewrite Hen. cbn [negb].
    unfold onRoundsChange. now rewrite Hnone.
Qed.

Section StaleIndexExamples.
Local Open Scope Q_scope.

Lemma X13_stale_index_witness :
  (length INITIAL_LIBRARY <= 7)%nat /\
  Forall (fun te : Q * Event => forall j, snd te <> Select j) [(1, Start); (2, Exit)] /\
  exists p,
    run 4 [(1, Start); (2, Exit)] (initialPage 0 INITIAL_LIBRARY 7 PLAN) = Went p /\
    step 4 3 (Rounds 0 "2") p = Thrown TypeError.
Proof.
  assert (Hle : (length INITIAL_LIBRARY <= 7)%nat) by (cbn; lia).
  assert (Hes : Forall (fun te : Q * Event => forall j, snd te <> Select j)
                  [(1, Start); (2, Exit)]).
  { repeat constructor; intros j; discriminate. }
  split; [exact Hle|]. split; [exact Hes|].
  destruct (run 4 [(1, Start); (2, Exit)] (initialPage 0 INITIAL_LIBRARY 7 PLAN))
    as [p| | |] eqn:E; try (vm_compute in E; discriminate).
  exists p. split; [reflexivity|].
  destruct (X13_stale_index 4 0 INITIAL_LIBRARY 7 _ p Hle Hes E) as (_ & _ & Hb & Hthrow).
  apply Hthrow. unfold enabled.
  assert (Hv : view (app p) = PlanView).
  { assert (H : Went p = run 4 [(1, Start); (2, Exit)] (initialPage 0 INITIAL_LIBRARY 7 PLAN))
      by (symmetry; exact E).
    vm_compute in H. injection H as ->. reflexivity. }
  rewrite Hv, Hb. reflexivity.
Defined.

End StaleIndexExamples.

(** ** [buildSchedule] block by block *)

Lemma map_imap {A B C} (f : B -> C) (l : list A) :
  forall g : nat -> A -> B, map f (imap g l) = imap (fun i x => f (g i x)) l.
Proof.
  induction l as [|x l IH]; intros g; cbn [imap map]; [reflexivity|].
  f_equal. apply IH.
Qed.

Lemma blockSteps_shift (n k : nat) (blk : Block) :
  blockSteps (n + k) blk = map (shiftBlock n) (blockSteps k blk).
Proof.
  unfold blockSteps. induction (roundsUpTo (roundCount blk)) as [|r rs IH];
    cbn [flat_map map]; [reflexivity|].
  rewrite map_app, IH. f_equal.
  unfold roundSteps. rewrite map_imap. reflexivity.
Qed.

Lemma scheduleSpec_app (bs1 bs2 : list Block) :
  scheduleSpec (bs1 ++ bs2) =
  scheduleSpec bs1 ++ map (shiftBlock (length bs1)) (scheduleSpec bs2).
Proof.
  unfold scheduleSpec. rewrite imap_app, concat_app. f_equal.
  rewrite concat_map, map_imap. f_equal.
  apply imap_ext. intros k blk _. apply blockSteps_shift.
Qed.

(** X14.  [buildSchedule] works block by block (lines 133-142): the
    schedule of two lists of blocks one after the other is the schedule
    of the first followed by the schedule of the second with its block
    indices moved past the first; and it returns exactly when it
    returns on both. *)
Theorem X14_buildSchedule_app (fuel : nat) (bs1 bs2 : list Block) :
  buildSchedule fuel (bs1 ++ bs2) =
  match buildSchedule fuel bs1, buildSchedule fuel bs2 with
  | Some s1, Some s2 => Some (s1 ++ map (shiftBlock (length bs1)) s2)
  | _, _ => None
  end.
Proof.
  rewrite !buildSchedule_spec, forallb_app.
  destruct (forallb (returnsWithin fuel) bs1), (forallb (returnsWithin fuel) bs2);
    cbn [andb]; try reflexivity.
  now rewrite scheduleSpec_app.
Qed.

(** ** From the rounds input to the schedule *)




Section RoundsRunExamples.
Local Open Scope Q_scope.


End RoundsRunExamples.

(** ** Pause *)

(** A render that keeps the instance and its [ms] keeps [remaining]. *)
Lemma pass_keeps_remaining (now : Q) (p : Page) (tm : Timer) (ms : number) (run : bool) :
  bigTimer p = Some tm ->
  bigTimerElement (app p) = Some (tkey tm, ms, run) ->
  Num.same (tms tm) ms = true ->
  remainingOf (pass now p) = Some (remaining tm).
Proof.
  intros Htm Hel Hms. unfold pass, commitTimer. rewrite Htm, Hel, Nat.eqb_refl.
  pose proof (updateTimer_props now ms run tm (raf p)) as (_ & _ & _ & Hrem).
  destruct (updateTimer now ms run tm (raf p)) as [tm' r']. cbn in *.
  unfold remainingOf. cbn. f_equal. auto.
Qed.

(** While [running] is off no frame is requested. *)
Lemma paused_nothing_requested (p : Page) :
  settled p -> oneLoop p -> running (app p) = false -> callbacks (raf p) = [].
Proof.
  intros (_ & Hsync & _) [Hone _] Hrun.
  destruct (bigTimer p) as [tm|]; [|exact Hone].
  destruct (bigTimerElement (app p)) as [[[key ms] run]|] eqn:Eel; [|contradiction].
  destruct (bigTimerElement_key _ _ _ _ Eel) as [_ ->].
  destruct Hsync as (_ & _ & Ht).
  destruct Hone as [H | (h & cb & _ & _ & _ & _ & _ & Ht')]; [exact H | congruence].
Qed.

(** X16.  Pause (lines 57 and 312): pressing the button of a running
    timer turns [running] off, cancels the requested frame and leaves
    [remaining] as it is, and animation frames change nothing on the
    page until the button is pressed again. *)
Theorem X16_pause_holds
    (fuel : nat) (now : Q) (p : Page) (tm : Timer)
    (c : Step) (blk : Block) (e : Exercise) :
  settled p -> oneLoop p ->
  view (app p) = RunCard c blk e -> unit e = seconds ->
  bigTimer p = Some tm -> running (app p) = true ->
  exists p1,
    step fuel now Toggle p = Went p1 /\
    running (app p1) = false /\
    remainingOf p1 = Some (remaining tm) /\
    callbacks (raf p1) = [] /\
    forall t, step fuel t Frame p1 = Went p1.
Proof.
  intros Hs Ho Hv Hu Htm Hrun.
  set (p1 := dispatch now onToggle p).
  pose proof (dispatch_settled now onToggle p Hs) as Hs1.
  pose proof (dispatch_oneLoop now onToggle p Ho) as Ho1.
  fold p1 in Hs1, Ho1.
  assert (Hstep : step fuel now Toggle p = Went p1).
  { unfold step, enabled. rewrite Hv, Hu. reflexivity. }
  set (a' := applyUpdate (setRunning negb) (app p)).
  set (q := withApp a' p).
  assert (Hp1 : p1 = rerender now q).
  { unfold p1, dispatch, onToggle. cbn [applyAll changes]. rewrite Hrun. reflexivity. }
  assert (Hf : runFields a' = runFields (app p)) by reflexivity.
  destruct Hs as (Hd & Hsync & _).
  assert (Hdq : effectDeps q = Some (depsOf (app q))).
  { cbn [q withApp effectDeps app]. rewrite Hd. reflexivity. }
  rewrite Htm in Hsync. unfold timerInSync in Hsync.
  assert (Hel : bigTimerElement (app p) = Some (seed (app p), toMs (duration e), true)).
  { unfold bigTimerElement. now rewrite Hv, Hu, Hrun. }
  rewrite Hel in Hsync. destruct Hsync as (Hk & Hms & _).
  assert (Helq : bigTimerElement (app q) = Some (tkey tm, toMs (duration e), false)).
  { cbn [q withApp app].
    rewrite (bigTimerElement_runFields (app p) a') by (now symmetry).
    rewrite Hel, Hk. unfold a'. cbn. now rewrite Hrun. }
  pose proof (pass_keeps_remaining now q tm _ _ Htm Helq Hms) as Hrem.
  destruct (pass_kept_deps now q Hdq) as (Hin & _ & _ & Hrn & _).
  destruct (pass_inSync now _ Hin) as (_ & Htm2 & _ & Hrn2).
  assert (Hrun1 : running (app p1) = false).
  { rewrite Hp1. unfold rerender. rewrite Hrn2, Hrn. cbn. now rewrite Hrun. }
  assert (Hcb : callbacks (raf p1) = []) by (now apply paused_nothing_requested).
  exists p1. split; [exact Hstep|]. split; [exact Hrun1|]. split.
  { rewrite Hp1. unfold rerender, remainingOf in *. now rewrite Htm2. }
  split; [exact Hcb|].
  intros t. unfold step. cbn. f_equal. now apply frame_idle.
Qed.

Section PauseExamples.
Local Open Scope Q_scope.

Lemma X16_pause_holds_witness :
  let p := pageAfter 2 [(2000, Frame)] fiveSecondsRunning in
  exists p1,
    step 2 2500 Toggle p = Went p1 /\
    running (app p1) = false /\
    remainingOf p1 = Some (Fin 3000) /\
    step 2 4000 Frame p1 = Went p1.
Proof.
  cbn zeta. set (p := pageAfter 2 [(2000, Frame)] fiveSecondsRunning).
  assert (Hs : settled p) by apply pageAfter_settled, fiveSecondsRunning_settled.
  assert (Ho : oneLoop p) by apply pageAfter_oneLoop, fiveSecondsRunning_oneLoop.
  assert (Hv : exists c blk e tm,
             view (app p) = RunCard c blk e /\ unit e = seconds /\
             bigTimer p = Some tm /\ remaining tm = Fin 3000)
    by (vm_compute; eauto 10).
  destruct Hv as (c & blk & e & tm & Hv & Hu & Htm & Hrem).
  assert (Hr : running (app p) = true) by (vm_compute; reflexivity).
  destruct (X16_pause_holds 2 2500 p tm c blk e Hs Ho Hv Hu Htm Hr)
    as (p1 & H1 & H2 & H3 & _ & H4).
  exists p1. split; [exact H1|]. split; [exact H2|].
  split; [rewrite H3, Hrem; reflexivity | apply H4].
Defined.

End PauseExamples.

(** ** Saving and loading the state *)

(** X17.  The effect of line 48 and the initialiser of lines 41-47 of
    [useLocalStorage] fit together.  The effect never throws; when the
    store can be read, the state serialises and the write is accepted,
    a later load under the same key gives what [JSON.parse] makes of the
    serialised state (the state itself when [JSON.parse] undoes
    [JSON.stringify]), whatever the default, and a load under any other
    key is what it was before; when the write is refused or the state
    does not serialise, the store is what it was. *)
Theorem X17_save_then_load
    (T : Type) (JSON_parse : string -> result T) (JSON_stringify : T -> result string)
    (ls : result (option WebStorage)) (key : string) (state : T) :
  exists ls',
    useLocalStorage_save T JSON_stringify ls key state = Ok ls' /\
    (forall s text,
       ls = Ok (Some s) -> JSON_stringify state = Ok text ->
       refuses s key text = None ->
       (forall initialValue,
          useLocalStorage_initial T JSON_parse (windowOf ls') key initialValue =
          match JSON_parse text with
          | Ok v => Ok v
          | Throw _ => Ok initialValue
          end) /\
       (JSON_parse text = Ok state ->
        forall initialValue,
          useLocalStorage_initial T JSON_parse (windowOf ls') key initialValue = Ok state) /\
       (forall key' initialValue,
          key' <> key ->
          useLocalStorage_initial T JSON_parse (windowOf ls') key' initialValue =
          useLocalStorage_initial T JSON_parse (windowOf ls) key' initialValue)) /\
    ((forall s text, ls = Ok (Some s) -> JSON_stringify state = Ok text ->
                     refuses s key text <> None) -> ls' = ls).
Proof.
  unfold useLocalStorage_save.
  destruct ls as [[s|]|e]; cbn [andThen tryCatch].
  - destruct (JSON_stringify state) as [text|e] eqn:Es; cbn [andThen tryCatch].
    + unfold setItem. destruct (refuses s key text) as [e|] eqn:Er; cbn [andThen tryCatch].
      * eexists. split; [reflexivity|]. split; [|reflexivity].
        intros s0 text0 [= <-] [= <-] H. congruence.
      * eexists. split; [reflexivity|]. split.
        -- intros s0 text0 [= <-] [= <-] _.
           assert (Hload : forall initialValue,
                     useLocalStorage_initial T JSON_parse
                       (windowOf (Ok (Some
                          {| items := fun k => if String.eqb k key then Some text
                                               else items s k;
                             refuses := refuses s |}))) key initialValue =
                     match JSON_parse text with
                     | Ok v => Ok v
                     | Throw _ => Ok initialValue
                     end).
           { intros initialValue. unfold useLocalStorage_initial, windowOf, readerOf.
             cbn. rewrite String.eqb_refl. destruct (JSON_parse text); reflexivity. }
           split; [exact Hload|]. split.
           ++ intros Hp initialValue. now rewrite Hload, Hp.
           ++ intros key' initialValue Hk.
              unfold useLocalStorage_initial, windowOf, readerOf. cbn.
              apply String.eqb_neq in Hk. now rewrite Hk.
        -- intros H. exfalso. now apply (H s text).
    + eexists. split; [reflexivity|]. split; [|reflexivity].
      intros s0 text0 [= <-] H. discriminate.
  - eexists. split; [reflexivity|]. split; [|reflexivity]. intros s text H. discriminate.
  - eexists. split; [reflexivity|]. split; [|reflexivity]. intros s text H. discriminate.
Qed.

Section SaveExamples.
Local Open Scope string_scope.

(** The index 1 saved into an empty store that accepts every write, and
    loaded again. *)
Lemma X17_save_then_load_witness :
  let s := {| items := fun _ => None; refuses := fun _ _ => None |} in
  exists ls',
    useLocalStorage_save number stringifyIndex (Ok (Some s))
      "workout_current_index" (ofZ 1) = Ok ls' /\
    useLocalStorage_initial number parseIndex (windowOf ls')
      "workout_current_index" (ofZ 0) = Ok (ofZ 1) /\
    useLocalStorage_initial number parseIndex (windowOf ls') "mode" (ofZ 0) = Ok (ofZ 0).
Proof.
  cbn zeta.
  set (s := {| items := fun _ => None; refuses := fun _ _ => None |}).
  destruct (X17_save_then_load number parseIndex stringifyIndex (Ok (Some s))
              "workout_current_index" (ofZ 1)) as (ls' & Hsave & Hload & _).
  destruct (Hload s "1" eq_refl eq_refl eq_refl) as (_ & Hsame & Hother).
  exists ls'. split; [exact Hsave|]. split.
  - apply Hsame. vm_compute. reflexivity.
  - rewrite (Hother "mode" (ofZ 0)) by discriminate. reflexivity.
Defined.

End SaveExamples.

(** ** The test panel *)

Lemma add_Fin (a b : Q) : add (Fin a) (Fin b) = Fin (Qred (a + b)).
Proof. reflexivity. Qed.

(** The sum of the third test from an accumulator on. *)
Lemma total_from (blocks : list Block) :
  Forall finiteRounds blocks ->
  forall a : Q,
  exists q,
    fold_left
      (fun sum b =>
         add sum (Num.mul (roundsOf b) (ofZ (Z.of_nat (length (exercises b))))))
      blocks (Fin a) = Fin q /\
    (Forall (fun b => isInteger (roundsOf b) = true) blocks ->
     q == a + inject_Z (scheduleLength blocks))%Q /\
    (a + inject_Z (scheduleLength blocks) <= q)%Q.
Proof.
  induction 1 as [|b bs Hb Hbs IH]; intros a; cbn [fold_left scheduleLength fold_right].
  - exists a. split; [reflexivity|].
    split; [intros _; rewrite Qplus_0_r; reflexivity | rewrite Qplus_0_r; apply Qle_refl].
  - destruct (roundsOf_cases b) as [[E _] | [_ (r & Hr & Hr1 & Hfl)]]; [contradiction|].
    rewrite Hr. unfold ofZ. cbn [Num.mul]. rewrite add_Fin.
    set (n := Z.of_nat (length (exercises b))).
    destruct (IH (Qred (a + Qred (r * inject_Z n)))) as (q & Hq & Hint & Hle).
    exists q. split; [exact Hq|].
    fold (scheduleLength bs) in *.
    assert (Hn : (0 <= inject_Z n)%Q).
    { change 0%Q with (inject_Z 0). rewrite <- Zle_Qle. unfold n. lia. }
    assert (Hfloor : (inject_Z (roundCount b) <= r)%Q).
    { rewrite <- Hfl. apply Qfloor_le. }
    split.
    + intros Hall. inversion Hall as [|? ? Hib Hibs]; subst.
      rewrite (Hint Hibs). rewrite !Qred_correct.
      rewrite Hr in Hib. cbn [isInteger] in Hib. apply Qeq_bool_iff in Hib.
      rewrite Hfl in Hib. rewrite Hib at 1.
      rewrite inject_Z_plus, inject_Z_mult. ring.
    + eapply Qle_trans; [|exact Hle]. rewrite !Qred_correct.
      rewrite inject_Z_plus, inject_Z_mult.
      rewrite Qplus_assoc. apply Qplus_le_l. apply Qplus_le_r.
      apply Qmult_le_compat_r; assumption.
Qed.

(** X18.  The third test of the panel (lines 182-184) compares the
    length of the schedule with the sum of
    [Math.max(1, Number(b.rounds||1)) * exercises.length].  Where the
    panel is shown, on the plan, it passes whatever the schedule is.
    On the run that Start has just begun it would pass when every round
    count is a whole number; a round count that is not (the rounds
    input stores 2.5 as it is) on a block with an exercise makes it
    fail, since [buildSchedule] runs the whole rounds only. *)
Theorem X18_schedule_length_test (fuel : nat) (now : Q) (p p' : Page) :
  step fuel now Start p = Went p' ->
  scheduleLengthTest (app p) = true /\
  (Forall (fun b => isInteger (roundsOf b) = true) (blocks (app p)) ->
   scheduleLengthTest (app p') = true) /\
  (forall b, blocks (app p) = [b] -> isInteger (roundsOf b) = false ->
             exercises b <> [] -> scheduleLengthTest (app p') = false).
Proof.
  unfold step. destruct (negb (enabled Start (app p))) eqn:Een; [discriminate|].
  unfold startRun.
  destruct (buildSchedule fuel (blocks (app p))) as [steps|] eqn:Eb; [|discriminate].
  intros [= <-].
  apply buildSchedule_Some in Eb as [-> Hfin].
  set (us := [setSchedule (scheduleSpec (blocks (app p))); setIdx 0; setMode RUN]).
  pose proof (dispatch_runFields now us p) as Hf.
  assert (Hl : library (app (dispatch now us p)) = library (app p))
    by exact (f_equal (fun x => fst (fst (fst (fst x)))) Hf).
  assert (Hc : currentIndex (app (dispatch now us p)) = currentIndex (app p))
    by exact (f_equal (fun x => snd (fst (fst (fst x)))) Hf).
  assert (Hm : mode (app (dispatch now us p)) = RUN)
    by exact (f_equal (fun x => snd (fst (fst x))) Hf).
  assert (Hs : schedule (app (dispatch now us p)) = scheduleSpec (blocks (app p)))
    by exact (f_equal (fun x => snd (fst x)) Hf).
  clear Hf.
  pose proof (blocks_runFields _ _ Hl Hc) as Hb.
  assert (Hplan : scheduleLengthTest (app p) = true).
  { unfold scheduleLengthTest. apply negb_false_iff in Een.
    unfold enabled, view in Een. destruct (mode (app p)); [reflexivity|].
    destruct (cur (app p)), (currentBlock (app p)), (current (app p)); discriminate. }
  split; [exact Hplan|].
  unfold scheduleLengthTest. rewrite Hm, Hs, Hb, scheduleSpec_length.
  destruct (total_from (blocks (app p)) Hfin 0) as (q & Hq & Hint & Hle).
  unfold total. change (ofZ 0) with (Fin 0). rewrite Hq. unfold ofZ. cbn [Num.eqb].
  split.
  - intros Hall. apply Qeq_bool_iff. rewrite (Hint Hall). ring.
  - intros b Hbs Hni Hex. destruct (Qeq_bool _ q) eqn:E; [|reflexivity]. exfalso.
    apply Qeq_bool_iff in E.
    rewrite Hbs in Hq. cbn [fold_left] in Hq.
    destruct (roundsOf_cases b) as [[_ Hr] | [_ (r & Hr & Hr1 & Hfl)]].
    { rewrite Hr in Hq. cbn in Hq. destruct (length (exercises b)); discriminate. }
    rewrite Hr in Hq, Hni. unfold ofZ in Hq. cbn [Num.mul] in Hq. rewrite add_Fin in Hq.
    injection Hq as <-. rewrite Hbs in E. cbn [scheduleLength fold_right] in E.
    rewrite !Qred_correct in E.
    set (n := Z.of_nat (length (exercises b))) in *.
    assert (Hn : (0 < inject_Z n)%Q).
    { change 0%Q with (inject_Z 0). rewrite <- Zlt_Qlt. unfold n.
      destruct (exercises b); [contradiction | cbn; lia]. }
    rewrite Z.add_0_r, inject_Z_mult, Qplus_0_l in E.
    apply Qmult_inj_r in E; [|intros H0; rewrite H0 in Hn; discriminate].
    cbn [isInteger] in Hni. rewrite Hfl in Hni.
    assert (Qeq_bool r (inject_Z (roundCount b)) = true)
      by (apply Qeq_bool_iff; symmetry; exact E).
    congruence.
Qed.

Section TestPanelExamples.
Local Open Scope Q_scope.

Lemma X18_schedule_length_test_witness :
  exists p',
    step 4 1 Start (initialPage 0 INITIAL_LIBRARY 0 PLAN) = Went p' /\
    scheduleLengthTest (app p') = true.
Proof.
  set (p := initialPage 0 INITIAL_LIBRARY 0 PLAN).
  assert (Hall : Forall (fun b => isInteger (roundsOf b) = true) (blocks (app p))).
  { change (blocks (app p)) with (categories seedWorkout0).
    repeat constructor. }
  destruct (step 4 1 Start p) as [p'| | |] eqn:E; try (vm_compute in E; discriminate).
  exists p'. split; [reflexivity|].
  exact (proj1 (proj2 (X18_schedule_length_test 4 1 p p' E)) Hall).
Defined.

End TestPanelExamples.

(** ** Selecting a routine *)

(** X19.  The routine selector sets [currentIndex] and nothing else
    (line 203): during a run the schedule built from the blocks of the
    routine that was started stays, with [idx] and [mode], and is read
    against the blocks of the routine selected now (lines 155-157).
    The card shows the exercise of the new routine at the block and
    exercise indices of the current step; when the new routine has no
    such block or exercise nothing of the run is shown, the Next and
    Prev buttons included. *)
Theorem X19_select_keeps_schedule
    (fuel : nat) (now : Q) (j : nat) (p : Page) (w : Workout) :
  library (app p) !! j = Some w ->
  exists p',
    step fuel now (Select j) p = Went p' /\
    library (app p') = library (app p) /\ currentIndex (app p') = j /\
    mode (app p') = mode (app p) /\
    schedule (app p') = schedule (app p) /\ idx (app p') = idx (app p) /\
    blocks (app p') = categories w /\
    (mode (app p) = RUN ->
     forall c, schedule (app p) !! idx (app p) = Some c ->
       match categories w !! bi c with
       | Some blk =>
           match exercises blk !! ei c with
           | Some e => view (app p') = RunCard c blk e
           | None => view (app p') = Blank
           end
       | None => view (app p') = Blank
       end) /\
    (view (app p') = Blank ->
     enabled Next (app p') = false /\ enabled Prev (app p') = false /\
     enabled Exit (app p') = true).
Proof.
  intros Hw.
  assert (Hlt : (j <? length (library (app p)))%nat = true).
  { apply Nat.ltb_lt. eapply lookup_lt_Some; eassumption. }
  exists (dispatch now (selectRoutine j) p).
  split.
  { unfold step, enabled. rewrite Hlt.
    destruct (view (app p)); reflexivity. }
  pose proof (dispatch_runFields now (selectRoutine j) p) as Hf.
  set (p' := dispatch now (selectRoutine j) p) in *.
  assert (Hl : library (app p') = library (app p))
    by exact (f_equal (fun x => fst (fst (fst (fst x)))) Hf).
  assert (Hc : currentIndex (app p') = j)
    by exact (f_equal (fun x => snd (fst (fst (fst x)))) Hf).
  assert (Hm : mode (app p') = mode (app p))
    by exact (f_equal (fun x => snd (fst (fst x))) Hf).
  assert (Hs : schedule (app p') = schedule (app p))
    by exact (f_equal (fun x => snd (fst x)) Hf).
  assert (Hi : idx (app p') = idx (app p))
    by exact (f_equal snd Hf).
  clear Hf.
  assert (Hb : blocks (app p') = categories w).
  { unfold blocks, workout. now rewrite Hl, Hc, Hw. }
  repeat (split; [assumption|]). split.
  - intros Hrun c Hcur. unfold view, current, currentBlock, cur.
    rewrite Hm, Hrun, Hs, Hi, Hcur, Hb.
    destruct (categories w !! bi c) as [blk|]; [|reflexivity].
    destruct (exercises blk !! ei c); reflexivity.
  - intros Hv. unfold enabled. rewrite Hv. auto.
Qed.

Section SelectExamples.
Local Open Scope Q_scope.

(** The second seed routine selected at the first step of a run of the
    first: the schedule of the first routine stays. *)
Lemma X19_select_keeps_schedule_witness :
  let p := pageAfter 4 [(1, Start)] (initialPage 0 INITIAL_LIBRARY 0 PLAN) in
  exists p',
    step 4 2 (Select 1) p = Went p' /\
    currentIndex (app p') = 1%nat /\
    schedule (app p') = schedule (app p) /\
    blocks (app p') = categories seedWorkout1.
Proof.
  cbn zeta.
  set (p := pageAfter 4 [(1, Start)] (initialPage 0 INITIAL_LIBRARY 0 PLAN)).
  assert (Hw : library (app p) !! 1%nat = Some seedWorkout1) by (vm_compute; reflexivity).
  destruct (X19_select_keeps_schedule 4 2 1 p seedWorkout1 Hw)
    as (p' & H1 & _ & H2 & _ & H3 & _ & H4 & _).
  exists p'. split; [exact H1|]. split; [exact H2|]. split; [exact H3 | exact H4].
Defined.

End SelectExamples.
